(** * get-rds-credentials: a shallow embedding and its verified properties

    The script [get-rds-credentials.py] checks that three external tools are
    on the search path, lists RDS endpoints with [aws] and [jq], lets the
    operator pick one with [fzf], and prints an authentication token.

    Python [str] values are sequences of code points ([list N]), [bytes]
    values are [list byte].  The process environment, the file system and
    the behaviour of child processes form a [world]; the script runs in a
    state-and-exception monad over that world, a memo table for [which] and
    a trace of the observable events. *)

From Stdlib Require Import ZArith NArith DecimalPos Strings.Ascii Strings.Byte Lia.
From stdpp Require Import base ssreflect option list strings gmap.

#[local] Set Warnings "-rewrite-rw".

Local Open Scope N_scope.

(** ** Python strings *)

Abbreviation char := N (only parsing).
Abbreviation str := (list N) (only parsing).
Abbreviation bytes := (list byte) (only parsing).

#[export] Instance byte_eq_decision : EqDecision byte := Byte.byte_eq_dec.

(** A string literal of the source, as a sequence of code points. *)
Fixpoint py (s : string) : str :=
  match s with
  | EmptyString => []
  | String a s' => N_of_ascii a :: py s'
  end.
#[global] Opaque py.

Module Ch.
Definition tab : char := 9.
Definition lf : char := 10.
Definition cr : char := 13.
Definition space : char := 32.
Definition dquote : char := 34.
Definition squote : char := 39.
Definition minus : char := 45.
Definition slash : char := 47.
Definition colon : char := 58.
Definition backslash : char := 92.
Definition lbrace : char := 123.
Definition rbrace : char := 125.
End Ch.

(** [c in s] for a one-character [c]. *)
Definition char_in (c : char) (s : str) : bool := bool_decide (c ∈ s).

(** [str.isspace] on one character (the Unicode white space property). *)
Definition isspace (c : char) : bool :=
  ((9 <=? c) && (c <=? 13)) || ((28 <=? c) && (c <=? 32)) || (c =? 133)
  || (c =? 160) || (c =? 5760) || ((8192 <=? c) && (c <=? 8202))
  || (c =? 8232) || (c =? 8233) || (c =? 8239) || (c =? 8287) || (c =? 12288).

Fixpoint lstrip (s : str) : str :=
  match s with
  | c :: s' => if isspace c then lstrip s' else s
  | [] => []
  end.

Definition rstrip (s : str) : str := reverse (lstrip (reverse s)).

(** [str.strip()]: white space removed at both ends. *)
Definition strip (s : str) : str := lstrip (rstrip s).

(** The line boundaries of [str.splitlines]. *)
Definition is_linebreak (c : char) : bool :=
  ((10 <=? c) && (c <=? 13)) || ((28 <=? c) && (c <=? 30)) || (c =? 133)
  || (c =? 8232) || (c =? 8233).

(** [str.splitlines()] ([keepends] false): [cur] is the line being read. *)
Fixpoint splitlines_from (cur : str) (s : str) : list str :=
  match s with
  | [] => match cur with [] => [] | _ => [cur] end
  | c :: s' =>
      if is_linebreak c then
        match s' with
        | c' :: s'' =>
            if (c =? Ch.cr) && (c' =? Ch.lf)
            then cur :: splitlines_from [] s''
            else cur :: splitlines_from [] s'
        | [] => cur :: splitlines_from [] s'
        end
      else splitlines_from (cur ++ [c]) s'
  end.

Definition splitlines (s : str) : list str := splitlines_from [] s.

(** [s.split(sep)] for a one-character separator. *)
Fixpoint split (sep : char) (s : str) : list str :=
  match s with
  | [] => [[]]
  | c :: s' =>
      if c =? sep then [] :: split sep s'
      else match split sep s' with
           | w :: ws => (c :: w) :: ws
           | [] => [[c]]
           end
  end.

(** [sep.join(parts)]. *)
Fixpoint join (sep : str) (parts : list str) : str :=
  match parts with
  | [] => []
  | [p] => p
  | p :: ps => p ++ sep ++ join sep ps
  end.

(** [str(n)] for an [int]. *)
Fixpoint digits (u : Decimal.uint) : str :=
  match u with
  | Decimal.Nil => []
  | Decimal.D0 u => 48 :: digits u
  | Decimal.D1 u => 49 :: digits u
  | Decimal.D2 u => 50 :: digits u
  | Decimal.D3 u => 51 :: digits u
  | Decimal.D4 u => 52 :: digits u
  | Decimal.D5 u => 53 :: digits u
  | Decimal.D6 u => 54 :: digits u
  | Decimal.D7 u => 55 :: digits u
  | Decimal.D8 u => 56 :: digits u
  | Decimal.D9 u => 57 :: digits u
  end.

Definition str_of_int (n : Z) : str :=
  match Z.to_int n with
  | Decimal.Pos u => digits u
  | Decimal.Neg u => Ch.minus :: digits u
  end.

(** ** UTF-8, the codec of [bytes.decode()] and [str.encode()] *)

Definition continuation (b : N) : bool := (128 <=? b) && (b <=? 191).

(** Strict decoding: [None] stands for [UnicodeDecodeError]. *)
Fixpoint utf8_decode (bs : bytes) : option str :=
  match bs with
  | [] => Some []
  | b0 :: r0 =>
      let x0 := Byte.to_N b0 in
      if x0 <? 128 then cons x0 <$> utf8_decode r0
      else match r0 with
      | [] => None
      | b1 :: r1 =>
          let x1 := Byte.to_N b1 in
          if (194 <=? x0) && (x0 <=? 223) then
            if continuation x1
            then cons ((x0 - 192) * 64 + (x1 - 128)) <$> utf8_decode r1
            else None
          else match r1 with
          | [] => None
          | b2 :: r2 =>
              let x2 := Byte.to_N b2 in
              if (224 <=? x0) && (x0 <=? 239) then
                if continuation x1 && continuation x2
                   && negb ((x0 =? 224) && (x1 <? 160))
                   && negb ((x0 =? 237) && (159 <? x1))
                then cons ((x0 - 224) * 4096 + (x1 - 128) * 64 + (x2 - 128))
                       <$> utf8_decode r2
                else None
              else match r2 with
              | [] => None
              | b3 :: r3 =>
                  let x3 := Byte.to_N b3 in
                  if (240 <=? x0) && (x0 <=? 244) then
                    if continuation x1 && continuation x2 && continuation x3
                       && negb ((x0 =? 240) && (x1 <? 144))
                       && negb ((x0 =? 244) && (143 <? x1))
                    then cons ((x0 - 240) * 262144 + (x1 - 128) * 4096
                               + (x2 - 128) * 64 + (x3 - 128))
                           <$> utf8_decode r3
                    else None
                  else None
              end
          end
      end
  end.

Definition byte_of (n : N) : byte := default Byte.x00 (Byte.of_N n).

(** The encoding of one code point; surrogates have none. *)
Definition utf8_encode_char (c : char) : option bytes :=
  if c <? 128 then Some [byte_of c]
  else if c <? 2048 then Some [byte_of (192 + c / 64); byte_of (128 + c mod 64)]
  else if (55296 <=? c) && (c <=? 57343) then None
  else if c <? 65536 then
    Some [byte_of (224 + c / 4096); byte_of (128 + (c / 64) mod 64);
          byte_of (128 + c mod 64)]
  else if c <? 1114112 then
    Some [byte_of (240 + c / 262144); byte_of (128 + (c / 4096) mod 64);
          byte_of (128 + (c / 64) mod 64); byte_of (128 + c mod 64)]
  else None.

(** Strict encoding: [None] stands for [UnicodeEncodeError]. *)
Fixpoint utf8_encode (s : str) : option bytes :=
  match s with
  | [] => Some []
  | c :: s' =>
      match utf8_encode_char c, utf8_encode s' with
      | Some b, Some bs => Some (b ++ bs)
      | _, _ => None
      end
  end.

(** ** Exceptions and results *)

Inductive exn : Type :=
  | KeyError
  | TypeError
  | ValueError
  | IndexError
  | JSONDecodeError
  | UnicodeDecodeError
  | UnicodeEncodeError
  | OSError
  | CalledProcessError (returncode : Z)
  | SystemExit (code : Z).

Inductive result (A : Type) : Type :=
  | Ok (a : A)
  | Raise (e : exn).
Arguments Ok {A} a.
Arguments Raise {A} e.

#[export] Instance result_ret : MRet result := @Ok.
#[export] Instance result_bind : MBind result := λ A B f r,
  match r with
  | Ok a => f a
  | Raise e => Raise e
  end.
#[export] Instance result_fmap : FMap result := λ A B f r,
  match r with
  | Ok a => Ok (f a)
  | Raise e => Raise e
  end.

(** ** [os.path.join], [shlex.quote], [shlex.split] and [str.format] *)

Definition startswith_sep (s : str) : bool :=
  match s with
  | c :: _ => c =? Ch.slash
  | [] => false
  end.

Definition endswith_sep (s : str) : bool := startswith_sep (reverse s).

(** [posixpath.join(a, b)]. *)
Definition path_join (a b : str) : str :=
  if startswith_sep b then b
  else if bool_decide (a = []) || endswith_sep a then a ++ b
  else a ++ Ch.slash :: b.

(** The characters [shlex.quote] leaves alone: the complement of the
    pattern [[^\w@%+=:,./-]] under [re.ASCII]. *)
Definition is_safe (c : char) : bool :=
  ((48 <=? c) && (c <=? 57)) || ((65 <=? c) && (c <=? 90))
  || ((97 <=? c) && (c <=? 122)) || (c =? 95) || char_in c (py "@%+=:,./-").

(** [s.replace(old, new)] for a one-character [old]. *)
Definition replace_char (old : char) (new : str) (s : str) : str :=
  mjoin ((λ c, if c =? old then new else [c]) <$> s).

(** [shlex.quote(s)].  The script passes it the result of [which], which
    may be [None]; [not s] holds for [None] as for the empty string. *)
Definition quote (s : option str) : str :=
  match s with
  | None | Some [] => [Ch.squote; Ch.squote]
  | Some s =>
      if forallb is_safe s then s
      else Ch.squote
           :: replace_char Ch.squote
                [Ch.squote; Ch.dquote; Ch.squote; Ch.dquote; Ch.squote] s
           ++ [Ch.squote]
  end.

Arguments quote : simpl never.

(** The lexer of [shlex.split(s)]: POSIX mode, [whitespace_split] on, no
    comment characters, no punctuation characters.  [self.state] is one
    of [' '], ['a'], a quote character or the escape character. *)
Inductive sh_state : Type :=
  | Sh_space
  | Sh_word
  | Sh_quote (q : char)
  | Sh_escape.

Definition sh_whitespace : str := [Ch.space; Ch.tab; Ch.cr; Ch.lf].
Definition sh_quotes : str := [Ch.squote; Ch.dquote].
Definition sh_escape : str := [Ch.backslash].
Definition sh_escapedquotes : str := [Ch.dquote].

Definition nonempty (s : str) : bool :=
  match s with
  | [] => false
  | _ => true
  end.

(** The end of one [read_token] call: the token is handed to [list(lex)],
    which stops at the first [None], the result of an unquoted empty
    token. *)
Definition emit (token : str) (quoted : bool) (more : result (list str))
  : result (list str) :=
  if quoted || nonempty token then cons token <$> more else Ok [].

(** The loop of [read_token], run over the whole input: after each emitted
    token the next call starts with an empty token, [quoted] false and
    [escapedstate] [' ']. *)
Fixpoint read_tokens (state escapedstate : sh_state) (quoted : bool)
    (token : str) (s : str) : result (list str) :=
  match s with
  | [] =>
      match state with
      | Sh_space | Sh_word => emit token quoted (Ok [])
      | Sh_quote _ => Raise ValueError
      | Sh_escape => Raise ValueError
      end
  | nextchar :: s' =>
      match state with
      | Sh_space =>
          if char_in nextchar sh_whitespace then
            if nonempty token || quoted
            then emit token quoted (read_tokens Sh_space Sh_space false [] s')
            else read_tokens Sh_space escapedstate quoted token s'
          else if char_in nextchar sh_escape then
            read_tokens Sh_escape Sh_word quoted token s'
          else if char_in nextchar sh_quotes then
            read_tokens (Sh_quote nextchar) escapedstate quoted token s'
          else read_tokens Sh_word escapedstate quoted [nextchar] s'
      | Sh_quote q =>
          if nextchar =? q then read_tokens Sh_word escapedstate true token s'
          else if char_in nextchar sh_escape && char_in q sh_escapedquotes
          then read_tokens Sh_escape (Sh_quote q) true token s'
          else read_tokens (Sh_quote q) escapedstate true (token ++ [nextchar]) s'
      | Sh_escape =>
          let token :=
            match escapedstate with
            | Sh_quote q =>
                if negb (nextchar =? Ch.backslash) && negb (nextchar =? q)
                then token ++ [Ch.backslash]
                else token
            | _ => token
            end in
          read_tokens escapedstate escapedstate quoted (token ++ [nextchar]) s'
      | Sh_word =>
          if char_in nextchar sh_whitespace then
            if nonempty token || quoted
            then emit token quoted (read_tokens Sh_space Sh_space false [] s')
            else read_tokens Sh_space escapedstate quoted token s'
          else if char_in nextchar sh_quotes then
            read_tokens (Sh_quote nextchar) escapedstate quoted token s'
          else if char_in nextchar sh_escape then
            read_tokens Sh_escape Sh_word quoted token s'
          else read_tokens Sh_word escapedstate quoted (token ++ [nextchar]) s'
      end
  end.

Definition shlex_split (s : str) : result (list str) :=
  read_tokens Sh_space Sh_space false [] s.

(** [template.format( *args, **kwargs)] for templates whose replacement
    fields are [{}] and [{name}], with [{{] and [}}] for literal braces.
    The arguments are given already rendered by [str()].  [field] is the
    name being read, when inside a replacement field. *)
Fixpoint format_from (field : option str) (args : list str)
    (kwargs : gmap (list N) (list N)) (template : str) : result str :=
  match template with
  | [] =>
      match field with
      | None => Ok []
      | Some _ => Raise ValueError
      end
  | c :: t =>
      match field with
      | Some name =>
          if c =? Ch.rbrace then
            match name with
            | [] =>
                match args with
                | a :: args' => app a <$> format_from None args' kwargs t
                | [] => Raise IndexError
                end
            | _ =>
                match kwargs !! name with
                | Some v => app v <$> format_from None args kwargs t
                | None => Raise KeyError
                end
            end
          else format_from (Some (name ++ [c])) args kwargs t
      | None =>
          if c =? Ch.lbrace then
            match t with
            | c' :: t' =>
                if c' =? Ch.lbrace
                then cons c <$> format_from None args kwargs t'
                else format_from (Some []) args kwargs t
            | [] => Raise ValueError
            end
          else if c =? Ch.rbrace then
            match t with
            | c' :: t' =>
                if c' =? Ch.rbrace
                then cons c <$> format_from None args kwargs t'
                else Raise ValueError
            | [] => Raise ValueError
            end
          else cons c <$> format_from None args kwargs t
      end
  end.

Definition format (template : str) (args : list str)
    (kwargs : gmap (list N) (list N)) : result str :=
  format_from None args kwargs template.

(** ** JSON values, the results of [json.loads] *)

Unset Elimination Schemes.
Inductive json : Type :=
  | JNull
  | JBool (b : bool)
  | JInt (n : Z)
  | JFloat (lexeme : list N)
  | JStr (s : list N)
  | JArr (items : list json)
  | JObj (members : gmap (list N) json).
Set Elimination Schemes.

(** [v[key]] for a string key: only a [dict] can be subscripted by one. *)
Definition getitem (v : json) (key : str) : result json :=
  match v with
  | JObj members =>
      match members !! key with
      | Some x => Ok x
      | None => Raise KeyError
      end
  | _ => Raise TypeError
  end.

(** [v == s] for a string [s]. *)
Definition eq_str (v : json) (s : str) : bool :=
  match v with
  | JStr t => bool_decide (t = s)
  | _ => false
  end.

(** ** The world outside the script *)

Inductive file_kind : Type :=
  | RegularFile (executable : bool)
  | Directory
  | Special.

(** [stat] is [os.stat] (which follows links), [None] when it raises;
    [spawns] tells whether starting a child with these arguments succeeds;
    [child] gives the exit status and the output of a child from its
    arguments and what it reads on its standard input. *)
Record world : Type := World {
  environ : gmap (list N) (list N);
  stat : list N → option file_kind;
  spawns : list (list N) → bool;
  child : list (list N) → list byte → Z * list byte;
}.

(** [os.path.exists(path)]. *)
Definition path_exists (w : world) (path : str) : bool :=
  bool_decide (is_Some (stat w path)).

Inductive event : Type :=
  | Exec (args : list (list N))
  | StdinWrite (data : list byte)
  | StdinClose
  | Stdout (text : list N)
  | Stderr (text : list N).

(** The state of the process: the world, the table of [functools.lru_cache]
    around [which] (most recently used entry first) and what the process
    has done so far. *)
Record state : Type := State {
  the_world : world;
  which_cache : list (list N * option (list N));
  trace : list event;
}.

Definition set_world (w : world) (st : state) : state :=
  State w (which_cache st) (trace st).
Definition set_cache (c : list (list N * option (list N))) (st : state) : state :=
  State (the_world st) c (trace st).
Definition initial (w : world) : state := State w [] [].

(** ** The monad of the script: state and exceptions *)

Definition M (A : Type) : Type := state → result A * state.

#[export] Instance M_ret : MRet M := λ A a st, (Ok a, st).
#[export] Instance M_bind : MBind M := λ A B f m st,
  match m st with
  | (Ok a, st') => f a st'
  | (Raise e, st') => (Raise e, st')
  end.

Definition raise {A} (e : exn) : M A := λ st, (Raise e, st).
Definition lift {A} (r : result A) : M A := λ st, (r, st).
Definition get_world : M world := λ st, (Ok (the_world st), st).
Definition log (e : event) : M unit :=
  λ st, (Ok (), State (the_world st) (which_cache st) (trace st ++ [e])).

(** [print(text, file=...)]: the text and a newline. *)
Definition print_stdout (text : str) : M unit := log (Stdout (text ++ [Ch.lf])).
Definition print_stderr (text : str) : M unit := log (Stderr (text ++ [Ch.lf])).

(** [bytes.decode()] and [str.encode()]. *)
Definition decode (b : bytes) : result str :=
  match utf8_decode b with
  | Some s => Ok s
  | None => Raise UnicodeDecodeError
  end.
Definition encode (s : str) : result bytes :=
  match utf8_encode s with
  | Some b => Ok b
  | None => Raise UnicodeEncodeError
  end.

(** [subprocess.check_output(args)]: the child is given nothing on its
    standard input. *)
Definition check_output (args : list str) : M bytes :=
  log (Exec args);;
  w ← get_world;
  if spawns w args then
    let '(returncode, output) := child w args [] in
    if (returncode =? 0)%Z then mret output
    else raise (CalledProcessError returncode)
  else raise OSError.

(** [subprocess.Popen(args, stdin=PIPE, stdout=PIPE)]. *)
Definition Popen (args : list str) : M unit :=
  log (Exec args);;
  w ← get_world;
  if spawns w args then mret () else raise OSError.

(** [process.stdin.writelines(lines)]. *)
Fixpoint writelines (lines : list bytes) : M unit :=
  match lines with
  | [] => mret ()
  | line :: rest => log (StdinWrite line);; writelines rest
  end.

(** [process.stdin.close(); process.wait(); process.stdout.read()] for the
    child started with [args] that was sent [input]. *)
Definition close_wait_read (args : list str) (input : bytes) : M bytes :=
  log StdinClose;;
  w ← get_world;
  mret (child w args input).2.

(** ** The script *)

(** [functools.lru_cache()] around a function of one string: [maxsize] is
    128, a hit moves the entry to the front, a miss on a full table drops
    the oldest entry; an exception stores nothing. *)
Definition maxsize : nat := 128.

Fixpoint cache_get (key : str) (c : list (list N * option (list N)))
  : option (option str) :=
  match c with
  | [] => None
  | (k, v) :: c' => if bool_decide (k = key) then Some v else cache_get key c'
  end.

Definition cache_remove (key : str) (c : list (list N * option (list N)))
  : list (list N * option (list N)) :=
  filter (λ kv, kv.1 ≠ key) c.

Definition lru_cache (user_function : str → M (option str)) (key : str)
  : M (option str) := λ st,
  match cache_get key (which_cache st) with
  | Some result =>
      (Ok result,
       set_cache ((key, result) :: cache_remove key (which_cache st)) st)
  | None =>
      match user_function key st with
      | (Ok result, st') =>
          let c := which_cache st' in
          (Ok result,
           set_cache ((key, result)
                      :: (if bool_decide (maxsize ≤ length c)%nat
                          then removelast c else c)) st')
      | (Raise e, st') => (Raise e, st')
      end
  end.

Definition GET_INSTANCES_SH : str :=
  py "sh -c '{aws} rds describe-db-instances | {jq} " ++ [Ch.dquote]
  ++ py ".DBInstances[].Endpoint" ++ [Ch.dquote] ++ py " -c'".

Definition GET_CREDENTIALS_COMMAND : str :=
  py "{aws} rds generate-db-auth-token --hostname {hostname} --port {port} --username {username} --region eu-central-1 ".

Definition FZF_COMMAND : str :=
  py "{fzf} --header 'Choose a server to get the credentials'".

(** The dictionary is only iterated, in insertion order. *)
Definition REQUIRED_COMMANDS : list (list N * list N) :=
  [ (py "aws", py "awscli is missing");
    (py "fzf", py "fzf is missing");
    (py "jq", py "jq is missing") ].

(** The loop of [which] over the directories of [PATH]. *)
Fixpoint search (w : world) (paths : list str) (command : str) : option str :=
  match paths with
  | [] => None
  | path :: paths' =>
      let full_path := path_join path command in
      if path_exists w full_path then Some full_path
      else search w paths' command
  end.

(** The function under the decorator. *)
Definition which_wrapped (command : str) : M (option str) :=
  w ← get_world;
  match environ w !! py "PATH" with
  | Some value => mret (search w (split Ch.colon value) command)
  | None => raise KeyError
  end.

Definition which : str → M (option str) := lru_cache which_wrapped.

(** Truth value of an [Optional[str]]. *)
Definition truthy (r : option str) : bool :=
  match r with
  | Some (_ :: _) => true
  | _ => false
  end.

(** The [for] loop of [ensure_commands]. *)
Fixpoint missing_loop (items : list (list N * list N))
    (missing_commands : list str) : M (list str) :=
  match items with
  | [] => mret missing_commands
  | (command, description) :: items' =>
      r ← which command;
      if negb (truthy r)
      then missing_loop items' (missing_commands ++ [description])
      else missing_loop items' missing_commands
  end.

Definition ensure_commands : M unit :=
  missing_commands ← missing_loop REQUIRED_COMMANDS [];
  match missing_commands with
  | _ :: _ =>
      message ← lift (format
        (py "You must install a set of commands for this script to work."
         ++ Ch.lf :: py "{}")
        [join [Ch.lf] missing_commands] ∅);
      print_stderr message;;
      raise (SystemExit 1)
  | [] => mret ()
  end.

(** The dictionary comprehension: a later command of the same name
    replaces an earlier one. *)
Definition get_commands_paths (commands : list str) : M (gmap (list N) (list N)) :=
  items ← mapM (λ command, r ← which command; mret (command, quote r)) commands;
  mret (list_to_map (reverse items)).

Section Script.

(** [json.loads] on one line, [None] when it raises. *)
Variable json_loads : list N → option json.

(** [str()] of the values whose text is not modelled here: floats,
    lists and dictionaries. *)
Variable repr_other : json → list N.

(** [str(v)], the text that [str.format] inserts for [v]. *)
Definition py_str (v : json) : str :=
  match v with
  | JStr s => s
  | JInt n => str_of_int n
  | JNull => py "None"
  | JBool true => py "True"
  | JBool false => py "False"
  | _ => repr_other v
  end.

Definition loads (line : str) : result json :=
  match json_loads line with
  | Some v => Ok v
  | None => Raise JSONDecodeError
  end.

(** The generator, run to its end as [list(get_instances())] does. *)
Definition get_instances : M (list json) :=
  paths ← get_commands_paths [py "aws"; py "jq"];
  command ← lift (format GET_INSTANCES_SH [] paths);
  args ← lift (shlex_split command);
  output ← check_output args;
  text ← lift (decode output);
  lift (mapM loads (splitlines text)).

(** One element of the list given to [writelines]. *)
Definition address_line (instance : json) : result bytes :=
  address ← getitem instance (py "Address");
  line ← format (py "{}" ++ [Ch.lf]) [py_str address] ∅;
  encode line.

Definition choose_instances (instances : list json) : M str :=
  paths ← get_commands_paths [py "fzf"];
  command ← lift (format FZF_COMMAND [] paths);
  args ← lift (shlex_split command);
  Popen args;;
  lines ← lift (mapM address_line instances);
  writelines lines;;
  output ← close_wait_read args (mjoin lines);
  text ← lift (decode output);
  mret (strip text).

Definition print_credentials (instance : json) (username : str) : M unit :=
  hostname ← lift (getitem instance (py "Address"));
  port ← lift (getitem instance (py "Port"));
  paths ← get_commands_paths [py "aws"];
  command ← lift (format GET_CREDENTIALS_COMMAND []
    (<[py "hostname" := py_str hostname]>
       (<[py "port" := py_str port]>
          (<[py "username" := username]> paths))));
  args ← lift (shlex_split command);
  output ← check_output args;
  text ← lift (decode output);
  print_stdout text.

(** The list comprehension of [main]. *)
Fixpoint matching (instances : list json) (instance_name : str)
  : result (list json) :=
  match instances with
  | [] => Ok []
  | instance :: instances' =>
      address ← getitem instance (py "Address");
      rest ← matching instances' instance_name;
      Ok (if eq_str address instance_name then instance :: rest else rest)
  end.

(** [instance, *_ = values]. *)
Definition unpack_first (values : list json) : result json :=
  match values with
  | instance :: _ => Ok instance
  | [] => Raise ValueError
  end.

Definition lookup_instance (instances : list json) (instance_name : str)
  : result json :=
  values ← matching instances instance_name;
  unpack_first values.

Definition main (username : str) : M unit :=
  ensure_commands;;
  instances ← get_instances;
  instance_name ← choose_instances instances;
  instance ← lift (lookup_instance instances instance_name);
  print_credentials instance username.

(** The [__main__] block, from [sys.argv]. *)
Definition script (argv : list str) : M unit :=
  match argv with
  | _ :: username :: _ => main username
  | [argv0] =>
      message ← lift (format (py "You must specify a username e.g.: {} username")
                        [argv0] ∅);
      print_stderr message;;
      raise (SystemExit 1)
  | [] => raise IndexError
  end.

End Script.

(** The exit status of the interpreter for an outcome of the script. *)
Definition exit_status (r : result unit) : Z :=
  match r with
  | Ok _ => 0
  | Raise (SystemExit code) => code
  | Raise _ => 1
  end.

(** What a trace wrote to each stream, and the children it started. *)
Definition stdout_of (t : list event) : str :=
  mjoin (omap (λ e, match e with Stdout s => Some s | _ => None end) t).
Definition stderr_of (t : list event) : str :=
  mjoin (omap (λ e, match e with Stderr s => Some s | _ => None end) t).
Definition stdin_of (t : list event) : bytes :=
  mjoin (omap (λ e, match e with StdinWrite b => Some b | _ => None end) t).
Definition execs_of (t : list event) : list (list str) :=
  omap (λ e, match e with Exec a => Some a | _ => None end) t.

(** * Specification vocabulary *)

Definition all_space (s : str) : Prop := Forall (λ c, isspace c = true) s.

(** No white space at either end. *)
Definition trimmed (s : str) : Prop :=
  (∀ c, head s = Some c → isspace c = false)
  ∧ (∀ c, last s = Some c → isspace c = false).

Definition no_linebreak (s : str) : Prop := Forall (λ c, is_linebreak c = false) s.

(** What the search along [PATH = value] finds for a command name. *)
Definition resolve (w : world) (value command : str) : option str :=
  search w (split Ch.colon value) command.

(** The descriptions of the required commands that are not found, in the
    order of [REQUIRED_COMMANDS]. *)
Definition missing_descriptions (w : world) (value : str) : list str :=
  snd <$> filter (λ item, truthy (resolve w value item.1) = false) REQUIRED_COMMANDS.

(** The table after the three lookups of the preflight check. *)
Definition preflight_cache (w : world) (value : str)
  : list (list N * option (list N)) :=
  [ (py "jq", resolve w value (py "jq"));
    (py "fzf", resolve w value (py "fzf"));
    (py "aws", resolve w value (py "aws")) ].

Definition required_names : list str := fst <$> REQUIRED_COMMANDS.

(** The state in which the preflight check leaves a fresh process. *)
Definition preflight_state (w : world) (value : str) : state :=
  State w (preflight_cache w value) [].

Definition missing_message (missing : list str) : str :=
  py "You must install a set of commands for this script to work."
  ++ Ch.lf :: join [Ch.lf] missing ++ [Ch.lf].

(** [dir] is the first directory of [dirs] with an entry named [command],
    of kind [kind]. *)
Definition first_entry (w : world) (dirs : list str) (command dir : str)
    (kind : file_kind) : Prop :=
  ∃ before after,
    dirs = before ++ dir :: after
    ∧ Forall (λ d, stat w (path_join d command) = None) before
    ∧ stat w (path_join dir command) = Some kind.

(** A character that the lexer of [shlex.split] takes as is: no white
    space of the lexer (space, tab, carriage return, newline), no quote,
    no backslash. *)
Definition is_plain_char (c : char) : bool :=
  negb (char_in c sh_whitespace) && negb (char_in c sh_quotes)
  && negb (char_in c sh_escape).

(** A word: not empty and made of such characters. *)
Definition plain (s : str) : bool := nonempty s && forallb is_plain_char s.

(** Two states with the same world, the same trace and the same answers
    from the memo table (its order may differ). *)
Definition same_lookups (st st' : state) : Prop :=
  the_world st' = the_world st
  ∧ trace st' = trace st
  ∧ ∀ key, cache_get key (which_cache st') = cache_get key (which_cache st).

(** The table holds a path for the command: [which] has found it. *)
Definition resolved (st : state) (command path : str) : Prop :=
  cache_get command (which_cache st) = Some (Some path) ∧ path ≠ [].

(** The state after more events. *)
Definition add_trace (st : state) (events : list event) : state :=
  State (the_world st) (which_cache st) (trace st ++ events).

(** The argument vector of the picker, for [fzf] found at [path]. *)
Definition fzf_args (path : str) : list str :=
  [path; py "--header"; py "Choose a server to get the credentials"].

(** The events of the selection step once the picker has started. *)
Definition picker_events (args : list str) (lines : list bytes) : list event :=
  Exec args :: (StdinWrite <$> lines) ++ [StdinClose].

(** The argument vector of the token command: [aws] found at [path], and
    the words that stand where the user name was written. *)
Definition credentials_args (path hostname port : str) (username : list str)
  : list str :=
  [path; py "rds"; py "generate-db-auth-token"; py "--hostname"; hostname;
   py "--port"; port; py "--username"]
  ++ username ++ [py "--region"; py "eu-central-1"].

(** The keyword arguments of the token command. *)
Definition credentials_kwargs (path hostname port username : str)
  : gmap (list N) (list N) :=
  <[py "hostname" := hostname]>
    (<[py "port" := port]>
       (<[py "username" := username]> {[ py "aws" := quote (Some path) ]})).

(** The literal parts of [GET_CREDENTIALS_COMMAND], word by word. *)
Definition lit_hostname : str :=
  Ch.space :: py "rds" ++ Ch.space :: py "generate-db-auth-token"
  ++ Ch.space :: py "--hostname" ++ [Ch.space].
Definition lit_port : str := Ch.space :: py "--port" ++ [Ch.space].
Definition lit_username : str := Ch.space :: py "--username" ++ [Ch.space].
Definition lit_region : str :=
  Ch.space :: py "--region" ++ Ch.space :: py "eu-central-1" ++ [Ch.space].

(** The token command as one string, before it is split into arguments. *)
Definition credentials_line (path hostname port username : str) : str :=
  quote (Some path) ++ lit_hostname ++ hostname ++ lit_port ++ port
  ++ lit_username ++ username ++ lit_region.

(** The discovery command as one string, for [aws] and [jq] found at the
    given paths. *)
Definition instances_line (aws jq : str) : str :=
  py "sh -c '" ++ quote (Some aws) ++ py " rds describe-db-instances | "
  ++ quote (Some jq) ++ Ch.space :: Ch.dquote :: py ".DBInstances[].Endpoint"
  ++ Ch.dquote :: py " -c'".

(** The record's [Address] is the string [name]. *)
Definition has_address (name : str) (record : json) : Prop :=
  getitem record (py "Address") = Ok (JStr name).

(** [record] is the first record of [records] whose [Address] is [name]. *)
Definition first_match (name : str) (records : list json) (record : json) : Prop :=
  ∃ before after,
    records = before ++ record :: after
    ∧ Forall (λ r, ¬ has_address name r) before
    ∧ has_address name record.

(** The [Address] of the record is the value [address], and UTF-8 encodes
    its text as [encoded]. *)
Definition address_encodes (repr_other : json → list N) (record : json)
    (encoded : bytes) : Prop :=
  ∃ address,
    getitem record (py "Address") = Ok address
    ∧ utf8_encode (py_str repr_other address) = Some encoded.

Definition newline_byte : byte := byte_of 10.

(** * A sample world: three tools on the path, two endpoints *)

Definition json_string (s : str) : str := Ch.dquote :: s ++ [Ch.dquote].

(** One compact JSON object as [jq -c] prints an endpoint. *)
Definition endpoint_line (address port : str) : str :=
  py "{" ++ json_string (py "Address") ++ py ":" ++ json_string address
  ++ py "," ++ json_string (py "Port") ++ py ":" ++ port ++ py "}".

Definition endpoint (address : str) (port : Z) : json :=
  JObj {[ py "Address" := JStr address; py "Port" := JInt port ]}.

Definition demo_line1 : str := endpoint_line (py "db1.example.com") (py "5432").
Definition demo_line2 : str := endpoint_line (py "db2.example.com") (py "5432").

(** A JSON object with a carriage return, which is JSON white space,
    between its two members. *)
Definition demo_line_cr : str :=
  py "{" ++ json_string (py "Address") ++ py ":" ++ json_string (py "a")
  ++ py "," ++ Ch.cr :: json_string (py "Port") ++ py ":1}".

(** [json.loads] on the four JSON texts used below; no other string that
    appears below is a JSON text. *)
Definition demo_loads (line : list N) : option json :=
  if bool_decide (line = demo_line1) then Some (endpoint (py "db1.example.com") 5432)
  else if bool_decide (line = demo_line2) then Some (endpoint (py "db2.example.com") 5432)
  else if bool_decide (line = demo_line_cr) then Some (endpoint (py "a") 1)
  else if bool_decide (line = py "{}") then Some (JObj ∅)
  else None.

Definition demo_repr (v : json) : list N := [].

Definition utf8 (s : str) : bytes := default [] (utf8_encode s).

Definition demo_files : list str :=
  [py "/usr/bin/aws"; py "/usr/bin/jq"; py "/usr/local/bin/fzf"].

(** The three children print fixed outputs: [sh] the discovery output,
    [fzf] the selection, [aws] the token. *)
Definition demo_world (discovery picker token : bytes) : world :=
  {| environ := {[ py "PATH" := py "/usr/local/bin:/usr/bin" ]};
     stat := λ path,
       if bool_decide (path ∈ demo_files) then Some (RegularFile true) else None;
     spawns := λ _, true;
     child := λ args _,
       match args with
       | program :: _ =>
           if bool_decide (program = py "sh") then (0%Z, discovery)
           else if bool_decide (program = py "/usr/local/bin/fzf") then (0%Z, picker)
           else (0%Z, token)
       | [] => (1%Z, [])
       end |}.

(** The scenario: two endpoints, the operator picks the second. *)
Definition demo : world :=
  demo_world (utf8 (demo_line1 ++ Ch.lf :: demo_line2 ++ [Ch.lf]))
             (utf8 (py "db2.example.com" ++ [Ch.lf]))
             (utf8 (py "TOKEN")).

Definition demo_instances : list json :=
  [endpoint (py "db1.example.com") 5432; endpoint (py "db2.example.com") 5432].

(** The state of the sample process after the preflight check. *)
Definition demo_ready (w : world) : state :=
  preflight_state w (py "/usr/local/bin:/usr/bin").

(** The same tools where each name is a directory. *)
Definition demo_directories : world :=
  {| environ := {[ py "PATH" := py "/usr/local/bin:/usr/bin" ]};
     stat := λ path,
       if bool_decide (path ∈ demo_files) then Some Directory else None;
     spawns := λ _, false;
     child := λ _ _, (1%Z, []) |}.

(** No tool anywhere, and no [PATH] at all. *)
Definition demo_empty : world :=
  {| environ := {[ py "PATH" := py "/usr/local/bin:/usr/bin" ]};
     stat := λ _, None;
     spawns := λ _, false;
     child := λ _ _, (1%Z, []) |}.

Definition demo_no_path : world :=
  {| environ := ∅;
     stat := λ _, None;
     spawns := λ _, false;
     child := λ _ _, (1%Z, []) |}.

(** A picker that prints a line with a leading space. *)
Definition demo_leading_space : world :=
  demo_world [] (utf8 (py " db1" ++ [Ch.lf])) [].

(** A token command that prints one byte that is not UTF-8. *)
Definition demo_bad_token : world := demo_world [] [] [Byte.xff].

(** Discovery prints one JSON object with a carriage return inside. *)
Definition demo_cr : world :=
  demo_world (utf8 (demo_line_cr ++ [Ch.lf])) [] [].

(** Discovery prints one JSON object without an [Address]. *)
Definition demo_no_address : world := demo_world (utf8 (py "{}" ++ [Ch.lf])) [] [].

Definition demo_path : str := py "/usr/local/bin:/usr/bin".
Definition demo_aws : str := py "/usr/bin/aws".
Definition demo_jq : str := py "/usr/bin/jq".
Definition demo_fzf : str := py "/usr/local/bin/fzf".
Definition demo_db1 : json := endpoint (py "db1.example.com") 5432.
Definition demo_db2 : json := endpoint (py "db2.example.com") 5432.

(** The sample process after discovery, and after the selection. *)
Definition demo_discovered : state :=
  (get_instances demo_loads (demo_ready demo)).2.
Definition demo_selected : state :=
  (choose_instances demo_repr demo_instances demo_discovered).2.

(** The arguments of the discovery command in the sample world. *)
Definition demo_discovery_args : list str :=
  [py "sh"; py "-c";
   py "/usr/bin/aws rds describe-db-instances | /usr/bin/jq "
   ++ Ch.dquote :: py ".DBInstances[].Endpoint" ++ Ch.dquote :: py " -c"].

(** Where each required tool is in the sample worlds. *)
Definition demo_entry (command : list N) : list N :=
  if bool_decide (command = py "fzf") then py "/usr/local/bin" else py "/usr/bin".

(** What the selection step sends the picker for the two endpoints. *)
Definition demo_sent : list bytes :=
  [utf8 (py "db1.example.com" ++ [Ch.lf]); utf8 (py "db2.example.com" ++ [Ch.lf])].

(** The arguments of the token command in the sample world. *)
Definition demo_token_args (username : list str) : list str :=
  credentials_args demo_aws (py "db2.example.com") (py "5432") username.

(** ** Lookups in between *)

(** The state after a series of further calls of [which], each for some
    name: before every call the script may have logged events, and the
    environment and the file system may have changed. *)
Fixpoint lookups (calls : list (world * list event * str)) (st : state)
  : state :=
  match calls with
  | [] => st
  | (w, events, name) :: calls' =>
      lookups calls' (which name (set_world w (add_trace st events))).2
  end.

(** The memo table holds [r] for [command], with at most [n] entries
    used more recently. *)
Definition held_within (n : nat) (command : str) (r : option str)
    (c : list (str * option str)) : Prop :=
  ∃ before after,
    c = before ++ (command, r) :: after
    ∧ Forall (λ kv, kv.1 ≠ command) before
    ∧ (length before ≤ n)%nat.

(** Lookups and events between two lookups of [jq] in the sample world:
    [aws] is looked up, a child is started, the tools disappear and
    [fzf] is looked up, then [aws] again. *)
Definition demo_between : list (world * list event * str) :=
  [(demo, [], py "aws");
   (demo_empty, [Exec demo_discovery_args], py "fzf");
   (demo, [], py "aws")].

(** * Vocabulary for the further properties *)

(** No directory of [dirs] has an entry named [command]. *)
Definition nowhere (w : world) (dirs : list str) (command : str) : Prop :=
  Forall (λ dir, stat w (path_join dir command) = None) dirs.

(** The usage message of the [__main__] block. *)
Definition usage_message (argv0 : str) : str :=
  py "You must specify a username e.g.: " ++ argv0 ++ py " username" ++ [Ch.lf].

(** What the memo table of [which] holds for [command], if anything. *)
Definition cached (st : state) (command : str) : option str :=
  default None (cache_get command (which_cache st)).

(** The shell script that discovery hands to [sh -c] when neither path
    needs quoting. *)
Definition discovery_script (aws jq : str) : str :=
  aws ++ py " rds describe-db-instances | " ++ jq
  ++ Ch.space :: Ch.dquote :: py ".DBInstances[].Endpoint"
  ++ Ch.dquote :: py " -c".

Definition no_squote (s : str) : bool :=
  forallb (λ c, negb (c =? Ch.squote)%N) s.

(** Events that start no child and print nothing. *)
Definition silent (events : list event) : Prop :=
  execs_of events = [] ∧ stdout_of events = [] ∧ stderr_of events = [].


(** A step from [st] to [st'] that prints nothing, starts at most one
    child, exactly one when [ok], and keeps what the memo table holds. *)
Definition quiet_step (st st' : state) (ok : bool) : Prop :=
  stdout_of (trace st') = stdout_of (trace st)
  ∧ stderr_of (trace st') = stderr_of (trace st)
  ∧ (length (execs_of (trace st')) ≤ S (length (execs_of (trace st))))%nat
  ∧ (ok = true →
     length (execs_of (trace st')) = S (length (execs_of (trace st))))
  ∧ ∀ command path, resolved st command path → resolved st' command path.

Definition is_ok {A} (r : result A) : bool :=
  match r with Ok _ => true | Raise _ => false end.

(** A record whose [Address] is there but is not a JSON string. *)
Definition address_not_text (record : json) : Prop :=
  ∃ v, getitem record (py "Address") = Ok v ∧ ∀ s, v ≠ JStr s.

(** ** Further sample worlds *)

(** The sample world without [jq]. *)
Definition demo_no_jq : world :=
  {| environ := {[ py "PATH" := py "/usr/local/bin:/usr/bin" ]};
     stat := λ path,
       if bool_decide (path ∈ [py "/usr/bin/aws"; py "/usr/local/bin/fzf"])
       then Some (RegularFile true) else None;
     spawns := λ _, false;
     child := λ _ _, (1%Z, []) |}.

(** [aws] lives in a directory whose name has a space. *)
Definition demo_spaced_path : str := py "/opt/my tools:/usr/local/bin:/usr/bin".

Definition demo_spaced : world :=
  {| environ := {[ py "PATH" := demo_spaced_path ]};
     stat := λ path,
       if bool_decide (path ∈ [py "/opt/my tools/aws"; py "/usr/bin/jq";
                               py "/usr/local/bin/fzf"])
       then Some (RegularFile true) else None;
     spawns := λ _, true;
     child := λ _ _, (127%Z, []) |}.

(** [PATH] starts with an empty entry, and [aws] is in the current
    directory. *)
Definition demo_cwd : world :=
  {| environ := {[ py "PATH" := py ":/usr/bin" ]};
     stat := λ path,
       if bool_decide (path = py "aws") then Some (RegularFile true) else None;
     spawns := λ _, false;
     child := λ _ _, (1%Z, []) |}.



(** A record whose [Address] is a number, and a picker that answers with
    its text. *)
Definition demo_numbered : json :=
  JObj (<[py "Address" := JInt 5]> {[ py "Port" := JInt 1 ]}).

Definition demo_five : world := demo_world [] (utf8 (py "5" ++ [Ch.lf])) [].

Definition demo_spaced_ready : state :=
  preflight_state demo_spaced demo_spaced_path.

(** * Properties *)

(** ** Strings *)

Lemma lstrip_split (s : str) :
  ∃ leading, s = leading ++ lstrip s ∧ all_space leading
             ∧ ∀ c, head (lstrip s) = Some c → isspace c = false.
Proof.
  induction s as [|c s (leading & Hs & Hl & Hh)]; simpl.
  - exists []. split_and!; [done | constructor | done].
  - destruct (isspace c) eqn:Hc.
    + exists (c :: leading). split_and!; [by rewrite /= -Hs | by constructor | done].
    + exists []. split_and!; [done | constructor |].
      simpl. by intros ? [= <-].
Qed.

Lemma lstrip_suffix_last (s : str) c :
  last (lstrip s) = Some c → last s = Some c.
Proof.
  destruct (lstrip_split s) as (leading & Hs & _ & _).
  intros Hlast. rewrite Hs. rewrite last_app. by rewrite Hlast.
Qed.

Lemma strip_split (s : str) :
  ∃ leading trailing,
    s = leading ++ strip s ++ trailing
    ∧ all_space leading ∧ all_space trailing ∧ trimmed (strip s).
Proof.
  unfold strip, rstrip.
  destruct (lstrip_split (reverse s)) as (tr & Hs & Htr & Hh).
  set (r := lstrip (reverse s)) in *.
  destruct (lstrip_split (reverse r)) as (le & Hr & Hle & Hh').
  exists le, (reverse tr). split_and!.
  - rewrite -(reverse_involutive s) Hs reverse_app. by rewrite app_assoc -Hr.
  - done.
  - by apply Forall_reverse.
  - split; [done|].
    intros c Hc. apply lstrip_suffix_last in Hc.
    rewrite last_reverse in Hc. by apply Hh.
Qed.

Lemma lstrip_all_space (s : str) : all_space s → lstrip s = [].
Proof. induction 1 as [|c s Hc _ IH]; simpl; [done | by rewrite Hc]. Qed.

Lemma strip_all_space (s : str) : all_space s → strip s = [].
Proof.
  intros Hs. unfold strip, rstrip.
  rewrite (lstrip_all_space (reverse s)); [done | by apply Forall_reverse].
Qed.

Lemma split_not_nil (sep : char) (s : str) : split sep s ≠ [].
Proof. destruct s as [|c s]; simpl; [done|]. by repeat case_match. Qed.



Lemma splitlines_from_line (cur line rest : str) :
  no_linebreak line →
  splitlines_from cur (line ++ Ch.lf :: rest)
  = (cur ++ line) :: splitlines_from [] rest.
Proof.
  intros Hline. revert cur.
  induction Hline as [|c line Hc _ IH]; intros cur; simpl.
  - rewrite app_nil_r. by destruct rest.
  - rewrite Hc IH. by rewrite -app_assoc.
Qed.

(** Lines that end in a newline and hold no other line boundary are the
    lines [splitlines] returns. *)
Lemma splitlines_terminated (lines : list str) :
  Forall no_linebreak lines →
  splitlines (mjoin ((λ line, line ++ [Ch.lf]) <$> lines)) = lines.
Proof.
  unfold splitlines.
  induction 1 as [|line lines Hline _ IH]; simpl; [done|].
  rewrite -app_assoc /= splitlines_from_line; [|done]. by rewrite IH.
Qed.

(** ** UTF-8 *)

Lemma byte_of_to_N (b : byte) : byte_of (Byte.to_N b) = b.
Proof. unfold byte_of. by rewrite Byte.of_to_N. Qed.

Lemma div_mod_unique (a b q r : N) :
  r < b → a = b * q + r → a / b = q ∧ a mod b = r.
Proof.
  intros Hr Ha. split.
  - symmetry. by apply (N.div_unique a b q r).
  - symmetry. by apply (N.mod_unique a b q r).
Qed.

Lemma utf8_encode_cons (c : char) (s : str) (b bs : bytes) :
  utf8_encode_char c = Some b → utf8_encode s = Some bs →
  utf8_encode (c :: s) = Some (b ++ bs).
Proof. intros Hc Hs. simpl. by rewrite Hc Hs. Qed.

Lemma utf8_encode_app (s t : str) (bs bt : bytes) :
  utf8_encode s = Some bs → utf8_encode t = Some bt →
  utf8_encode (s ++ t) = Some (bs ++ bt).
Proof.
  revert bs. induction s as [|c s IH]; intros bs; simpl.
  - by intros [= <-].
  - destruct (utf8_encode_char c) as [b|]; [|done].
    destruct (utf8_encode s) as [bs'|]; [|done].
    intros [= <-] Ht. rewrite (IH bs' eq_refl Ht). by rewrite app_assoc.
Qed.

Lemma encode_two (x0 x1 : N) :
  194 ≤ x0 → x0 ≤ 223 → 128 ≤ x1 → x1 ≤ 191 →
  utf8_encode_char ((x0 - 192) * 64 + (x1 - 128)) = Some [byte_of x0; byte_of x1].
Proof.
  intros. set (c := (x0 - 192) * 64 + (x1 - 128)).
  destruct (div_mod_unique c 64 (x0 - 192) (x1 - 128)) as [Hq Hr]; [lia..|].
  unfold utf8_encode_char.
  rewrite (proj2 (N.ltb_ge c 128)); [|lia].
  rewrite (proj2 (N.ltb_lt c 2048)); [|lia].
  rewrite Hq Hr. repeat f_equal; lia.
Qed.

Lemma encode_three (x0 x1 x2 : N) :
  224 ≤ x0 → x0 ≤ 239 → 128 ≤ x1 → x1 ≤ 191 → 128 ≤ x2 → x2 ≤ 191 →
  (x0 = 224 → 160 ≤ x1) → (x0 = 237 → x1 ≤ 159) →
  utf8_encode_char ((x0 - 224) * 4096 + (x1 - 128) * 64 + (x2 - 128))
  = Some [byte_of x0; byte_of x1; byte_of x2].
Proof.
  intros. set (c := (x0 - 224) * 4096 + (x1 - 128) * 64 + (x2 - 128)).
  destruct (div_mod_unique c 64 ((x0 - 224) * 64 + (x1 - 128)) (x2 - 128))
    as [Hq Hr]; [lia..|].
  destruct (div_mod_unique (c / 64) 64 (x0 - 224) (x1 - 128)) as [Hq' Hr'];
    [lia..|].
  assert (Hq'' : c / 4096 = x0 - 224).
  { change 4096 with (64 * 64). by rewrite -N.Div0.div_div Hq'. }
  unfold utf8_encode_char.
  rewrite (proj2 (N.ltb_ge c 128)); [|lia].
  rewrite (proj2 (N.ltb_ge c 2048)); [|lia].
  assert (Hsur : (55296 <=? c) && (c <=? 57343) = false).
  { apply andb_false_iff.
    destruct (N.leb_spec 55296 c); [|by left].
    right. apply N.leb_gt. lia. }
  rewrite Hsur (proj2 (N.ltb_lt c 65536)); [|lia].
  rewrite Hq'' Hr' Hr. repeat f_equal; lia.
Qed.

Lemma encode_four (x0 x1 x2 x3 : N) :
  240 ≤ x0 → x0 ≤ 244 → 128 ≤ x1 → x1 ≤ 191 → 128 ≤ x2 → x2 ≤ 191 →
  128 ≤ x3 → x3 ≤ 191 →
  (x0 = 240 → 144 ≤ x1) → (x0 = 244 → x1 ≤ 143) →
  utf8_encode_char ((x0 - 240) * 262144 + (x1 - 128) * 4096 + (x2 - 128) * 64
                    + (x3 - 128))
  = Some [byte_of x0; byte_of x1; byte_of x2; byte_of x3].
Proof.
  intros.
  set (c := (x0 - 240) * 262144 + (x1 - 128) * 4096 + (x2 - 128) * 64 + (x3 - 128)).
  destruct (div_mod_unique c 64
              ((x0 - 240) * 4096 + (x1 - 128) * 64 + (x2 - 128)) (x3 - 128))
    as [Hq Hr]; [lia..|].
  destruct (div_mod_unique (c / 64) 64 ((x0 - 240) * 64 + (x1 - 128)) (x2 - 128))
    as [Hq' Hr']; [lia..|].
  destruct (div_mod_unique (c / 64 / 64) 64 (x0 - 240) (x1 - 128))
    as [Hq'' Hr'']; [lia..|].
  assert (H4096 : c / 4096 = c / 64 / 64).
  { change 4096 with (64 * 64). by rewrite -N.Div0.div_div. }
  assert (H262144 : c / 262144 = c / 64 / 64 / 64).
  { change 262144 with (64 * 64 * 64). by rewrite -!N.Div0.div_div. }
  unfold utf8_encode_char.
  rewrite (proj2 (N.ltb_ge c 128)); [|lia].
  rewrite (proj2 (N.ltb_ge c 2048)); [|lia].
  assert (Hsur : (55296 <=? c) && (c <=? 57343) = false).
  { apply andb_false_iff. right. apply N.leb_gt. lia. }
  rewrite Hsur (proj2 (N.ltb_ge c 65536)); [|lia].
  rewrite (proj2 (N.ltb_lt c 1114112)); [|lia].
  rewrite H262144 H4096 Hq'' Hr'' Hr' Hr. repeat f_equal; lia.
Qed.

Lemma utf8_decode_cons (b0 : byte) (r0 : bytes) :
  utf8_decode (b0 :: r0)
  = let x0 := Byte.to_N b0 in
    if x0 <? 128 then cons x0 <$> utf8_decode r0
    else match r0 with
    | [] => None
    | b1 :: r1 =>
        let x1 := Byte.to_N b1 in
        if (194 <=? x0) && (x0 <=? 223) then
          if continuation x1
          then cons ((x0 - 192) * 64 + (x1 - 128)) <$> utf8_decode r1
          else None
        else match r1 with
        | [] => None
        | b2 :: r2 =>
            let x2 := Byte.to_N b2 in
            if (224 <=? x0) && (x0 <=? 239) then
              if continuation x1 && continuation x2
                 && negb ((x0 =? 224) && (x1 <? 160))
                 && negb ((x0 =? 237) && (159 <? x1))
              then cons ((x0 - 224) * 4096 + (x1 - 128) * 64 + (x2 - 128))
                     <$> utf8_decode r2
              else None
            else match r2 with
            | [] => None
            | b3 :: r3 =>
                let x3 := Byte.to_N b3 in
                if (240 <=? x0) && (x0 <=? 244) then
                  if continuation x1 && continuation x2 && continuation x3
                     && negb ((x0 =? 240) && (x1 <? 144))
                     && negb ((x0 =? 244) && (143 <? x1))
                  then cons ((x0 - 240) * 262144 + (x1 - 128) * 4096
                             + (x2 - 128) * 64 + (x3 - 128))
                         <$> utf8_decode r3
                  else None
                else None
            end
        end
    end.
Proof. reflexivity. Qed.

Lemma continuation_range (x : N) : continuation x = true → 128 ≤ x ∧ x ≤ 191.
Proof.
  unfold continuation. intros Hx. apply andb_prop in Hx as [Hlo Hhi].
  apply N.leb_le in Hlo. apply N.leb_le in Hhi. lia.
Qed.

Lemma range_true (lo hi x : N) : (lo <=? x) && (x <=? hi) = true → lo ≤ x ∧ x ≤ hi.
Proof.
  intros Hx. apply andb_prop in Hx as [Hlo Hhi].
  apply N.leb_le in Hlo. apply N.leb_le in Hhi. lia.
Qed.

Lemma excluded_low (a lim x0 x1 : N) :
  negb ((x0 =? a) && (x1 <? lim)) = true → x0 = a → lim ≤ x1.
Proof.
  intros H ->. rewrite N.eqb_refl /= in H. apply negb_true_iff in H.
  by apply N.ltb_ge.
Qed.

Lemma excluded_high (a lim x0 x1 : N) :
  negb ((x0 =? a) && (lim <? x1)) = true → x0 = a → x1 ≤ lim.
Proof.
  intros H ->. rewrite N.eqb_refl /= in H. apply negb_true_iff in H.
  by apply N.ltb_ge.
Qed.

Lemma utf8_roundtrip_fuel (k : nat) (bs : bytes) (s : str) :
  (length bs ≤ k)%nat → utf8_decode bs = Some s → utf8_encode s = Some bs.
Proof.
  revert bs s. induction k as [|k IH]; intros bs s Hlen.
  { destruct bs; [|simpl in Hlen; lia]. by intros [= <-]. }
  destruct bs as [|b0 r0]; [by intros [= <-]|].
  rewrite utf8_decode_cons. cbv zeta. simpl in Hlen.
  destruct (Byte.to_N b0 <? 128) eqn:H1.
  { destruct (utf8_decode r0) as [s'|] eqn:Hd; [|done]. intros [= <-].
    apply (utf8_encode_cons _ _ [b0]); [|apply IH; [lia|done]].
    unfold utf8_encode_char. by rewrite H1 byte_of_to_N. }
  destruct r0 as [|b1 r1]; [done|]. simpl in Hlen.
  destruct ((194 <=? Byte.to_N b0) && (Byte.to_N b0 <=? 223)) eqn:H2.
  { destruct (continuation (Byte.to_N b1)) eqn:Hc1; [|done].
    destruct (utf8_decode r1) as [s'|] eqn:Hd; [|done]. intros [= <-].
    apply (utf8_encode_cons _ _ [b0; b1]); [|apply IH; [lia|done]].
    apply range_true in H2. apply continuation_range in Hc1.
    rewrite encode_two; [|lia..]. by rewrite !byte_of_to_N. }
  destruct r1 as [|b2 r2]; [done|]. simpl in Hlen.
  destruct ((224 <=? Byte.to_N b0) && (Byte.to_N b0 <=? 239)) eqn:H3.
  { match goal with |- (if ?c then _ else _) = _ → _ => destruct c eqn:Hc end; [|done].
    apply andb_prop in Hc as [[[Hc1 Hc2]%andb_prop Hlo]%andb_prop Hhi].
    destruct (utf8_decode r2) as [s'|] eqn:Hd; [|done]. intros [= <-].
    apply (utf8_encode_cons _ _ [b0; b1; b2]); [|apply IH; [lia|done]].
    apply range_true in H3. apply continuation_range in Hc1, Hc2.
    rewrite encode_three;
      [|lia..|by eapply excluded_low|by eapply excluded_high].
    by rewrite !byte_of_to_N. }
  destruct r2 as [|b3 r3]; [done|]. simpl in Hlen.
  destruct ((240 <=? Byte.to_N b0) && (Byte.to_N b0 <=? 244)) eqn:H4; [|done].
  match goal with |- (if ?c then _ else _) = _ → _ => destruct c eqn:Hc end; [|done].
  apply andb_prop in Hc
    as [[[[Hc1 Hc2]%andb_prop Hc3]%andb_prop Hlo]%andb_prop Hhi].
  destruct (utf8_decode r3) as [s'|] eqn:Hd; [|done]. intros [= <-].
  apply (utf8_encode_cons _ _ [b0; b1; b2; b3]); [|apply IH; [lia|done]].
  apply range_true in H4. apply continuation_range in Hc1, Hc2, Hc3.
  rewrite encode_four;
    [|lia..|by eapply excluded_low|by eapply excluded_high].
  by rewrite !byte_of_to_N.
Qed.

(** Encoding what [bytes.decode()] returned gives the bytes back. *)
Lemma utf8_roundtrip (bs : bytes) (s : str) :
  utf8_decode bs = Some s → utf8_encode s = Some bs.
Proof. by apply (utf8_roundtrip_fuel (length bs)). Qed.

(** ** The monad *)

Lemma bind_run {A B} (m : M A) (f : A → M B) (st : state) :
  (m ≫= f) st
  = match m st with
    | (Ok a, st') => f a st'
    | (Raise e, st') => (Raise e, st')
    end.
Proof. reflexivity. Qed.

Lemma bind_ok {A B} (m : M A) (f : A → M B) (st st' : state) (a : A) :
  m st = (Ok a, st') → (m ≫= f) st = f a st'.
Proof. intros H. by rewrite bind_run H. Qed.

Lemma bind_raise {A B} (m : M A) (f : A → M B) (st st' : state) (e : exn) :
  m st = (Raise e, st') → (m ≫= f) st = (Raise e, st').
Proof. intros H. by rewrite bind_run H. Qed.

Lemma ret_run {A} (a : A) (st : state) : (mret a : M A) st = (Ok a, st).
Proof. reflexivity. Qed.

Lemma bind_lift {A B} (r : result A) (f : A → M B) (st : state) :
  (lift r ≫= f) st
  = match r with
    | Ok a => f a st
    | Raise e => (Raise e, st)
    end.
Proof. by destruct r. Qed.

(** ** The memo table and [which] *)

Lemma cache_get_remove_ne (key k : str) c :
  k ≠ key → cache_get k (cache_remove key c) = cache_get k c.
Proof.
  intros Hne. unfold cache_remove.
  induction c as [|[k' v] c IH]; [done|].
  rewrite filter_cons /=. destruct (decide (k' ≠ key)) as [Hk|Hk]; simpl.
  - by rewrite IH.
  - apply dec_stable in Hk as ->. rewrite IH.
    by rewrite bool_decide_eq_false_2.
Qed.

(** A hit reorders the table and leaves every lookup as it was. *)
Lemma cache_get_front (key k : str) v c :
  cache_get key c = Some v →
  cache_get k ((key, v) :: cache_remove key c) = cache_get k c.
Proof.
  intros Hget. simpl. case_bool_decide as Hk.
  - by subst.
  - by apply cache_get_remove_ne.
Qed.

Lemma cache_get_head (key : str) v c : cache_get key ((key, v) :: c) = Some v.
Proof. simpl. by rewrite bool_decide_eq_true_2. Qed.

Lemma which_hit (command : str) (st : state) v :
  cache_get command (which_cache st) = Some v →
  which command st
  = (Ok v, set_cache ((command, v) :: cache_remove command (which_cache st)) st).
Proof. intros H. unfold which, lru_cache. by rewrite H. Qed.

Lemma which_miss (command : str) (st : state) value :
  cache_get command (which_cache st) = None →
  environ (the_world st) !! py "PATH" = Some value →
  let r := search (the_world st) (split Ch.colon value) command in
  which command st
  = (Ok r,
     set_cache ((command, r)
                :: (if bool_decide (maxsize ≤ length (which_cache st))%nat
                    then removelast (which_cache st) else which_cache st)) st).
Proof.
  intros Hc Hp. unfold which, lru_cache. rewrite Hc.
  unfold which_wrapped. rewrite bind_run /= Hp. done.
Qed.

Lemma which_unset (command : str) (st : state) :
  cache_get command (which_cache st) = None →
  environ (the_world st) !! py "PATH" = None →
  which command st = (Raise KeyError, st).
Proof.
  intros Hc Hp. unfold which, lru_cache. rewrite Hc.
  unfold which_wrapped. rewrite bind_run /= Hp. done.
Qed.

(** [which] touches neither the world nor the trace. *)
Lemma which_frame (command : str) (st : state) :
  the_world (which command st).2 = the_world st
  ∧ trace (which command st).2 = trace st.
Proof.
  unfold which, lru_cache.
  destruct (cache_get command (which_cache st)); [done|].
  unfold which_wrapped. rewrite bind_run /=.
  by destruct (environ (the_world st) !! py "PATH").
Qed.

(** Whatever [which] returns is in the table afterwards. *)
Lemma which_stores (command : str) (st st' : state) r :
  which command st = (Ok r, st') → cache_get command (which_cache st') = Some r.
Proof.
  unfold which, lru_cache.
  destruct (cache_get command (which_cache st)) as [v|].
  - intros [= <- <-]. apply cache_get_head.
  - destruct (which_wrapped command st) as [[r'|e] st1]; [|done].
    intros [= <- <-]. apply cache_get_head.
Qed.

(** ** The search along [PATH] *)

Lemma search_none (w : world) (dirs : list str) (command : str) :
  Forall (λ dir, stat w (path_join dir command) = None) dirs →
  search w dirs command = None.
Proof.
  induction 1 as [|dir dirs Hd _ IH]; simpl; [done|].
  unfold path_exists. rewrite Hd bool_decide_eq_false_2; [|by intros [? [=]]].
  done.
Qed.

Lemma search_first (w : world) (before after : list str) (dir command : str) :
  Forall (λ d, stat w (path_join d command) = None) before →
  is_Some (stat w (path_join dir command)) →
  search w (before ++ dir :: after) command = Some (path_join dir command).
Proof.
  intros Hb Hd. induction Hb as [|d before Hnone _ IH]; simpl.
  - unfold path_exists. by rewrite bool_decide_eq_true_2.
  - unfold path_exists. rewrite Hnone bool_decide_eq_false_2; [|by intros [? [=]]].
    done.
Qed.

Lemma search_cases (w : world) (dirs : list str) (command : str) :
  (∃ before dir after,
      dirs = before ++ dir :: after
      ∧ Forall (λ d, stat w (path_join d command) = None) before
      ∧ is_Some (stat w (path_join dir command)))
  ∨ Forall (λ d, stat w (path_join d command) = None) dirs.
Proof.
  induction dirs as [|d dirs IH]; [by right|].
  destruct (stat w (path_join d command)) as [k|] eqn:Hd.
  - left. exists [], d, dirs. split_and!; [done | constructor | by rewrite Hd].
  - destruct IH as [(before & dir & after & -> & Hb & Hdir)|Hall].
    + left. exists (d :: before), dir, after. split_and!; [done | by constructor | done].
    + right. by constructor.
Qed.

Lemma path_join_nonempty (dir command : str) :
  command ≠ [] → path_join dir command ≠ [].
Proof.
  intros Hc. unfold path_join. repeat case_match; try done.
  - by destruct dir.
  - by destruct dir.
Qed.

Lemma search_truthy (w : world) (dirs : list str) (command : str) :
  command ≠ [] →
  truthy (search w dirs command) = bool_decide (is_Some (search w dirs command)).
Proof.
  intros Hc. induction dirs as [|d dirs IH]; simpl.
  - done.
  - destruct (path_exists w (path_join d command)); [|done].
    pose proof (path_join_nonempty d command Hc).
    by destruct (path_join d command).
Qed.

(** ** [str.format] on the templates of the script *)

Definition no_brace (s : str) : bool :=
  forallb (λ c, negb (c =? Ch.lbrace) && negb (c =? Ch.rbrace)) s.

Lemma format_literal (lit : str) args kwargs (t : str) :
  no_brace lit = true →
  format_from None args kwargs (lit ++ t)
  = app lit <$> format_from None args kwargs t.
Proof.
  induction lit as [|c lit IH]; simpl.
  - intros _. by destruct (format_from None args kwargs t).
  - intros [[Hl Hr]%andb_prop Hlit]%andb_prop.
    apply negb_true_iff in Hl. apply negb_true_iff in Hr.
    rewrite Hl Hr IH; [|done].
    by destruct (format_from None args kwargs t).
Qed.

Lemma format_field_name (acc name : str) args kwargs (t : str) :
  no_brace name = true →
  format_from (Some acc) args kwargs (name ++ Ch.rbrace :: t)
  = format_from (Some (acc ++ name)) args kwargs (Ch.rbrace :: t).
Proof.
  revert acc. induction name as [|c name IH]; intros acc; simpl.
  - by rewrite app_nil_r.
  - intros [[Hl Hr]%andb_prop Hname]%andb_prop.
    apply negb_true_iff in Hr. rewrite Hr IH; [|done].
    by rewrite -app_assoc.
Qed.

Lemma format_named (name v : str) args kwargs (t : str) :
  name ≠ [] → no_brace name = true → kwargs !! name = Some v →
  format_from None args kwargs (Ch.lbrace :: name ++ Ch.rbrace :: t)
  = app v <$> format_from None args kwargs t.
Proof.
  intros Hne Hname Hv. destruct name as [|c name]; [done|].
  pose proof Hname as [[Hl Hr]%andb_prop Hrest]%andb_prop.
  apply negb_true_iff in Hl. apply negb_true_iff in Hr.
  cbn [format_from app]. rewrite Hl Hr.
  change (Ch.lbrace =? Ch.lbrace) with true. cbv iota.
  rewrite (format_field_name [c] name); [|done].
  cbn [format_from app]. change (Ch.rbrace =? Ch.rbrace) with true.
  cbv iota. by rewrite Hv.
Qed.

Lemma format_positional (a : str) args kwargs (t : str) :
  format_from None (a :: args) kwargs (Ch.lbrace :: Ch.rbrace :: t)
  = app a <$> format_from None args kwargs t.
Proof. reflexivity. Qed.

(** The message of [ensure_commands]. *)
Lemma format_missing (lines : str) :
  format (py "You must install a set of commands for this script to work."
          ++ Ch.lf :: py "{}") [lines] ∅
  = Ok (py "You must install a set of commands for this script to work."
        ++ Ch.lf :: lines).
Proof.
  unfold format.
  change (py "You must install a set of commands for this script to work."
          ++ Ch.lf :: py "{}")
    with ((py "You must install a set of commands for this script to work."
           ++ [Ch.lf]) ++ Ch.lbrace :: Ch.rbrace :: []).
  rewrite format_literal; [|done].
  rewrite format_positional /=. by rewrite app_nil_r -app_assoc.
Qed.

(** One line for the picker. *)
Lemma format_line (address : str) :
  format (py "{}" ++ [Ch.lf]) [address] ∅ = Ok (address ++ [Ch.lf]).
Proof.
  unfold format.
  change (py "{}" ++ [Ch.lf]) with (Ch.lbrace :: Ch.rbrace :: [Ch.lf]).
  by rewrite format_positional.
Qed.

(** ** The memo table across other lookups *)

Lemma held_get (n : nat) (command : str) (r : option str) c :
  held_within n command r c → cache_get command c = Some r.
Proof.
  intros (before & after & -> & Hbefore & _).
  induction Hbefore as [|[k v] before Hk _ IH]; simpl.
  - by rewrite bool_decide_eq_true_2.
  - simpl in Hk. by rewrite bool_decide_eq_false_2.
Qed.

Lemma held_front (n : nat) (command : str) (r : option str) c :
  held_within n command r ((command, r) :: c).
Proof. exists [], c. split_and!; [done|constructor|simpl; lia]. Qed.

(** A hit for another name moves that name to the front. *)
Lemma held_hit (n : nat) (command name : str) (r v : option str) c :
  name ≠ command → held_within n command r c →
  held_within (S n) command r ((name, v) :: cache_remove name c).
Proof.
  intros Hne (before & after & -> & Hbefore & Hlen).
  exists ((name, v) :: cache_remove name before), (cache_remove name after).
  split_and!.
  - unfold cache_remove. rewrite filter_app filter_cons /=.
    by rewrite decide_True.
  - constructor; [done|]. unfold cache_remove.
    apply Forall_forall. intros kv [_ Hin]%list_elem_of_filter.
    by eapply Forall_forall in Hbefore.
  - simpl. unfold cache_remove.
    pose proof (length_filter (λ kv : str * option str, kv.1 ≠ name) before).
    lia.
Qed.

(** A miss for another name adds it at the front; the entry that falls
    off a full table is the least recently used one. *)
Lemma held_miss (n : nat) (command name : str) (r v : option str) c :
  name ≠ command → (S n < maxsize)%nat → held_within n command r c →
  held_within (S n) command r
    ((name, v) :: (if bool_decide (maxsize ≤ length c)%nat
                   then removelast c else c)).
Proof.
  intros Hne Hn (before & after & -> & Hbefore & Hlen).
  case_bool_decide as Hfull.
  - destruct after as [|kv after].
    + rewrite length_app /= in Hfull. lia.
    + exists ((name, v) :: before), (removelast (kv :: after)).
      split_and!.
      * rewrite removelast_app; [|done]. simpl. by destruct after.
      * by constructor.
      * simpl. lia.
  - exists ((name, v) :: before), after.
    split_and!; [done|by constructor|simpl; lia].
Qed.

(** One more call of [which], for any name. *)
Lemma held_step (n : nat) (command name : str) (r : option str) (st : state) :
  (S n < maxsize)%nat →
  held_within n command r (which_cache st) →
  held_within (S n) command r (which_cache (which name st).2).
Proof.
  intros Hn Hheld.
  assert (Hmore : held_within (S n) command r (which_cache st)).
  { destruct Hheld as (before & after & Hc & Hbefore & Hlen).
    exists before, after. split_and!; [done|done|lia]. }
  destruct (cache_get name (which_cache st)) as [v|] eqn:Hget.
  - rewrite (which_hit name st v Hget). simpl.
    destruct (decide (name = command)) as [->|Hne].
    + rewrite (held_get _ _ _ _ Hheld) in Hget.
      injection Hget as <-. apply held_front.
    + by apply held_hit.
  - assert (Hne : name ≠ command).
    { intros ->. by rewrite (held_get _ _ _ _ Hheld) in Hget. }
    destruct (environ (the_world st) !! py "PATH") as [value|] eqn:Hpath.
    + rewrite (which_miss name st value Hget Hpath). simpl.
      by apply held_miss.
    + by rewrite (which_unset name st Hget Hpath).
Qed.

Lemma held_lookups (calls : list (world * list event * str)) (n : nat)
    (command : str) (r : option str) (st : state) :
  (n + length calls < maxsize)%nat →
  held_within n command r (which_cache st) →
  held_within (n + length calls) command r (which_cache (lookups calls st)).
Proof.
  revert n st.
  induction calls as [|[[w events] name] calls IH]; intros n st Hn Hheld.
  - simpl. by rewrite Nat.add_0_r.
  - simpl in *. replace (n + S (length calls))%nat with (S n + length calls)%nat
      by lia.
    apply IH; [lia|]. apply held_step; [lia|done].
Qed.

(** What [which] returns is at the front of the table afterwards. *)
Lemma which_front (command : str) (st st' : state) (r : option str) :
  which command st = (Ok r, st') → held_within 0 command r (which_cache st').
Proof.
  unfold which, lru_cache.
  destruct (cache_get command (which_cache st)) as [v|].
  - intros [= <- <-]. apply held_front.
  - destruct (which_wrapped command st) as [[r'|e] st1]; [|done].
    intros [= <- <-]. apply held_front.
Qed.

(** ** Path resolution *)


(** C7.  Once [which] has returned a result for a command name, a later
    call for that name returns the same result, whatever the environment
    and the file system have become, and whatever happened in between:
    events logged by the script, and other lookups, of any names and in
    any worlds, as long as these are fewer than the 128 entries the memo
    table keeps.  A run of the script looks up three names, seven times
    in all. *)
Theorem which_is_memoized (command : str) (st st1 : state) (r : option str)
    (calls : list (world * list event * str)) (events : list event)
    (w' : world) :
  which command st = (Ok r, st1) →
  (length calls < maxsize)%nat →
  let later := set_world w' (add_trace (lookups calls st1) events) in
  (which command later).1 = Ok r
  ∧ cache_get command (which_cache (which command later).2) = Some r.
Proof.
  intros Hfirst Hcalls later.
  pose proof (held_lookups calls 0 command r st1 Hcalls
                (which_front _ _ _ _ Hfirst)) as Hheld.
  apply held_get in Hheld.
  rewrite (which_hit command later r); [|done].
  split; [done|]. apply cache_get_head.
Qed.

(** ** Preflight *)

Lemma ensure_commands_unset (w : world) :
  environ w !! py "PATH" = None →
  ensure_commands (initial w) = (Raise KeyError, initial w).
Proof.
  intros Hpath. unfold ensure_commands.
  apply bind_raise. simpl. apply bind_raise. by apply which_unset.
Qed.

Ltac py_neq := let H := fresh in intros H; vm_compute in H; discriminate H.

Lemma missing_loop_spec (items : list (list N * list N)) (acc : list str)
    (st : state) (value : str) :
  environ (the_world st) !! py "PATH" = Some value →
  NoDup (fst <$> items) →
  Forall (λ item, cache_get item.1 (which_cache st) = None) items →
  (length (which_cache st) + length items ≤ maxsize)%nat →
  let w := the_world st in
  missing_loop items acc st
  = (Ok (acc ++ (snd <$> filter (λ item, truthy (resolve w value item.1) = false)
                           items)),
     set_cache (reverse ((λ item, (item.1, resolve w value item.1)) <$> items)
                ++ which_cache st) st).
Proof.
  intros Hpath Hnodup Hmiss Hlen w. subst w.
  revert acc st Hpath Hmiss Hlen.
  induction items as [|[command description] items IH]; intros acc st Hpath Hmiss Hlen.
  - simpl. rewrite app_nil_r. by destruct st.
  - apply NoDup_cons in Hnodup as [Hfresh Hnodup].
    apply Forall_cons in Hmiss as [Hc Hmiss]. simpl in Hc, Hlen.
    cbn [missing_loop].
    rewrite bind_run (which_miss _ _ value) //.
    rewrite bool_decide_eq_false_2; [|lia].
    set (r := search (the_world st) (split Ch.colon value) command).
    set (st1 := set_cache ((command, r) :: which_cache st) st).
    assert (Hnext : ∀ acc',
      missing_loop items acc' st1
      = (Ok (acc' ++ (snd <$> filter
               (λ item, truthy (resolve (the_world st) value item.1) = false) items)),
         set_cache (reverse ((λ item, (item.1, resolve (the_world st) value item.1))
                             <$> items) ++ which_cache st1) st1)).
    { intros acc'. apply (IH Hnodup acc' st1); [done| |simpl; lia].
      apply Forall_forall. intros item Hin.
      rewrite ->Forall_forall in Hmiss. specialize (Hmiss item Hin). simpl.
      rewrite bool_decide_eq_false_2; [done|].
      intros Heq. apply Hfresh. rewrite Heq. apply list_elem_of_fmap.
      by exists item. }
    rewrite filter_cons. fold (resolve (the_world st) value command) in r.
    change ((command, description).1) with command.
    rewrite fmap_cons reverse_cons -app_assoc.
    destruct (truthy r) eqn:Hr; simpl.
    + rewrite Hnext. rewrite decide_False; [|by rewrite Hr]. done.
    + rewrite Hnext. rewrite decide_True; [|by rewrite Hr].
      by rewrite -app_assoc.
Qed.

Lemma missing_loop_initial (w : world) (value : str) :
  environ w !! py "PATH" = Some value →
  missing_loop REQUIRED_COMMANDS [] (initial w)
  = (Ok (missing_descriptions w value), State w (preflight_cache w value) []).
Proof.
  intros Hpath.
  rewrite (missing_loop_spec _ _ _ value).
  - done.
  - done.
  - apply (bool_decide_unpack _). by vm_compute.
  - by repeat constructor.
  - simpl. unfold maxsize. lia.
Qed.

Lemma ensure_commands_initial (w : world) (value : str) :
  environ w !! py "PATH" = Some value →
  ensure_commands (initial w)
  = match missing_descriptions w value with
    | [] => (Ok (), preflight_state w value)
    | missing =>
        (Raise (SystemExit 1),
         State w (preflight_cache w value) [Stderr (missing_message missing)])
    end.
Proof.
  intros Hpath. unfold ensure_commands.
  rewrite bind_run (missing_loop_initial w value Hpath).
  destruct (missing_descriptions w value) as [|d ds]; [done|].
  rewrite bind_run /lift format_missing. unfold missing_message.
  rewrite bind_run /print_stderr /log /raise /=.
  by rewrite -app_assoc.
Qed.

Lemma resolve_none (w : world) (value command : str) :
  (∀ dir, dir ∈ split Ch.colon value → stat w (path_join dir command) = None) →
  resolve w value command = None.
Proof. intros H. apply search_none. by apply Forall_forall. Qed.

Lemma resolve_first (w : world) (value command dir : str) kind :
  first_entry w (split Ch.colon value) command dir kind →
  resolve w value command = Some (path_join dir command).
Proof.
  intros (before & after & Hd & Hb & Hk). unfold resolve.
  rewrite Hd. apply search_first; [done | by rewrite Hk].
Qed.

Lemma resolve_some (w : world) (value command dir : str) :
  dir ∈ split Ch.colon value → is_Some (stat w (path_join dir command)) →
  ∃ dir' kind, first_entry w (split Ch.colon value) command dir' kind.
Proof.
  intros Hin Hsome.
  destruct (search_cases w (split Ch.colon value) command)
    as [(before & dir' & after & Hd & Hb & [kind Hk])|Hnone].
  - exists dir', kind, before, after. done.
  - rewrite ->Forall_forall in Hnone. rewrite (Hnone dir Hin) in Hsome.
    by destruct Hsome.
Qed.

Lemma required_names_nonempty (command : str) :
  command ∈ required_names → command ≠ [].
Proof.
  intros Hin ->. revert Hin. vm_compute. intros Hin.
  repeat (apply elem_of_cons in Hin as [Hin|Hin]; [discriminate Hin|]).
  by apply elem_of_nil in Hin.
Qed.

Lemma missing_descriptions_nil (w : world) (value : str) :
  (∀ command, command ∈ required_names →
     ∃ dir kind, first_entry w (split Ch.colon value) command dir kind) →
  missing_descriptions w value = [].
Proof.
  intros Hall. unfold missing_descriptions, REQUIRED_COMMANDS.
  assert (Hr : ∀ command, command ∈ required_names →
                 truthy (resolve w value command) ≠ false).
  { intros command Hreq.
    destruct (Hall command Hreq) as (dir & kind & Hfirst).
    rewrite (resolve_first _ _ _ _ _ Hfirst).
    pose proof (path_join_nonempty dir command (required_names_nonempty _ Hreq)).
    by destruct (path_join dir command). }
  rewrite !filter_cons filter_nil /=.
  rewrite !decide_False //; apply Hr; vm_compute; set_solver.
Qed.

Lemma missing_descriptions_all (w : world) (value : str) :
  (∀ dir command, dir ∈ split Ch.colon value → command ∈ required_names →
     stat w (path_join dir command) = None) →
  missing_descriptions w value
  = [py "awscli is missing"; py "fzf is missing"; py "jq is missing"].
Proof.
  intros Hnone. unfold missing_descriptions, REQUIRED_COMMANDS.
  assert (Hr : ∀ command, command ∈ required_names →
                 truthy (resolve w value command) = false).
  { intros command Hreq. rewrite resolve_none; [done|].
    intros dir Hdir. by apply Hnone. }
  rewrite !filter_cons filter_nil /=.
  rewrite !decide_True //; apply Hr; vm_compute; set_solver.
Qed.

(** Two required commands with the same description are the same. *)
Lemma same_description (c1 c2 d : str) :
  (c1, d) ∈ REQUIRED_COMMANDS → (c2, d) ∈ REQUIRED_COMMANDS → c1 = c2.
Proof.
  unfold REQUIRED_COMMANDS. intros H1 H2.
  repeat (apply elem_of_cons in H1 as [H1|H1]);
    repeat (apply elem_of_cons in H2 as [H2|H2]);
    try (by apply elem_of_nil in H1); try (by apply elem_of_nil in H2);
    injection H1 as -> Hd1; injection H2 as -> Hd2;
    try done; rewrite Hd1 in Hd2; by vm_compute in Hd2.
Qed.

Section Preflight.

Variable json_loads : list N → option json.
Variable repr_other : json → list N.

Lemma main_stops_at_preflight (username : str) (st st' : state) (e : exn) :
  ensure_commands st = (Raise e, st') →
  main json_loads repr_other username st = (Raise e, st').
Proof. intros H. unfold main. by apply bind_raise. Qed.

(** C4.  With [PATH] set: when no directory of [PATH] has an entry named
    after any of the three required tools, the run writes the header and
    the three descriptions, one per line, to the error stream, ends with
    exit status 1 and starts no child process; when each tool has an
    entry in some directory of [PATH], the preflight check returns
    without writing anything. *)
Theorem preflight_none_or_all (w : world) (value username : str) :
  environ w !! py "PATH" = Some value →
  ((∀ dir command, dir ∈ split Ch.colon value → command ∈ required_names →
       stat w (path_join dir command) = None) →
   ∃ st',
     main json_loads repr_other username (initial w) = (Raise (SystemExit 1), st')
     ∧ exit_status (main json_loads repr_other username (initial w)).1 = 1%Z
     ∧ trace st'
       = [Stderr (py "You must install a set of commands for this script to work."
                  ++ Ch.lf :: py "awscli is missing"
                  ++ Ch.lf :: py "fzf is missing"
                  ++ Ch.lf :: py "jq is missing" ++ [Ch.lf])]
     ∧ splitlines (stderr_of (trace st'))
       = [py "You must install a set of commands for this script to work.";
          py "awscli is missing"; py "fzf is missing"; py "jq is missing"]
     ∧ execs_of (trace st') = [])
  ∧ ((∀ command, command ∈ required_names →
        ∃ dir, dir ∈ split Ch.colon value
               ∧ is_Some (stat w (path_join dir command))) →
     ∃ st', ensure_commands (initial w) = (Ok (), st') ∧ trace st' = []).
Proof.
  intros Hpath. split.
  - intros Hnone.
    pose proof (ensure_commands_initial w value Hpath) as Hens.
    rewrite (missing_descriptions_all w value Hnone) in Hens.
    eexists. rewrite (main_stops_at_preflight _ _ _ _ Hens).
    split; [reflexivity|]. split; [done|].
    split; [by vm_compute|]. split; [by vm_compute | done].
  - intros Hall.
    rewrite (ensure_commands_initial w value Hpath).
    rewrite missing_descriptions_nil; [by eexists|].
    intros command Hreq. destruct (Hall command Hreq) as (dir & Hin & Hsome).
    by eapply resolve_some.
Qed.

(** C8.  [which] and the preflight check look only at whether an entry
    exists.  With [PATH] set: a required tool whose first entry of that
    name along [PATH] is of any kind at all (a directory, a file that is
    not executable) is resolved to that entry and is not among the tools
    reported missing, the report being the descriptions of
    [missing_descriptions]; and when each required tool has such an
    entry, the preflight check passes without a message. *)
Theorem existence_is_all_that_counts (w : world) (value : str) :
  environ w !! py "PATH" = Some value →
  (∀ command description dir kind,
     (command, description) ∈ REQUIRED_COMMANDS →
     first_entry w (split Ch.colon value) command dir kind →
     (which command (initial w)).1 = Ok (Some (path_join dir command))
     ∧ description ∉ missing_descriptions w value)
  ∧ stderr_of (trace (ensure_commands (initial w)).2)
    = match missing_descriptions w value with
      | [] => []
      | missing => missing_message missing
      end
  ∧ ((∀ command, command ∈ required_names →
        ∃ dir kind, first_entry w (split Ch.colon value) command dir kind) →
     ∃ st', ensure_commands (initial w) = (Ok (), st') ∧ trace st' = []).
Proof.
  intros Hpath. split_and!.
  - intros command description dir kind Hin Hfirst.
    pose proof (resolve_first w value command dir kind Hfirst) as Hres.
    split.
    + rewrite (which_miss command (initial w) value) //=.
      f_equal. exact Hres.
    + unfold missing_descriptions. intros Hmiss.
      apply list_elem_of_fmap in Hmiss as ([c d] & Hd & Hitem). simpl in Hd.
      apply list_elem_of_filter in Hitem as [Hfalse Hitem]. simpl in Hfalse.
      assert (Hc : c = command) by (subst d; by eapply same_description).
      subst c. rewrite Hres in Hfalse.
      assert (Hne : command ≠ []).
      { apply required_names_nonempty. apply list_elem_of_fmap.
        by exists (command, description). }
      pose proof (path_join_nonempty dir command Hne).
      by destruct (path_join dir command).
  - rewrite (ensure_commands_initial w value Hpath).
    destruct (missing_descriptions w value); [done|].
    simpl. unfold stderr_of. simpl. by rewrite app_nil_r.
  - intros Hall. rewrite (ensure_commands_initial w value Hpath).
    rewrite missing_descriptions_nil; [by eexists | done].
Qed.

(** C9.  With no [PATH] in the environment, the first call of [which]
    raises [KeyError]; the run ends with that exception, unhandled,
    before anything is written or started: there is no message about
    missing tools and no [SystemExit]. *)
Theorem unset_PATH_is_a_KeyError (w : world) (username command : str) :
  environ w !! py "PATH" = None →
  which command (initial w) = (Raise KeyError, initial w)
  ∧ main json_loads repr_other username (initial w) = (Raise KeyError, initial w)
  ∧ stderr_of (trace (main json_loads repr_other username (initial w)).2) = []
  ∧ execs_of (trace (main json_loads repr_other username (initial w)).2) = [].
Proof.
  intros Hpath.
  assert (Hmain : main json_loads repr_other username (initial w)
                  = (Raise KeyError, initial w)).
  { apply main_stops_at_preflight. by apply ensure_commands_unset. }
  rewrite Hmain. split_and!; try done. by apply which_unset.
Qed.

End Preflight.

(** ** The lexer of [shlex.split] *)

Lemma is_plain_char_cases (c : char) :
  is_plain_char c = true →
  char_in c sh_whitespace = false ∧ char_in c sh_quotes = false
  ∧ char_in c sh_escape = false.
Proof.
  unfold is_plain_char. intros [[H1 H2]%andb_prop H3]%andb_prop.
  by rewrite !negb_true_iff in H1, H2, H3.
Qed.

Lemma read_word_chars (w tok rest : str) (e : sh_state) (q : bool) :
  forallb is_plain_char w = true →
  read_tokens Sh_word e q tok (w ++ rest) = read_tokens Sh_word e q (tok ++ w) rest.
Proof.
  revert tok. induction w as [|c w IH]; intros tok; simpl.
  - by rewrite app_nil_r.
  - intros [Hc Hw]%andb_prop.
    destruct (is_plain_char_cases c Hc) as (-> & -> & ->).
    rewrite IH; [|done]. by rewrite -app_assoc.
Qed.

Lemma read_word_start (w rest : str) (e : sh_state) :
  plain w = true →
  read_tokens Sh_space e false [] (w ++ rest) = read_tokens Sh_word e false w rest.
Proof.
  unfold plain. destruct w as [|c w]; [done|]. simpl.
  intros [Hc Hw]%andb_prop.
  destruct (is_plain_char_cases c Hc) as (-> & -> & ->).
  by rewrite read_word_chars.
Qed.

(** A word followed by white space is the next token. *)
Lemma token_word_ws (w rest : str) (ws : char) (e : sh_state) :
  plain w = true → char_in ws sh_whitespace = true →
  read_tokens Sh_space e false [] (w ++ ws :: rest)
  = cons w <$> read_tokens Sh_space Sh_space false [] rest.
Proof.
  intros Hw Hws. rewrite read_word_start; [|done].
  unfold plain in Hw. destruct w as [|c w]; [done|].
  cbn [read_tokens]. by rewrite Hws.
Qed.

Lemma token_word (w rest : str) (e : sh_state) :
  plain w = true →
  read_tokens Sh_space e false [] (w ++ Ch.space :: rest)
  = cons w <$> read_tokens Sh_space Sh_space false [] rest.
Proof. intros Hw. by apply token_word_ws. Qed.

(** A word at the end of the input is the last token. *)
Lemma token_word_last (w : str) (e : sh_state) :
  plain w = true → read_tokens Sh_space e false [] w = Ok [w].
Proof.
  intros Hw. rewrite -{1}(app_nil_r w) read_word_start; [|done].
  unfold plain in Hw. by destruct w.
Qed.

Definition quoted_squote : str :=
  [Ch.squote; Ch.dquote; Ch.squote; Ch.dquote; Ch.squote].

Lemma read_quoted_body (p tok rest : str) (e : sh_state) (q : bool) :
  read_tokens (Sh_quote Ch.squote) e q tok
    (replace_char Ch.squote quoted_squote p ++ Ch.squote :: rest)
  = read_tokens Sh_word e true (tok ++ p) rest.
Proof.
  revert tok q. induction p as [|c p IH]; intros tok q.
  - by rewrite app_nil_r.
  - unfold replace_char. rewrite fmap_cons /= -/(replace_char _ _ p).
    destruct (N.eqb_spec c Ch.squote) as [->|Hc].
    + simpl. rewrite IH. by rewrite -app_assoc.
    + simpl. apply N.eqb_neq in Hc. rewrite Hc andb_false_r IH.
      by rewrite -app_assoc.
Qed.

Lemma is_safe_plain (c : char) : is_safe c = true → is_plain_char c = true.
Proof.
  intros Hsafe. destruct (is_plain_char c) eqn:Hplain; [done|].
  unfold is_plain_char in Hplain.
  assert (Hin : c ∈ sh_whitespace ++ sh_quotes ++ sh_escape).
  { rewrite !elem_of_app. unfold char_in in Hplain.
    repeat case_bool_decide; auto; done. }
  revert Hsafe. clear Hplain. vm_compute in Hin.
  repeat (apply elem_of_cons in Hin as [->|Hin]; [by vm_compute|]).
  by apply elem_of_nil in Hin.
Qed.

Lemma forallb_weaken {A} (f g : A → bool) (l : list A) :
  (∀ x, f x = true → g x = true) → forallb f l = true → forallb g l = true.
Proof.
  intros Hfg. induction l as [|x l IH]; [done|]. simpl.
  intros [Hx Hl]%andb_prop. by rewrite (Hfg x Hx) IH.
Qed.

Lemma quote_safe (p : str) :
  p ≠ [] → forallb is_safe p = true → quote (Some p) = p.
Proof. destruct p; [done|]. unfold quote. by intros _ ->. Qed.

Lemma quote_unsafe (p : str) :
  p ≠ [] → forallb is_safe p = false →
  quote (Some p) = Ch.squote :: replace_char Ch.squote quoted_squote p ++ [Ch.squote].
Proof. destruct p; [done|]. unfold quote. by intros _ ->. Qed.

Lemma read_open_quote (t : str) (e : sh_state) :
  read_tokens Sh_space e false [] (Ch.squote :: t)
  = read_tokens (Sh_quote Ch.squote) e false [] t.
Proof. reflexivity. Qed.

Lemma read_quoted_end (tok rest : str) (e : sh_state) :
  read_tokens Sh_word e true tok (Ch.space :: rest)
  = cons tok <$> read_tokens Sh_space Sh_space false [] rest.
Proof.
  cbn [read_tokens]. change (char_in Ch.space sh_whitespace) with true.
  cbv iota. unfold emit. by rewrite orb_true_r.
Qed.

(** What [shlex.quote] made of a path is read back as that path. *)
Lemma token_quoted (p rest : str) :
  p ≠ [] →
  read_tokens Sh_space Sh_space false [] (quote (Some p) ++ Ch.space :: rest)
  = cons p <$> read_tokens Sh_space Sh_space false [] rest.
Proof.
  intros Hp. destruct (forallb is_safe p) eqn:Hsafe.
  - rewrite quote_safe; [|done..]. apply token_word. unfold plain.
    rewrite (forallb_weaken _ _ _ is_safe_plain Hsafe). by destruct p.
  - rewrite quote_unsafe; [|done..].
    rewrite -app_comm_cons read_open_quote -app_assoc.
    change ([Ch.squote] ++ Ch.space :: rest) with (Ch.squote :: Ch.space :: rest).
    rewrite read_quoted_body. by apply read_quoted_end.
Qed.

(** The decimal text of an integer is a word. *)
Lemma digits_plain (u : Decimal.uint) : forallb is_plain_char (digits u) = true.
Proof. induction u; simpl; [done | by rewrite IHu..]. Qed.

Lemma digits_nonempty (u : Decimal.uint) : u ≠ Decimal.Nil → nonempty (digits u) = true.
Proof. by destruct u. Qed.

Lemma str_of_int_plain (n : Z) : plain (str_of_int n) = true.
Proof.
  unfold plain, str_of_int. destruct n as [|p|p]; simpl; [done| |].
  - rewrite digits_plain digits_nonempty; [done|]. apply Unsigned.to_uint_nonnil.
  - by rewrite digits_plain.
Qed.

(** ** The command lines *)

Lemma same_lookups_refl (st : state) : same_lookups st st.
Proof. by repeat split. Qed.

Lemma same_lookups_trans (st1 st2 st3 : state) :
  same_lookups st1 st2 → same_lookups st2 st3 → same_lookups st1 st3.
Proof.
  intros (Hw1 & Ht1 & Hc1) (Hw2 & Ht2 & Hc2). repeat split.
  - by rewrite Hw2.
  - by rewrite Ht2.
  - intros key. by rewrite Hc2.
Qed.

Lemma resolved_same (st st' : state) (command path : str) :
  same_lookups st st' → resolved st command path → resolved st' command path.
Proof. intros (_ & _ & Hc) [Hget Hne]. split; [by rewrite Hc | done]. Qed.

Lemma which_resolved (st : state) (command path : str) :
  resolved st command path →
  ∃ st', which command st = (Ok (Some path), st') ∧ same_lookups st st'.
Proof.
  intros [Hget _]. rewrite (which_hit _ _ _ Hget). eexists. split; [done|].
  repeat split. intros key. by apply cache_get_front.
Qed.

Lemma get_commands_paths_one (st : state) (command path : str) :
  resolved st command path →
  ∃ st', get_commands_paths [command] st
         = (Ok {[ command := quote (Some path) ]}, st')
         ∧ same_lookups st st'.
Proof.
  intros Hres. destruct (which_resolved _ _ _ Hres) as (st' & Hwhich & Hsame).
  exists st'. split; [|done].
  unfold get_commands_paths. cbn [mapM].
  rewrite !bind_run Hwhich /=. by rewrite insert_empty.
Qed.

Lemma get_commands_paths_two (st : state) (c1 p1 c2 p2 : str) :
  c1 ≠ c2 → resolved st c1 p1 → resolved st c2 p2 →
  ∃ st', get_commands_paths [c1; c2] st
         = (Ok (<[ c1 := quote (Some p1) ]> {[ c2 := quote (Some p2) ]}), st')
         ∧ same_lookups st st'.
Proof.
  intros Hne Hres1 Hres2.
  destruct (which_resolved _ _ _ Hres1) as (st1 & Hwhich1 & Hsame1).
  destruct (which_resolved _ _ _ (resolved_same _ _ _ _ Hsame1 Hres2))
    as (st2 & Hwhich2 & Hsame2).
  exists st2. split; [|by eapply same_lookups_trans].
  unfold get_commands_paths. cbn [mapM].
  rewrite !bind_run Hwhich1 /= !bind_run Hwhich2 /=.
  unfold mret, M_ret. do 2 f_equal. rewrite insert_empty.
  by apply insert_insert_ne.
Qed.

Lemma required_names_cases (command : str) :
  command ∈ required_names →
  command = py "aws" ∨ command = py "fzf" ∨ command = py "jq".
Proof.
  unfold required_names, REQUIRED_COMMANDS. simpl. intros Hin.
  repeat (apply elem_of_cons in Hin as [->|Hin]; [by auto|]).
  by apply elem_of_nil in Hin.
Qed.

(** After a successful preflight on a fresh process, the table holds a
    path for each required command. *)
Lemma preflight_resolved (w : world) (st : state) (command : str) :
  ensure_commands (initial w) = (Ok (), st) →
  command ∈ required_names →
  ∃ path, resolved st command path.
Proof.
  intros Hens Hreq.
  destruct (environ w !! py "PATH") as [value|] eqn:Hpath;
    [|by rewrite ensure_commands_unset in Hens].
  rewrite (ensure_commands_initial w value Hpath) in Hens.
  destruct (missing_descriptions w value) eqn:Hmiss; [|done].
  injection Hens as <-.
  assert (Htruthy : truthy (resolve w value command) = true).
  { destruct (truthy (resolve w value command)) eqn:Ht; [done|]. exfalso.
    apply fmap_nil_inv in Hmiss.
    apply list_elem_of_fmap in Hreq as ([c d] & -> & Hin).
    by apply (filter_nil_not_elem_of _ _ (c, d) Hmiss). }
  destruct (resolve w value command) as [[|c path]|] eqn:Hres; try done.
  exists (c :: path). split; [|done].
  unfold preflight_state, preflight_cache.
  destruct (required_names_cases _ Hreq) as [->|[->| ->]]; simpl;
    repeat (rewrite bool_decide_eq_false_2; [|by py_neq]);
    rewrite bool_decide_eq_true_2 //; by rewrite -Hres.
Qed.

Lemma add_trace_add (st : state) (e1 e2 : list event) :
  add_trace (add_trace st e1) e2 = add_trace st (e1 ++ e2).
Proof. unfold add_trace. simpl. by rewrite app_assoc. Qed.

Lemma log_run (e : event) (st : state) : log e st = (Ok (), add_trace st [e]).
Proof. reflexivity. Qed.

Lemma writelines_run (lines : list bytes) (st : state) :
  writelines lines st = (Ok (), add_trace st (StdinWrite <$> lines)).
Proof.
  revert st. induction lines as [|line lines IH]; intros st; simpl.
  - unfold add_trace. rewrite app_nil_r. by destruct st.
  - rewrite bind_run log_run IH add_trace_add. done.
Qed.

Lemma fzf_command (path : str) :
  path ≠ [] →
  format FZF_COMMAND [] {[ py "fzf" := quote (Some path) ]} ≫= shlex_split
  = Ok (fzf_args path).
Proof.
  intros Hpath.
  assert (Htpl : FZF_COMMAND
                 = Ch.lbrace :: py "fzf" ++ Ch.rbrace
                   :: (Ch.space :: py "--header 'Choose a server to get the credentials'")
                   ++ []) by by vm_compute.
  unfold format. rewrite Htpl.
  rewrite (format_named (py "fzf") (quote (Some path)));
    [|by py_neq|by vm_compute|by rewrite lookup_singleton_eq].
  rewrite format_literal; [|by vm_compute]. simpl.
  unfold shlex_split. rewrite -app_comm_cons token_quoted; [|done].
  rewrite app_nil_r.
  assert (Hrest : read_tokens Sh_space Sh_space false []
                    (py "--header 'Choose a server to get the credentials'")
                  = Ok [py "--header"; py "Choose a server to get the credentials"])
    by by vm_compute.
  by rewrite Hrest.
Qed.

Ltac kw_lookup :=
  unfold credentials_kwargs;
  repeat (rewrite lookup_insert_ne; [|by py_neq]);
  first [by rewrite lookup_insert_eq | by rewrite lookup_singleton_eq].

Lemma credentials_format (path hostname port username : str) :
  format GET_CREDENTIALS_COMMAND [] (credentials_kwargs path hostname port username)
  = Ok (credentials_line path hostname port username).
Proof.
  assert (Htpl : GET_CREDENTIALS_COMMAND
    = Ch.lbrace :: py "aws" ++ Ch.rbrace :: lit_hostname
      ++ Ch.lbrace :: py "hostname" ++ Ch.rbrace :: lit_port
      ++ Ch.lbrace :: py "port" ++ Ch.rbrace :: lit_username
      ++ Ch.lbrace :: py "username" ++ Ch.rbrace :: lit_region ++ [])
    by by vm_compute.
  unfold format. rewrite Htpl.
  rewrite (format_named (py "aws") (quote (Some path)));
    [|by py_neq|by vm_compute|kw_lookup].
  rewrite format_literal; [|by vm_compute].
  rewrite (format_named (py "hostname") hostname);
    [|by py_neq|by vm_compute|kw_lookup].
  rewrite format_literal; [|by vm_compute].
  rewrite (format_named (py "port") port);
    [|by py_neq|by vm_compute|kw_lookup].
  rewrite format_literal; [|by vm_compute].
  rewrite (format_named (py "username") username);
    [|by py_neq|by vm_compute|kw_lookup].
  rewrite format_literal; [|by vm_compute].
  simpl. unfold credentials_line. by rewrite app_nil_r.
Qed.

Lemma words1 (a rest : str) :
  (Ch.space :: a ++ [Ch.space]) ++ rest = Ch.space :: a ++ Ch.space :: rest.
Proof. by rewrite /= -app_assoc. Qed.

Lemma words3 (a b c rest : str) :
  (Ch.space :: a ++ Ch.space :: b ++ Ch.space :: c ++ [Ch.space]) ++ rest
  = Ch.space :: a ++ Ch.space :: b ++ Ch.space :: c ++ Ch.space :: rest.
Proof. by rewrite /= -!app_assoc /= -!app_assoc /= -!app_assoc. Qed.

Ltac word_step :=
  first [ rewrite token_word; [|by (done || vm_compute)]
        | rewrite token_word_last; [|by (done || vm_compute)] ].

(** The token command with a plain host name, port and user name. *)
Lemma credentials_command_plain (path hostname port username : str) :
  path ≠ [] → plain hostname = true → plain port = true → plain username = true →
  shlex_split (credentials_line path hostname port username)
  = Ok (credentials_args path hostname port [username]).
Proof.
  intros Hpath Hh Hp Hu. unfold shlex_split, credentials_line.
  unfold lit_hostname, lit_port, lit_username, lit_region.
  rewrite words3 !words1.
  rewrite token_quoted; [|done].
  do 10 word_step. done.
Qed.

(** The same with a user name of two words around one white space
    character of the lexer. *)
Lemma credentials_command_split (path hostname port u1 u2 : str) (ws : char) :
  path ≠ [] → plain hostname = true → plain port = true →
  plain u1 = true → plain u2 = true → char_in ws sh_whitespace = true →
  shlex_split (credentials_line path hostname port (u1 ++ ws :: u2))
  = Ok (credentials_args path hostname port [u1; u2]).
Proof.
  intros Hpath Hh Hp Hu1 Hu2 Hws. unfold shlex_split, credentials_line.
  unfold lit_hostname, lit_port, lit_username, lit_region.
  rewrite words3 !words1.
  rewrite token_quoted; [|done].
  do 7 word_step.
  rewrite -app_assoc -app_comm_cons.
  rewrite (token_word_ws u1); [|done..].
  do 3 word_step. done.
Qed.

Lemma resolved_add_trace (st st1 : state) (events : list event)
    (command path : str) :
  same_lookups st st1 → resolved st command path →
  resolved (add_trace st1 events) command path.
Proof. intros (_ & _ & Hc) [Hget Hne]. split; [by rewrite /= Hc | done]. Qed.

(** A preflight check that returned on a fresh process has written
    nothing. *)
Lemma preflight_quiet (w : world) (st : state) :
  ensure_commands (initial w) = (Ok (), st) → trace st = [] ∧ the_world st = w.
Proof.
  intros Hens.
  destruct (environ w !! py "PATH") as [value|] eqn:Hpath;
    [|by rewrite ensure_commands_unset in Hens].
  rewrite (ensure_commands_initial w value Hpath) in Hens.
  destruct (missing_descriptions w value); [|done]. by injection Hens as <-.
Qed.

(** ** The steps of the script *)

Lemma check_output_run (args : list str) (st : state) :
  check_output args st
  = let w := the_world st in
    if spawns w args then
      if ((child w args []).1 =? 0)%Z
      then (Ok (child w args []).2, add_trace st [Exec args])
      else (Raise (CalledProcessError (child w args []).1), add_trace st [Exec args])
    else (Raise OSError, add_trace st [Exec args]).
Proof.
  unfold check_output. rewrite bind_run log_run bind_run /=.
  destruct (spawns (the_world st) args); [|done].
  destruct (child (the_world st) args []) as [rc out]. simpl.
  by destruct (rc =? 0)%Z.
Qed.

Section Steps.

Variable json_loads : list N → option json.
Variable repr_other : json → list N.

(** What [print_credentials] does once [aws] is known to the table. *)
Lemma print_credentials_run (instance hostname port : json)
    (username path : str) (st : state) :
  resolved st (py "aws") path →
  getitem instance (py "Address") = Ok hostname →
  getitem instance (py "Port") = Ok port →
  ∃ st1, same_lookups st st1 ∧
    print_credentials repr_other instance username st
    = match shlex_split (credentials_line path (py_str repr_other hostname)
                           (py_str repr_other port) username) with
      | Ok args =>
          let w := the_world st in
          if spawns w args then
            if ((child w args []).1 =? 0)%Z then
              match decode (child w args []).2 with
              | Ok text =>
                  (Ok (), add_trace st1 [Exec args; Stdout (text ++ [Ch.lf])])
              | Raise e => (Raise e, add_trace st1 [Exec args])
              end
            else (Raise (CalledProcessError (child w args []).1),
                  add_trace st1 [Exec args])
          else (Raise OSError, add_trace st1 [Exec args])
      | Raise e => (Raise e, st1)
      end.
Proof.
  intros Hres Hh Hp.
  destruct (get_commands_paths_one _ _ _ Hres) as (st1 & Hpaths & Hsame).
  exists st1. split; [done|].
  unfold print_credentials.
  rewrite bind_lift Hh bind_lift Hp (bind_ok _ _ _ _ _ Hpaths).
  pose proof (credentials_format path (py_str repr_other hostname)
                (py_str repr_other port) username) as Hfmt.
  unfold credentials_kwargs in Hfmt. rewrite bind_lift Hfmt bind_lift.
  destruct (shlex_split _) as [args|e]; [|done].
  rewrite bind_run check_output_run.
  destruct Hsame as (Hw & _ & _). rewrite Hw. cbv zeta.
  destruct (spawns (the_world st) args); [|done].
  destruct (_ =? 0)%Z; [|done].
  rewrite bind_lift.
  destruct (decode _) as [text|e]; [|done].
  by rewrite /print_stdout log_run add_trace_add.
Qed.

Lemma instances_format (aws jq : str) :
  format GET_INSTANCES_SH []
    (<[py "aws" := quote (Some aws)]> {[ py "jq" := quote (Some jq) ]})
  = Ok (instances_line aws jq).
Proof.
  assert (Htpl : GET_INSTANCES_SH
    = py "sh -c '" ++ Ch.lbrace :: py "aws" ++ Ch.rbrace
      :: py " rds describe-db-instances | " ++ Ch.lbrace :: py "jq" ++ Ch.rbrace
      :: (Ch.space :: Ch.dquote :: py ".DBInstances[].Endpoint"
          ++ Ch.dquote :: py " -c'") ++ [])
    by by vm_compute.
  unfold format. rewrite Htpl.
  rewrite format_literal; [|by vm_compute].
  rewrite (format_named (py "aws") (quote (Some aws)));
    [|by py_neq|by vm_compute|by rewrite lookup_insert_eq].
  rewrite format_literal; [|by vm_compute].
  rewrite (format_named (py "jq") (quote (Some jq)));
    [|by py_neq|by vm_compute
     |by rewrite lookup_insert_ne; [rewrite lookup_singleton_eq|py_neq]].
  rewrite format_literal; [|by vm_compute].
  simpl. unfold instances_line. by rewrite app_nil_r.
Qed.

(** What [get_instances] does once [aws] and [jq] are known to the
    table. *)
Lemma get_instances_run (aws jq : str) (st : state) :
  resolved st (py "aws") aws → resolved st (py "jq") jq →
  ∃ st1, same_lookups st st1 ∧
    get_instances json_loads st
    = match shlex_split (instances_line aws jq) with
      | Ok args =>
          let w := the_world st in
          if spawns w args then
            if ((child w args []).1 =? 0)%Z then
              match decode (child w args []).2
                    ≫= λ text, mapM (loads json_loads) (splitlines text) with
              | Ok records => (Ok records, add_trace st1 [Exec args])
              | Raise e => (Raise e, add_trace st1 [Exec args])
              end
            else (Raise (CalledProcessError (child w args []).1),
                  add_trace st1 [Exec args])
          else (Raise OSError, add_trace st1 [Exec args])
      | Raise e => (Raise e, st1)
      end.
Proof.
  intros Haws Hjq.
  destruct (get_commands_paths_two st (py "aws") aws (py "jq") jq)
    as (st1 & Hpaths & Hsame); [by py_neq|done..|].
  exists st1. split; [done|].
  unfold get_instances.
  rewrite (bind_ok _ _ _ _ _ Hpaths) bind_lift instances_format bind_lift.
  destruct (shlex_split _) as [args|e]; [|done].
  rewrite bind_run check_output_run.
  destruct Hsame as (Hw & _ & _). rewrite Hw. cbv zeta.
  destruct (spawns (the_world st) args); [|done].
  destruct (_ =? 0)%Z; [|done].
  rewrite bind_lift.
  destruct (decode _) as [text|e]; [|done]. simpl.
  unfold lift. by destruct (mapM _ _).
Qed.

(** What [choose_instances] does once [fzf] is known to the table. *)
Lemma choose_instances_run (instances : list json) (path : str) (st : state) :
  resolved st (py "fzf") path →
  ∃ st1, same_lookups st st1 ∧
    choose_instances repr_other instances st
    = let w := the_world st in
      let args := fzf_args path in
      if spawns w args then
        match mapM (address_line repr_other) instances with
        | Ok lines =>
            match decode (child w args (mjoin lines)).2 with
            | Ok text =>
                (Ok (strip text), add_trace st1 (picker_events args lines))
            | Raise e => (Raise e, add_trace st1 (picker_events args lines))
            end
        | Raise e => (Raise e, add_trace st1 [Exec args])
        end
      else (Raise OSError, add_trace st1 [Exec args]).
Proof.
  intros Hres.
  destruct (get_commands_paths_one _ _ _ Hres) as (st1 & Hpaths & Hsame).
  exists st1. split; [done|].
  pose proof (fzf_command path (proj2 Hres)) as Hcmd.
  unfold choose_instances. rewrite (bind_ok _ _ _ _ _ Hpaths) bind_lift.
  destruct (format FZF_COMMAND [] _) as [command|e]; [|done].
  simpl in Hcmd. rewrite bind_lift Hcmd.
  destruct Hsame as (Hw & _ & _).
  rewrite bind_run /Popen bind_run log_run bind_run /=. rewrite Hw.
  destruct (spawns (the_world st) (fzf_args path)); [|done].
  rewrite ret_run bind_lift.
  destruct (mapM _ _) as [lines|e]; [|done].
  rewrite bind_run writelines_run add_trace_add.
  rewrite bind_run /close_wait_read bind_run log_run add_trace_add bind_run /=.
  rewrite Hw bind_lift.
  unfold picker_events.
  by destruct (decode _).
Qed.

(** A discovery that returned has started one child and left the rest of
    the state as it was. *)
Lemma get_instances_ok (aws jq : str) (st st' : state) (records : list json) :
  resolved st (py "aws") aws → resolved st (py "jq") jq →
  get_instances json_loads st = (Ok records, st') →
  ∃ args st1, same_lookups st st1 ∧ st' = add_trace st1 [Exec args].
Proof.
  intros Haws Hjq.
  destruct (get_instances_run aws jq st Haws Hjq) as (st1 & Hsame & ->).
  destruct (shlex_split _) as [args|e]; [|done]. cbv zeta.
  destruct (spawns _ _); [|done]. destruct (_ =? _)%Z; [|done].
  destruct (_ ≫= _) as [records'|e]; [|done].
  intros [= _ <-]. by exists args, st1.
Qed.

(** A selection that returned has started the picker, written to it and
    closed its input, and left the rest of the state as it was. *)
Lemma choose_instances_ok (instances : list json) (path name : str)
    (st st' : state) :
  resolved st (py "fzf") path →
  choose_instances repr_other instances st = (Ok name, st') →
  ∃ lines st1,
    same_lookups st st1 ∧ st' = add_trace st1 (picker_events (fzf_args path) lines).
Proof.
  intros Hfzf.
  destruct (choose_instances_run instances path st Hfzf) as (st1 & Hsame & ->).
  cbv zeta. destruct (spawns _ _); [|done].
  destruct (mapM _ _) as [lines|e]; [|done].
  destruct (decode _) as [text|e]; [|done].
  intros [= _ <-]. by exists lines, st1.
Qed.

End Steps.

(** ** Lookup *)

Lemma mapM_result_ok {A B} (f : A → result B) (l : list A) (ys : list B) :
  mapM f l = Ok ys → Forall2 (λ x y, f x = Ok y) l ys.
Proof.
  revert ys. induction l as [|x l IH]; intros ys; simpl.
  - intros [= <-]. constructor.
  - destruct (f x) as [y|e] eqn:Hx; [|done]. simpl.
    destruct (mapM f l) as [ys'|e]; [|done]. simpl.
    intros [= <-]. constructor; [done | by apply IH].
Qed.

Lemma mapM_result_Forall2 {A B} (f : A → result B) (l : list A) (ys : list B) :
  Forall2 (λ x y, f x = Ok y) l ys → mapM f l = Ok ys.
Proof.
  induction 1 as [|x y l ys Hx _ IH]; simpl; [done|]. by rewrite Hx /= IH.
Qed.

Lemma eq_str_true (v : json) (name : str) : eq_str v name = true ↔ v = JStr name.
Proof.
  destruct v; simpl; try (split; [done | by intros [=]]).
  rewrite bool_decide_eq_true. split; [by intros -> | by intros [= ->]].
Qed.

Lemma matching_run (instances : list json) (name : str) :
  Forall (λ r, ∃ a, getitem r (py "Address") = Ok a) instances →
  ∃ values,
    matching instances name = Ok values
    ∧ (values = [] → Forall (λ r, ¬ has_address name r) instances)
    ∧ (∀ r rest, values = r :: rest → first_match name instances r).
Proof.
  induction 1 as [|r instances [a Ha] _ (values & Hm & Hnil & Hcons)].
  - exists []. split_and!; [done | by constructor | done].
  - cbn [matching]. rewrite Ha /= Hm /=.
    destruct (eq_str a name) eqn:Heq.
    + apply eq_str_true in Heq as ->.
      exists (r :: values). split_and!; [done | done |].
      intros ? ? [= <- <-]. exists [], instances. split_and!; [done | constructor | done].
    + assert (Hr : ¬ has_address name r).
      { unfold has_address. rewrite Ha. intros [= ->].
        by rewrite (proj2 (eq_str_true _ _) eq_refl) in Heq. }
      exists values. split_and!; [done | |].
      * intros Hv. constructor; [done | by apply Hnil].
      * intros r' rest Hv.
        destruct (Hcons r' rest Hv) as (before & after & -> & Hb & Hr').
        exists (r :: before), after. split_and!; [done | by constructor | done].
Qed.

Lemma first_match_unique (name : str) (records : list json) (r1 r2 : json) :
  first_match name records r1 → first_match name records r2 → r1 = r2.
Proof.
  intros (b1 & a1 & -> & Hb1 & Hr1) (b2 & a2 & Heq & Hb2 & Hr2).
  revert b2 Heq Hb2. induction Hb1 as [|x b1 Hx _ IH]; intros b2 Heq Hb2.
  - destruct b2 as [|y b2]; [by injection Heq|].
    injection Heq as <- _. by inversion Hb2.
  - destruct b2 as [|y b2].
    + injection Heq as -> _. done.
    + injection Heq as _ Heq. inversion_clear Hb2. by eapply IH.
Qed.

Section Lookup.

Variable json_loads : list N → option json.
Variable repr_other : json → list N.

Lemma address_line_ok (instance : json) (line : bytes) :
  address_line repr_other instance = Ok line →
  ∃ a, getitem instance (py "Address") = Ok a.
Proof.
  unfold address_line. destruct (getitem instance (py "Address")) as [a|e]; [|done].
  by exists a.
Qed.

(** A selection step that returned has read an [Address] from each
    record. *)
Lemma choose_instances_ok_addresses (instances : list json) (name : str)
    (st st' : state) :
  choose_instances repr_other instances st = (Ok name, st') →
  Forall (λ r, ∃ a, getitem r (py "Address") = Ok a) instances.
Proof.
  unfold choose_instances. rewrite bind_run.
  destruct (get_commands_paths _ st) as [[paths|e] st1]; [|done].
  rewrite bind_lift. destruct (format _ _ _) as [command|e]; [|done].
  rewrite bind_lift. destruct (shlex_split _) as [args|e]; [|done].
  rewrite bind_run. destruct (Popen args st1) as [[[]|e] st2]; [|done].
  rewrite bind_lift.
  destruct (mapM _ instances) as [lines|e] eqn:Hlines; [|done].
  intros _. apply mapM_result_ok in Hlines.
  induction Hlines as [|r line rs ls Hr _ IH]; constructor; [|done].
  by eapply address_line_ok.
Qed.

(** After a selection that returned, the lookup returns exactly the first
    record whose [Address] is the selected string. *)
Lemma lookup_after_selection (instances : list json) (name : str)
    (st st' : state) (r : json) :
  choose_instances repr_other instances st = (Ok name, st') →
  lookup_instance instances name = Ok r ↔ first_match name instances r.
Proof.
  intros Hchoose.
  pose proof (choose_instances_ok_addresses _ _ _ _ Hchoose) as Haddr.
  destruct (matching_run instances name Haddr) as (values & Hm & Hnil & Hcons).
  unfold lookup_instance. rewrite Hm /=.
  destruct values as [|r' rest]; simpl.
  - split; [done|]. intros (before & after & -> & _ & Hr).
    specialize (Hnil eq_refl). apply Forall_app in Hnil as [_ Hnil].
    by inversion Hnil.
  - split.
    + intros [= <-]. by eapply Hcons.
    + intros Hr. f_equal. eapply first_match_unique; [|done]. by eapply Hcons.
Qed.

(** C1.  In a run that has come to the lookup (preflight, discovery and
    selection have returned), the lookup returns a record if and only if
    some discovered record has the selected string as its [Address]; the
    record it returns is the first such record in discovery order, and
    the run goes on to the token command with it; when no record
    matches, as for the empty string of a cancelled selection when no
    address is empty, the run ends with an unhandled [ValueError]. *)
Theorem lookup_iff_first_match (username : str) (st0 st1 st2 st3 : state)
    (instances : list json) (name : str) :
  ensure_commands st0 = (Ok (), st1) →
  get_instances json_loads st1 = (Ok instances, st2) →
  choose_instances repr_other instances st2 = (Ok name, st3) →
  ((∃ r, lookup_instance instances name = Ok r)
   ↔ Exists (has_address name) instances)
  ∧ (∀ r, lookup_instance instances name = Ok r
          ↔ first_match name instances r)
  ∧ (∀ r, first_match name instances r →
       main json_loads repr_other username st0
       = print_credentials repr_other r username st3)
  ∧ (Forall (λ r, ¬ has_address name r) instances →
       lookup_instance instances name = Raise ValueError
       ∧ main json_loads repr_other username st0 = (Raise ValueError, st3)).
Proof.
  intros Hpre Hget Hchoose.
  pose proof (choose_instances_ok_addresses _ _ _ _ Hchoose) as Haddr.
  destruct (matching_run instances name Haddr) as (values & Hm & Hnil & Hcons).
  assert (Hmain : main json_loads repr_other username st0
                  = match lookup_instance instances name with
                    | Ok r => print_credentials repr_other r username st3
                    | Raise e => (Raise e, st3)
                    end).
  { unfold main. rewrite (bind_ok _ _ _ _ _ Hpre) (bind_ok _ _ _ _ _ Hget).
    by rewrite (bind_ok _ _ _ _ _ Hchoose) bind_lift. }
  assert (Hlookup : ∀ r, lookup_instance instances name = Ok r
                         ↔ first_match name instances r).
  { intros r. by eapply lookup_after_selection. }
  split_and!.
  - split.
    + intros [r Hr]. apply Hlookup in Hr as (before & after & -> & _ & Hr).
      apply Exists_app. right. by constructor.
    + intros Hex. unfold lookup_instance. rewrite Hm /=.
      destruct values as [|r rest]; [|by eexists].
      specialize (Hnil eq_refl). apply Exists_exists in Hex as (r & Hin & Hr).
      rewrite ->Forall_forall in Hnil. by destruct (Hnil r Hin).
  - done.
  - intros r Hr. apply Hlookup in Hr. by rewrite Hmain Hr.
  - intros Hnone.
    assert (Hl : lookup_instance instances name = Raise ValueError).
    { unfold lookup_instance. rewrite Hm /=.
      destruct values as [|r rest]; [done|].
      destruct (Hcons r rest eq_refl) as (before & after & -> & _ & Hr).
      apply Forall_app in Hnone as [_ Hnone]. by inversion Hnone. }
    by rewrite Hmain Hl.
Qed.

End Lookup.

(** ** What a trace wrote *)

Lemma stdout_of_app (t1 t2 : list event) :
  stdout_of (t1 ++ t2) = stdout_of t1 ++ stdout_of t2.
Proof. unfold stdout_of. by rewrite omap_app join_app. Qed.

Lemma execs_of_app (t1 t2 : list event) :
  execs_of (t1 ++ t2) = execs_of t1 ++ execs_of t2.
Proof. unfold execs_of. by rewrite omap_app. Qed.

Lemma stdin_of_app (t1 t2 : list event) :
  stdin_of (t1 ++ t2) = stdin_of t1 ++ stdin_of t2.
Proof. unfold stdin_of. by rewrite omap_app join_app. Qed.

Lemma stdin_of_writes (lines : list bytes) :
  stdin_of (StdinWrite <$> lines) = mjoin lines.
Proof.
  unfold stdin_of. induction lines as [|line lines IH]; [done|].
  simpl in *. by rewrite IH.
Qed.

Lemma stdout_of_writes (lines : list bytes) : stdout_of (StdinWrite <$> lines) = [].
Proof. unfold stdout_of. by induction lines. Qed.

Lemma stdin_of_picker_events (args : list str) (lines : list bytes) :
  stdin_of (picker_events args lines) = mjoin lines.
Proof.
  unfold picker_events.
  change (Exec args :: ?t) with ([Exec args] ++ t).
  rewrite !stdin_of_app stdin_of_writes. simpl. by rewrite app_nil_r.
Qed.

Lemma stdout_of_picker_events (args : list str) (lines : list bytes) :
  stdout_of (picker_events args lines) = [].
Proof.
  unfold picker_events.
  change (Exec args :: ?t) with ([Exec args] ++ t).
  by rewrite !stdout_of_app stdout_of_writes.
Qed.

Section Program.

Variable json_loads : list N → option json.
Variable repr_other : json → list N.

(** *** Selection *)

(** C2, amended.  Once [fzf] has started and been sent the addresses,
    the selection step returns the picker's output, decoded, without the
    white space at its two ends, leading white space included; an
    output of white space only, or empty, gives the empty string; an
    output that is not UTF-8 raises [UnicodeDecodeError]. *)
Theorem selection_trims_both_ends (instances : list json) (path : str)
    (st : state) (lines : list bytes) :
  resolved st (py "fzf") path →
  spawns (the_world st) (fzf_args path) = true →
  mapM (address_line repr_other) instances = Ok lines →
  let output := (child (the_world st) (fzf_args path) (mjoin lines)).2 in
  (∀ text, utf8_decode output = Some text →
     ∃ name leading trailing,
       (choose_instances repr_other instances st).1 = Ok name
       ∧ text = leading ++ name ++ trailing
       ∧ all_space leading ∧ all_space trailing ∧ trimmed name
       ∧ (all_space text → name = []))
  ∧ (utf8_decode output = None →
       (choose_instances repr_other instances st).1 = Raise UnicodeDecodeError).
Proof.
  intros Hres Hspawn Hlines output.
  destruct (choose_instances_run repr_other instances path st Hres)
    as (st1 & _ & Hrun).
  rewrite Hrun. cbv zeta. rewrite Hspawn Hlines. fold output.
  unfold decode. split.
  - intros text ->. simpl.
    destruct (strip_split text) as (leading & trailing & Htext & Hl & Ht & Htrim).
    exists (strip text), leading, trailing.
    split_and!; try done. apply strip_all_space.
  - by intros ->.
Qed.

(** *** Token issuance *)

(** C3, amended.  In a run that has come to the token command: when the
    command has been built and started, has ended with status zero, and
    its output is valid UTF-8, the run ends normally and its standard
    output holds exactly that output, decoded, and one newline, nothing
    before and nothing after; written as UTF-8 this is the output byte
    for byte, followed by a newline byte. *)
Theorem token_output_is_printed (w : world) (username path name : str)
    (st1 st2 st3 : state) (instances : list json) (instance port : json)
    (args : list str) (output : bytes) (text : str) :
  ensure_commands (initial w) = (Ok (), st1) →
  get_instances json_loads st1 = (Ok instances, st2) →
  choose_instances repr_other instances st2 = (Ok name, st3) →
  lookup_instance instances name = Ok instance →
  resolved st1 (py "aws") path →
  getitem instance (py "Port") = Ok port →
  shlex_split (credentials_line path name (py_str repr_other port) username)
  = Ok args →
  spawns w args = true →
  child w args [] = (0%Z, output) →
  utf8_decode output = Some text →
  ∃ st',
    main json_loads repr_other username (initial w) = (Ok (), st')
    ∧ exit_status (main json_loads repr_other username (initial w)).1 = 0%Z
    ∧ trace st' = trace st3 ++ [Exec args; Stdout (text ++ [Ch.lf])]
    ∧ stdout_of (trace st') = text ++ [Ch.lf]
    ∧ utf8_encode (stdout_of (trace st')) = Some (output ++ [newline_byte]).
Proof.
  intros Hpre Hget Hchoose Hlookup Haws Hport Hargs Hspawn Hchild Htext.
  destruct (preflight_quiet w st1 Hpre) as [Ht1 Hw1].
  destruct (preflight_resolved w st1 (py "jq") Hpre) as [jq Hjq];
    [apply (bool_decide_unpack _); by vm_compute|].
  destruct (preflight_resolved w st1 (py "fzf") Hpre) as [fzf Hfzf];
    [apply (bool_decide_unpack _); by vm_compute|].
  destruct (get_instances_ok json_loads path jq st1 st2 instances Haws Hjq Hget)
    as (args1 & st1' & Hsame1 & ->).
  destruct (choose_instances_ok repr_other instances fzf name _ st3
              (resolved_add_trace _ _ _ _ _ Hsame1 Hfzf) Hchoose)
    as (lines & st2' & Hsame2 & ->).
  pose proof (resolved_add_trace _ _ [Exec args1] _ _ Hsame1 Haws) as Haws2.
  pose proof (resolved_add_trace _ _ (picker_events (fzf_args fzf) lines) _ _
                Hsame2 Haws2) as Haws3.
  pose proof (proj1 (lookup_after_selection repr_other _ _ _ _ _ Hchoose) Hlookup)
    as (before & after & _ & _ & Haddress).
  set (st3 := add_trace st2' (picker_events (fzf_args fzf) lines)) in *.
  destruct (print_credentials_run repr_other instance (JStr name) port username
              path st3 Haws3 Haddress Hport) as (st4 & (Hw4 & Ht4 & _) & Hrun).
  assert (Hworld : the_world st3 = w).
  { destruct Hsame1 as (Hwa & _ & _). destruct Hsame2 as (Hwb & _ & _).
    change (the_world st3) with (the_world st2'). rewrite Hwb.
    change (the_world (add_trace st1' [Exec args1])) with (the_world st1').
    by rewrite Hwa. }
  assert (Hmain : main json_loads repr_other username (initial w)
                  = print_credentials repr_other instance username st3).
  { unfold main. rewrite (bind_ok _ _ _ _ _ Hpre) (bind_ok _ _ _ _ _ Hget).
    by rewrite (bind_ok _ _ _ _ _ Hchoose) bind_lift Hlookup. }
  assert (Hquiet : stdout_of (trace st3) = []).
  { destruct Hsame1 as (_ & Hta & _). destruct Hsame2 as (_ & Htb & _).
    change (trace st3) with (trace st2' ++ picker_events (fzf_args fzf) lines).
    rewrite stdout_of_app stdout_of_picker_events Htb.
    change (trace (add_trace st1' [Exec args1])) with (trace st1' ++ [Exec args1]).
    by rewrite stdout_of_app Hta Ht1. }
  rewrite Hmain Hrun Hargs. cbv zeta. rewrite Hworld Hspawn Hchild.
  cbn [fst snd Z.eqb]. rewrite /decode Htext.
  assert (Hout : stdout_of (trace st4 ++ [Exec args; Stdout (text ++ [Ch.lf])])
                 = text ++ [Ch.lf]).
  { rewrite stdout_of_app Ht4 Hquiet /= /stdout_of /=. by rewrite app_nil_r. }
  eexists. split; [done|]. split; [done|].
  simpl. split; [by rewrite Ht4|]. split; [done|].
  rewrite Hout. apply utf8_encode_app; [by apply utf8_roundtrip | done].
Qed.

(** C10, amended.  The user name is put into the command string as it
    is, and the string is then split into words as a shell would.  For
    a record with a plain host name and an integer port: a user name
    that is not empty and has no space, tab, carriage return, newline,
    quote or backslash is the one argument after [--username]; a user
    name made of two such words around one of those white space
    characters becomes two arguments. *)
Theorem username_is_split_into_words (instance : json) (hostname : str)
    (port : Z) (path : str) (st : state) :
  resolved st (py "aws") path →
  getitem instance (py "Address") = Ok (JStr hostname) →
  getitem instance (py "Port") = Ok (JInt port) →
  plain hostname = true →
  (∀ username,
     format GET_CREDENTIALS_COMMAND []
       (credentials_kwargs path hostname (str_of_int port) username)
     = Ok (quote (Some path) ++ lit_hostname ++ hostname ++ lit_port
           ++ str_of_int port ++ lit_username ++ username ++ lit_region))
  ∧ (∀ username,
       plain username = true →
       execs_of (trace (print_credentials repr_other instance username st).2)
       = execs_of (trace st)
         ++ [credentials_args path hostname (str_of_int port) [username]])
  ∧ (∀ u1 u2 ws,
       plain u1 = true → plain u2 = true → char_in ws sh_whitespace = true →
       execs_of (trace (print_credentials repr_other instance (u1 ++ ws :: u2) st).2)
       = execs_of (trace st)
         ++ [credentials_args path hostname (str_of_int port) [u1; u2]]).
Proof.
  intros Hres Hh Hp Hplain.
  assert (Hexec : ∀ username args,
    shlex_split (credentials_line path hostname (str_of_int port) username)
    = Ok args →
    execs_of (trace (print_credentials repr_other instance username st).2)
    = execs_of (trace st) ++ [args]).
  { intros username args Hargs.
    destruct (print_credentials_run repr_other instance _ _ username
                path st Hres Hh Hp) as (st1 & (Hw & Ht & _) & Hrun).
    rewrite Hrun /= Hargs. cbv zeta.
    destruct (spawns _ _); [|by rewrite /= Ht execs_of_app].
    destruct (_ =? _)%Z; [|by rewrite /= Ht execs_of_app].
    destruct (decode _); by rewrite /= Ht execs_of_app. }
  split_and!.
  - intros username. apply credentials_format.
  - intros username Hu. apply Hexec.
    apply credentials_command_plain; try done.
    + apply Hres.
    + apply str_of_int_plain.
  - intros u1 u2 ws Hu1 Hu2 Hws. apply Hexec.
    apply credentials_command_split; try done.
    + apply Hres.
    + apply str_of_int_plain.
Qed.

(** *** Discovery and what the picker is sent *)

Lemma loads_all (lines : list str) :
  Forall (λ line, is_Some (json_loads line)) lines →
  ∃ records,
    Forall2 (λ line record, json_loads line = Some record) lines records
    ∧ mapM (loads json_loads) lines = Ok records.
Proof.
  induction 1 as [|line lines [record Hline] _ (records & Hall & Hmap)].
  - by exists [].
  - exists (record :: records). split; [by constructor|].
    by rewrite /= /loads Hline /= Hmap.
Qed.

Lemma address_line_encoded (record : json) (encoded : bytes) :
  address_encodes repr_other record encoded →
  address_line repr_other record = Ok (encoded ++ [newline_byte]).
Proof.
  intros (address & Ha & Henc). unfold address_line.
  rewrite Ha /= format_line /= /encode.
  by rewrite (utf8_encode_app _ [Ch.lf] encoded [newline_byte] Henc).
Qed.

(** C5, amended.  Let the discovery command end with status zero and
    print, in UTF-8, lines that each end in a newline, hold no other
    line boundary of [str.splitlines] (carriage return, vertical tab,
    form feed, U+001C to U+001E, U+0085, U+2028, U+2029) and parse as
    JSON.  Then discovery yields one record per line, the k-th record
    being the parse of the k-th line.  When moreover every record is an
    object with an [Address] whose text UTF-8 can encode, the selection
    step sends the picker exactly these addresses, each followed by a
    newline, in the same order, and nothing for no record. *)
Theorem discovery_order_reaches_the_picker (aws jq fzf : str) (st : state)
    (args : list str) (output : bytes) (lines : list str) :
  resolved st (py "aws") aws → resolved st (py "jq") jq →
  resolved st (py "fzf") fzf →
  shlex_split (instances_line aws jq) = Ok args →
  spawns (the_world st) args = true →
  child (the_world st) args [] = (0%Z, output) →
  utf8_decode output = Some (mjoin ((λ line, line ++ [Ch.lf]) <$> lines)) →
  Forall no_linebreak lines →
  Forall (λ line, is_Some (json_loads line)) lines →
  ∃ records st1,
    get_instances json_loads st = (Ok records, st1)
    ∧ Forall2 (λ line record, json_loads line = Some record) lines records
    ∧ trace st1 = trace st ++ [Exec args]
    ∧ ∀ encoded,
        Forall2 (address_encodes repr_other) records encoded →
        spawns (the_world st) (fzf_args fzf) = true →
        let written := (λ b, b ++ [newline_byte]) <$> encoded in
        trace (choose_instances repr_other records st1).2
        = trace st1 ++ picker_events (fzf_args fzf) written
        ∧ stdin_of (trace (choose_instances repr_other records st1).2)
          = stdin_of (trace st) ++ mjoin written.
Proof.
  intros Haws Hjq Hfzf Hargs Hspawn Hchild Htext Hlines Hjson.
  destruct (get_instances_run json_loads aws jq st Haws Hjq)
    as (st1 & Hsame & Hrun).
  destruct (loads_all lines Hjson) as (records & Hall & Hmap).
  exists records, (add_trace st1 [Exec args]).
  pose proof Hsame as (Hw & Ht & Hc).
  split_and!.
  - rewrite Hrun Hargs. cbv zeta. rewrite Hspawn Hchild /= /decode Htext /=.
    by rewrite splitlines_terminated // Hmap.
  - done.
  - simpl. by rewrite Ht.
  - intros encoded Henc Hspawn' written.
    assert (Hres : resolved (add_trace st1 [Exec args]) (py "fzf") fzf).
    { destruct Hfzf as [Hget Hne]. split; [|done]. simpl. by rewrite Hc. }
    destruct (choose_instances_run repr_other records fzf _ Hres)
      as (st2 & (Hw2 & Ht2 & _) & Hrun2).
    rewrite Hrun2. cbv zeta. simpl the_world. rewrite Hw Hspawn'.
    assert (Hwritten : mapM (address_line repr_other) records = Ok written).
    { apply mapM_result_Forall2. unfold written.
      apply Forall2_fmap_r. eapply Forall2_impl; [exact Henc|].
      intros record b. apply address_line_encoded. }
    rewrite Hwritten.
    assert (Htrace : ∀ r : result (list N),
      trace (match r with
             | Ok text =>
                 (Ok (strip text), add_trace st2 (picker_events (fzf_args fzf) written))
             | Raise e =>
                 (Raise e, add_trace st2 (picker_events (fzf_args fzf) written))
             end).2
      = trace (add_trace st1 [Exec args]) ++ picker_events (fzf_args fzf) written).
    { intros r. destruct r; by rewrite /= Ht2. }
    rewrite Htrace. split; [done|].
    rewrite stdin_of_app stdin_of_picker_events /= Ht stdin_of_app /=.
    by rewrite app_nil_r.
Qed.

End Program.

(** * Further properties of the script *)

(** ** The [__main__] block *)

Section Entry.

Variable json_loads : list N → option json.
Variable repr_other : json → list N.

(** X1.  Called with no argument after the program name, the script
    writes the usage message with the program name in it, as given, to
    the error stream, ends with exit status 1, and does nothing else: no
    tool is looked up and no child is started. *)
Theorem script_without_username (argv0 : str) (st : state) :
  script json_loads repr_other [argv0] st
  = (Raise (SystemExit 1), add_trace st [Stderr (usage_message argv0)])
  ∧ exit_status (script json_loads repr_other [argv0] st).1 = 1%Z
  ∧ which_cache (script json_loads repr_other [argv0] st).2 = which_cache st
  ∧ execs_of (trace (script json_loads repr_other [argv0] st).2)
    = execs_of (trace st).
Proof.
  assert (Hfmt : format (py "You must specify a username e.g.: {} username")
                   [argv0] ∅
                 = Ok (py "You must specify a username e.g.: " ++ argv0
                       ++ py " username")).
  { assert (Htpl : py "You must specify a username e.g.: {} username"
                   = py "You must specify a username e.g.: "
                     ++ Ch.lbrace :: Ch.rbrace :: py " username" ++ [])
      by by vm_compute.
    unfold format. rewrite Htpl.
    rewrite format_literal; [|by vm_compute].
    rewrite format_positional format_literal; [|by vm_compute].
    simpl. by rewrite app_nil_r. }
  assert (Hrun : script json_loads repr_other [argv0] st
                 = (Raise (SystemExit 1), add_trace st [Stderr (usage_message argv0)])).
  { unfold script. rewrite bind_lift Hfmt bind_run /print_stderr log_run.
    unfold usage_message. by rewrite -!app_assoc. }
  rewrite Hrun. split_and!; try done.
  simpl. rewrite execs_of_app. simpl. by rewrite app_nil_r.
Qed.

End Entry.

(** ** Preflight, tool by tool *)

Lemma resolve_none_iff (w : world) (value command : str) :
  command ≠ [] →
  truthy (resolve w value command) = false
  ↔ nowhere w (split Ch.colon value) command.
Proof.
  intros Hne. unfold resolve, nowhere. split.
  - intros Hfalse.
    destruct (search_cases w (split Ch.colon value) command)
      as [(before & dir & after & Hd & Hb & Hdir)|Hnone]; [|done].
    rewrite Hd search_first in Hfalse; [|done..].
    pose proof (path_join_nonempty dir command Hne).
    by destruct (path_join dir command).
  - intros Hnone. by rewrite search_none.
Qed.

(** X2.  On a fresh process with [PATH] set, the preflight check reports
    exactly the required tools that have no entry in any directory of
    [PATH], by their descriptions, in the order [aws], [fzf], [jq], and
    ends with exit status 1; when every tool has an entry it returns
    without a message. *)
Theorem preflight_reports_the_missing_tools (w : world) (value : str) :
  environ w !! py "PATH" = Some value →
  ∃ missing,
    (∀ command description,
       (command, description) ∈ REQUIRED_COMMANDS →
       description ∈ missing ↔ nowhere w (split Ch.colon value) command)
    ∧ sublist missing (snd <$> REQUIRED_COMMANDS)
    ∧ (ensure_commands (initial w)).1
      = (if bool_decide (missing = []) then Ok () else Raise (SystemExit 1))
    ∧ trace (ensure_commands (initial w)).2
      = (if bool_decide (missing = []) then []
         else [Stderr (missing_message missing)]).
Proof.
  intros Hpath. exists (missing_descriptions w value). split_and!.
  - intros command description Hin.
    assert (Hne : command ≠ []).
    { apply required_names_nonempty. apply list_elem_of_fmap.
      by exists (command, description). }
    rewrite -(resolve_none_iff w value command Hne).
    unfold missing_descriptions. split.
    + intros Hd. apply list_elem_of_fmap in Hd as ([c d] & Hd & Hitem).
      simpl in Hd. subst d.
      apply list_elem_of_filter in Hitem as [Hfalse Hitem]. simpl in Hfalse.
      by rewrite (same_description command c description Hin Hitem).
    + intros Hfalse. apply list_elem_of_fmap. exists (command, description).
      split; [done|]. by apply list_elem_of_filter.
  - unfold missing_descriptions. apply fmap_sublist, sublist_filter.
  - rewrite (ensure_commands_initial w value Hpath).
    by destruct (missing_descriptions w value).
  - rewrite (ensure_commands_initial w value Hpath).
    by destruct (missing_descriptions w value).
Qed.

(** ** Quoted paths *)

Lemma read_word_end (tok : str) (e : sh_state) (q : bool) :
  read_tokens Sh_word e q tok [] = emit tok q (Ok []).
Proof. reflexivity. Qed.

(** A quoted path reads back as the one word it was made from. *)
Lemma quote_reads_back (p : str) :
  p ≠ [] → shlex_split (quote (Some p)) = Ok [p].
Proof.
  intros Hne. unfold shlex_split.
  destruct (forallb is_safe p) eqn:Hsafe.
  - rewrite quote_safe; [|done..]. apply token_word_last.
    unfold plain. apply andb_true_iff. split; [by destruct p|].
    eapply forallb_weaken; [|done]. apply is_safe_plain.
  - rewrite quote_unsafe; [|done..].
    rewrite read_open_quote.
    rewrite (read_quoted_body p [] [] Sh_space false). simpl.
    unfold emit. by simpl.
Qed.

Lemma list_to_map_tabulate (g : str → str) (l : list str) (k : str) :
  (list_to_map ((λ c, (c, g c)) <$> l) : gmap str str) !! k
  = if bool_decide (k ∈ l) then Some (g k) else None.
Proof.
  induction l as [|c l IH]; simpl.
  - by rewrite lookup_empty.
  - destruct (decide (c = k)) as [->|Hne].
    + rewrite lookup_insert_eq. rewrite bool_decide_eq_true_2; [done|].
      by left.
    + rewrite lookup_insert_ne; [|done]. rewrite IH.
      destruct (decide (k ∈ l)) as [Hin|Hnin].
      * rewrite !bool_decide_eq_true_2; [done| by right | done].
      * rewrite !bool_decide_eq_false_2; [done| |done].
        intros [->|Hin]%elem_of_cons; done.
Qed.

Lemma which_each (commands : list str) (st : state) :
  Forall (λ command, ∃ path, resolved st command path) commands →
  ∃ st',
    mapM (λ command, which command ≫= λ r, mret (command, quote r))
      commands st
    = (Ok ((λ command, (command, quote (cached st command))) <$> commands), st')
    ∧ same_lookups st st'.
Proof.
  revert st. induction commands as [|c commands IH]; intros st Hall.
  - exists st. split; [done|]. apply same_lookups_refl.
  - apply Forall_cons in Hall as [[path Hres] Hall].
    destruct (which_resolved _ _ _ Hres) as (st1 & Hwhich & Hsame1).
    destruct (IH st1) as (st2 & Hrest & Hsame2).
    { eapply Forall_impl; [done|]. intros c' [p' Hres'].
      exists p'. by eapply resolved_same. }
    exists st2. split; [|by eapply same_lookups_trans].
    cbn [mapM]. rewrite !bind_run Hwhich /= !bind_run Hrest /=.
    unfold mret, M_ret. do 3 f_equal.
    + unfold cached. destruct Hres as [-> _]. done.
    + apply list_fmap_ext. intros _ c' _. unfold cached.
      destruct Hsame1 as (_ & _ & ->). done.
Qed.

(** X3.  For any list of commands whose paths are in the memo table,
    [get_commands_paths] returns a dictionary whose keys are exactly the
    commands and whose value for each command is its path in shell
    quoting, a string that reads back as that one path; no child is
    started and the memo table answers as before. *)
Theorem get_commands_paths_quotes_each_path
    (commands paths : list str) (st : state) :
  Forall2 (resolved st) commands paths →
  ∃ m st',
    get_commands_paths commands st = (Ok m, st')
    ∧ same_lookups st st'
    ∧ (∀ command, is_Some (m !! command) ↔ command ∈ commands)
    ∧ Forall2 (λ command path,
                 m !! command = Some (quote (Some path))
                 ∧ shlex_split (quote (Some path)) = Ok [path])
        commands paths.
Proof.
  intros Hall.
  destruct (which_each commands st) as (st' & Hitems & Hsame).
  { clear -Hall. induction Hall; constructor; eauto. }
  eexists _, st'. split_and!.
  - unfold get_commands_paths. rewrite bind_run Hitems. reflexivity.
  - done.
  - intros command. rewrite -fmap_reverse list_to_map_tabulate.
    case_bool_decide as Hin; rewrite elem_of_reverse in Hin.
    + split; [done|]. by eexists.
    + split; [by intros [? ?]|done].
  - eapply Forall2_impl; [apply Forall2_same_length_lookup_2|].
    + by eapply Forall2_length.
    + intros i command path Hc Hp. instantiate (1 := λ command path,
        command ∈ commands ∧ resolved st command path).
      split; [by eapply list_elem_of_lookup_2|].
      by eapply Forall2_lookup_lr.
    + intros command path [Hin [Hget Hne]]. split.
      * rewrite -fmap_reverse list_to_map_tabulate.
        rewrite bool_decide_eq_true_2; [|by apply elem_of_reverse].
        unfold cached. by rewrite Hget.
      * by apply quote_reads_back.
Qed.

(** X4.  A command that has no entry in any directory of [PATH] does not
    make [get_commands_paths] fail: [which] answers [None], and the
    dictionary holds for it the quoted empty word, two single quotes,
    which the shell word splitter reads as one empty word. *)
Theorem get_commands_paths_of_a_missing_command
    (command value : str) (st : state) :
  cache_get command (which_cache st) = None →
  environ (the_world st) !! py "PATH" = Some value →
  nowhere (the_world st) (split Ch.colon value) command →
  (get_commands_paths [command] st).1
  = Ok {[ command := [Ch.squote; Ch.squote] ]}
  ∧ trace (get_commands_paths [command] st).2 = trace st
  ∧ shlex_split [Ch.squote; Ch.squote] = Ok [[]].
Proof.
  intros Hmiss Hpath Hnone.
  pose proof (which_miss command st value Hmiss Hpath) as Hwhich.
  rewrite search_none in Hwhich; [|done]. simpl in Hwhich.
  unfold get_commands_paths. cbn [mapM].
  rewrite !bind_run Hwhich /=. by split_and!.
Qed.

(** ** The picker's command line *)

Lemma execs_of_writes (lines : list bytes) :
  execs_of (StdinWrite <$> lines) = [].
Proof. by induction lines. Qed.

Lemma stderr_of_app (t1 t2 : list event) :
  stderr_of (t1 ++ t2) = stderr_of t1 ++ stderr_of t2.
Proof. unfold stderr_of. by rewrite omap_app join_app. Qed.

Lemma stderr_of_writes (lines : list bytes) :
  stderr_of (StdinWrite <$> lines) = [].
Proof. by induction lines. Qed.

Lemma silent_input (lines : list bytes) :
  silent ((StdinWrite <$> lines) ++ [StdinClose]).
Proof.
  unfold silent.
  rewrite execs_of_app stdout_of_app stderr_of_app.
  by rewrite execs_of_writes stdout_of_writes stderr_of_writes.
Qed.

Section Picker.

Variable repr_other : json → list N.

(** X5.  Whatever characters the resolved path of [fzf] holds, the
    selection step starts exactly one child, whose argument vector is
    that path as one word, then [--header] and the header text; the
    events that follow start nothing and print nothing. *)
Theorem picker_is_started_with_the_resolved_path
    (instances : list json) (path : str) (st : state) :
  resolved st (py "fzf") path →
  ∃ events,
    trace (choose_instances repr_other instances st).2
    = trace st ++ Exec (fzf_args path) :: events
    ∧ silent events
    ∧ execs_of (trace (choose_instances repr_other instances st).2)
      = execs_of (trace st) ++ [fzf_args path].
Proof.
  intros Hres.
  destruct (choose_instances_run repr_other instances path st Hres)
    as (st1 & (_ & Ht & _) & Hrun).
  assert (Hshape : ∃ events,
    trace (choose_instances repr_other instances st).2
    = trace st ++ Exec (fzf_args path) :: events ∧ silent events).
  { rewrite Hrun. cbv zeta.
    destruct (spawns _ _); [|by exists []; rewrite /= Ht].
    destruct (mapM _ _) as [lines|e]; [|by exists []; rewrite /= Ht].
    exists ((StdinWrite <$> lines) ++ [StdinClose]).
    split; [|apply silent_input].
    by destruct (decode _); rewrite /= Ht. }
  destruct Hshape as (events & Htrace & Hsilent).
  exists events. split_and!; [done..|].
  rewrite Htrace execs_of_app. simpl. by destruct Hsilent as (-> & _).
Qed.

End Picker.

(** ** The discovery command line *)

Lemma read_squoted_body (body tok rest : str) (e : sh_state) (q : bool) :
  no_squote body = true →
  read_tokens (Sh_quote Ch.squote) e q tok (body ++ Ch.squote :: rest)
  = read_tokens Sh_word e true (tok ++ body) rest.
Proof.
  revert tok q. induction body as [|c body IH]; intros tok q Hbody.
  - by rewrite app_nil_r.
  - simpl in Hbody. apply andb_prop in Hbody as [Hc Hbody].
    apply negb_true_iff in Hc. simpl. rewrite Hc andb_false_r IH; [|done].
    by rewrite -app_assoc.
Qed.

Lemma safe_no_squote (p : str) : forallb is_safe p = true → no_squote p = true.
Proof.
  apply forallb_weaken. intros c Hc.
  destruct (N.eqb_spec c Ch.squote) as [->|Hne]; [|done].
  by vm_compute in Hc.
Qed.

Lemma no_squote_app (s t : str) :
  no_squote s = true → no_squote t = true → no_squote (s ++ t) = true.
Proof. unfold no_squote. rewrite forallb_app. by intros -> ->. Qed.

Lemma discovery_script_no_squote (aws jq : str) :
  no_squote aws = true → no_squote jq = true →
  no_squote (discovery_script aws jq) = true.
Proof.
  intros Haws Hjq. unfold discovery_script.
  apply no_squote_app; [done|]. apply no_squote_app; [by vm_compute|].
  apply no_squote_app; [done|]. by vm_compute.
Qed.

Lemma safe_plain (p : str) :
  p ≠ [] → forallb is_safe p = true → plain p = true.
Proof.
  intros Hne Hsafe. unfold plain. apply andb_true_iff.
  split; [by destruct p|]. eapply forallb_weaken; [|done]. apply is_safe_plain.
Qed.

Lemma replace_char_absent (new p : str) :
  no_squote p = true → replace_char Ch.squote new p = p.
Proof.
  induction p as [|c p IH]; [done|]. simpl.
  intros [Hc Hp]%andb_prop. apply negb_true_iff in Hc.
  unfold replace_char. rewrite fmap_cons /= -/(replace_char _ _ p) Hc IH; done.
Qed.

(** The command line of discovery, from the word [sh] on. *)
Lemma instances_line_words (aws jq : str) :
  instances_line aws jq
  = py "sh" ++ Ch.space :: py "-c" ++ Ch.space :: Ch.squote
    :: quote (Some aws) ++ py " rds describe-db-instances | " ++ quote (Some jq)
    ++ (Ch.space :: Ch.dquote :: py ".DBInstances[].Endpoint"
        ++ Ch.dquote :: py " -c") ++ [Ch.squote].
Proof.
  unfold instances_line.
  assert (H1 : py "sh -c '" = py "sh" ++ Ch.space :: py "-c" ++ [Ch.space; Ch.squote])
    by by vm_compute.
  assert (H2 : py " -c'" = py " -c" ++ [Ch.squote]) by by vm_compute.
  rewrite H1 H2. rewrite -!app_assoc. simpl. by rewrite -!app_assoc.
Qed.

Lemma discovery_words_safe (aws jq : str) :
  aws ≠ [] → jq ≠ [] →
  forallb is_safe aws = true → forallb is_safe jq = true →
  shlex_split (instances_line aws jq)
  = Ok [py "sh"; py "-c"; discovery_script aws jq].
Proof.
  intros Ha Hj Hsa Hsj.
  rewrite instances_line_words !quote_safe; [|done..].
  unfold shlex_split.
  rewrite token_word; [|by vm_compute]. rewrite token_word; [|by vm_compute].
  rewrite read_open_quote.
  assert (Hbody : aws ++ py " rds describe-db-instances | " ++ jq
                  ++ (Ch.space :: Ch.dquote :: py ".DBInstances[].Endpoint"
                      ++ Ch.dquote :: py " -c") ++ [Ch.squote]
                  = discovery_script aws jq ++ Ch.squote :: []).
  { unfold discovery_script. by rewrite -!app_assoc. }
  rewrite Hbody read_squoted_body;
    [|by apply discovery_script_no_squote; apply safe_no_squote].
  by rewrite read_word_end.
Qed.

Lemma discovery_words_space (d1 d2 jq : str) :
  d1 ≠ [] → d2 ≠ [] → jq ≠ [] →
  forallb is_safe d1 = true → forallb is_safe d2 = true →
  forallb is_safe jq = true →
  shlex_split (instances_line (d1 ++ Ch.space :: d2) jq)
  = Ok [py "sh"; py "-c"; d1; discovery_script d2 jq].
Proof.
  intros H1 H2 Hj Hs1 Hs2 Hsj.
  rewrite instances_line_words (quote_safe jq); [|done..].
  rewrite quote_unsafe; [|by destruct d1|].
  2:{ rewrite forallb_app /=. by rewrite andb_false_r. }
  rewrite replace_char_absent.
  2:{ apply no_squote_app; [by apply safe_no_squote|].
      simpl. by rewrite (safe_no_squote d2). }
  unfold shlex_split.
  rewrite token_word; [|by vm_compute]. rewrite token_word; [|by vm_compute].
  rewrite read_open_quote.
  change (read_tokens (Sh_quote Ch.squote) Sh_space false []
            ((Ch.squote :: (d1 ++ Ch.space :: d2) ++ [Ch.squote]) ++ ?t))
    with (read_tokens Sh_word Sh_space true []
            (((d1 ++ Ch.space :: d2) ++ [Ch.squote]) ++ t)).
  rewrite -!app_assoc.
  rewrite read_word_chars;
    [|by eapply forallb_weaken; [apply is_safe_plain|]].
  cbn [app]. rewrite read_quoted_end.
  rewrite read_word_start; [|by apply safe_plain].
  change (read_tokens Sh_word Sh_space false d2 (Ch.squote :: ?t))
    with (read_tokens (Sh_quote Ch.squote) Sh_space false d2 t).
  assert (Hbody : py " rds describe-db-instances | " ++ jq
                  ++ Ch.space :: Ch.dquote :: py ".DBInstances[].Endpoint"
                  ++ Ch.dquote :: py " -c" ++ [Ch.squote]
                  = (py " rds describe-db-instances | " ++ jq
                     ++ Ch.space :: Ch.dquote :: py ".DBInstances[].Endpoint"
                     ++ Ch.dquote :: py " -c") ++ Ch.squote :: []).
  { by rewrite -!app_assoc. }
  rewrite Hbody read_squoted_body.
  2:{ apply no_squote_app; [by vm_compute|].
      apply no_squote_app; [by apply safe_no_squote|]. by vm_compute. }
  by rewrite read_word_end.
Qed.

Section Discovery.

Variable json_loads : list N → option json.

Lemma get_instances_trace (aws jq : str) (args : list str) (st : state) :
  resolved st (py "aws") aws → resolved st (py "jq") jq →
  shlex_split (instances_line aws jq) = Ok args →
  trace (get_instances json_loads st).2 = trace st ++ [Exec args].
Proof.
  intros Haws Hjq Hargs.
  destruct (get_instances_run json_loads aws jq st Haws Hjq)
    as (st1 & (_ & Ht & _) & Hrun).
  rewrite Hrun Hargs. cbv zeta.
  destruct (spawns _ _); [|by rewrite /= Ht].
  destruct (_ =? _)%Z; [|by rewrite /= Ht].
  by destruct (_ ≫= _); rewrite /= Ht.
Qed.

(** X6.  When the resolved paths of [aws] and [jq] hold only characters
    that need no shell quoting, discovery starts one child, [sh -c] with
    one script: the [aws] path, [rds describe-db-instances], a pipe, the
    [jq] path, the filter [".DBInstances[].Endpoint"] and [-c]. *)
Theorem discovery_runs_one_shell_pipeline (aws jq : str) (st : state) :
  resolved st (py "aws") aws → resolved st (py "jq") jq →
  forallb is_safe aws = true → forallb is_safe jq = true →
  trace (get_instances json_loads st).2
  = trace st ++ [Exec [py "sh"; py "-c"; discovery_script aws jq]].
Proof.
  intros Haws Hjq Hsa Hsj.
  apply (get_instances_trace aws jq); [done..|].
  apply discovery_words_safe; [apply Haws|apply Hjq|done..].
Qed.

(** X7.  The placeholders of the discovery command sit inside single
    quotes, so a quoted path ends the quotation instead of being
    protected by it: when the resolved path of [aws] holds one space,
    between two parts that need no quoting, the child is [sh -c] with
    the first part alone as its script, and the second part joined to
    the rest of the pipeline as a further argument. *)
Theorem discovery_with_a_space_in_the_aws_path
    (d1 d2 jq : str) (st : state) :
  resolved st (py "aws") (d1 ++ Ch.space :: d2) → resolved st (py "jq") jq →
  d1 ≠ [] → d2 ≠ [] →
  forallb is_safe d1 = true → forallb is_safe d2 = true →
  forallb is_safe jq = true →
  trace (get_instances json_loads st).2
  = trace st ++ [Exec [py "sh"; py "-c"; d1; discovery_script d2 jq]].
Proof.
  intros Haws Hjq H1 H2 Hs1 Hs2 Hsj.
  apply (get_instances_trace (d1 ++ Ch.space :: d2) jq); [done..|].
  apply discovery_words_space; [done|done|apply Hjq|done..].
Qed.

End Discovery.

(** ** Failures of the two commands whose output is captured *)

Lemma mapM_loads_fails (json_loads : list N → option json) (lines : list str) :
  Exists (λ line, json_loads line = None) lines →
  mapM (loads json_loads) lines = Raise JSONDecodeError.
Proof.
  induction 1 as [line lines Hline|line lines _ IH]; cbn [mapM].
  - by rewrite /loads Hline.
  - rewrite IH /loads. by destruct (json_loads line).
Qed.

Lemma mapM_loads_all (json_loads : list N → option json) (lines : list str) :
  Forall (λ line, is_Some (json_loads line)) lines →
  ∃ records,
    mapM (loads json_loads) lines = Ok records
    ∧ Forall2 (λ line record, json_loads line = Some record) lines records.
Proof.
  induction 1 as [|line lines [record Hline] _ (records & IH & Hall)].
  - by exists [].
  - exists (record :: records). cbn [mapM]. rewrite IH /loads Hline.
    split; [done|]. by constructor.
Qed.

Section Captured.

Variable json_loads : list N → option json.
Variable repr_other : json → list N.

(** X8.  Discovery succeeds or fails as a whole.  Once its child has
    started: a non-zero exit status raises [CalledProcessError] with
    that status; output that is not UTF-8 raises [UnicodeDecodeError];
    one line that is not JSON raises [JSONDecodeError], whatever the
    other lines hold; otherwise the result is the parse of every line
    of [str.splitlines], in order.  In each case this child is the only
    one started and nothing is printed. *)
Theorem discovery_fails_as_a_whole (aws jq : str) (args : list str)
    (st : state) :
  resolved st (py "aws") aws → resolved st (py "jq") jq →
  shlex_split (instances_line aws jq) = Ok args →
  spawns (the_world st) args = true →
  let status := (child (the_world st) args []).1 in
  let output := (child (the_world st) args []).2 in
  let result := (get_instances json_loads st).1 in
  (status ≠ 0%Z → result = Raise (CalledProcessError status))
  ∧ (status = 0%Z → utf8_decode output = None →
       result = Raise UnicodeDecodeError)
  ∧ (∀ text, status = 0%Z → utf8_decode output = Some text →
       Exists (λ line, json_loads line = None) (splitlines text) →
       result = Raise JSONDecodeError)
  ∧ (∀ text, status = 0%Z → utf8_decode output = Some text →
       Forall (λ line, is_Some (json_loads line)) (splitlines text) →
       ∃ records,
         result = Ok records
         ∧ Forall2 (λ line record, json_loads line = Some record)
             (splitlines text) records)
  ∧ trace (get_instances json_loads st).2 = trace st ++ [Exec args].
Proof.
  intros Haws Hjq Hargs Hspawn status output result.
  destruct (get_instances_run json_loads aws jq st Haws Hjq)
    as (st1 & _ & Hrun).
  assert (Hresult : result
    = if (status =? 0)%Z
      then decode output ≫= λ text, mapM (loads json_loads) (splitlines text)
      else Raise (CalledProcessError status)).
  { unfold result. rewrite Hrun Hargs. cbv zeta. rewrite Hspawn.
    fold status output. destruct (status =? 0)%Z; [|done].
    by destruct (_ ≫= _). }
  rewrite Hresult. unfold decode. split_and!.
  - intros Hne. apply Z.eqb_neq in Hne. by rewrite Hne.
  - by intros -> ->.
  - intros text -> -> Hbad. simpl. by apply mapM_loads_fails.
  - intros text -> -> Hall. simpl. by apply mapM_loads_all.
  - by apply (get_instances_trace json_loads aws jq).
Qed.

(** X9.  The token step prints nothing unless its command succeeds.
    Once the command has been built and its child has started: a
    non-zero exit status raises [CalledProcessError] with that status,
    and output that is not UTF-8 raises [UnicodeDecodeError]; in both
    cases the step has started this one child and written nothing to
    standard output. *)
Theorem token_failure_prints_nothing (instance hostname port : json)
    (username path : str) (args : list str) (st : state) :
  resolved st (py "aws") path →
  getitem instance (py "Address") = Ok hostname →
  getitem instance (py "Port") = Ok port →
  shlex_split (credentials_line path (py_str repr_other hostname)
                 (py_str repr_other port) username) = Ok args →
  spawns (the_world st) args = true →
  let status := (child (the_world st) args []).1 in
  let output := (child (the_world st) args []).2 in
  let out := print_credentials repr_other instance username st in
  (status ≠ 0%Z → out.1 = Raise (CalledProcessError status))
  ∧ (status = 0%Z → utf8_decode output = None →
       out.1 = Raise UnicodeDecodeError)
  ∧ (out.1 ≠ Ok () →
       trace out.2 = trace st ++ [Exec args]
       ∧ stdout_of (trace out.2) = stdout_of (trace st)).
Proof.
  intros Haws Hhost Hport Hargs Hspawn status output out.
  destruct (print_credentials_run repr_other instance hostname port username
              path st Haws Hhost Hport) as (st1 & (_ & Ht & _) & Hrun).
  unfold out. rewrite Hrun Hargs. cbv zeta. rewrite Hspawn.
  fold status output. unfold decode.
  destruct (Z.eqb_spec status 0) as [Hz|Hnz].
  - destruct (utf8_decode output) as [text|]; simpl.
    + split_and!; [done|done|]. by intros [].
    + split_and!; [done|done|]. intros _. rewrite Ht. split; [done|].
      rewrite stdout_of_app /=. by rewrite app_nil_r.
  - simpl. split_and!; [done|done|]. intros _. rewrite Ht. split; [done|].
    rewrite stdout_of_app /=. by rewrite app_nil_r.
Qed.

End Captured.

(** ** Records the picker cannot be told about *)

Lemma mapM_result_first_failure {A B} (f : A → result B)
    (good rest : list A) (bad : A) (e : exn) :
  Forall (λ x, ∃ y, f x = Ok y) good → f bad = Raise e →
  mapM f (good ++ bad :: rest) = Raise e.
Proof.
  intros Hgood Hbad. induction Hgood as [|x good [y Hx] _ IH]; cbn [mapM app].
  - by rewrite Hbad.
  - by rewrite Hx /= IH.
Qed.

Lemma address_line_raises (repr_other : json → list N) (instance : json)
    (e : exn) :
  address_line repr_other instance = Raise e →
  (getitem instance (py "Address") = Raise e ∧ (e = KeyError ∨ e = TypeError))
  ∨ (∃ address, getitem instance (py "Address") = Ok address
                ∧ utf8_encode (py_str repr_other address) = None
                ∧ e = UnicodeEncodeError).
Proof.
  unfold address_line.
  destruct (getitem instance (py "Address")) as [address|e'] eqn:Hget.
  - simpl. rewrite format_line /=. unfold encode.
    destruct (utf8_encode (py_str repr_other address ++ [Ch.lf])) as [b|] eqn:Henc;
      [done|].
    intros [= <-]. right. exists address. split_and!; [done| |done].
    destruct (utf8_encode (py_str repr_other address)) as [bs|] eqn:Hs; [|done].
    assert (Hlf : utf8_encode [Ch.lf] = Some [newline_byte]) by by vm_compute.
    by rewrite (utf8_encode_app _ _ _ _ Hs Hlf) in Henc.
  - simpl. intros [= <-]. left. split; [done|].
    unfold getitem in Hget. destruct instance; try (by injection Hget; auto).
    destruct (_ !! _); [done|]. injection Hget. auto.
Qed.

Section Records.

Variable repr_other : json → list N.

(** X10.  The picker is started before the records are read.  When a
    record has no usable [Address] (it is not an object, it has no such
    key, or UTF-8 cannot encode the text) and the records before it are
    fine, the selection step raises that record's exception, which is
    [TypeError], [KeyError] or [UnicodeEncodeError]; by then [fzf] has
    been started, and nothing has been written to it, not even the
    addresses of the records before, nor has its input been closed. *)
Theorem a_bad_record_leaves_the_picker_waiting
    (good rest : list json) (bad : json) (path : str) (e : exn) (st : state) :
  resolved st (py "fzf") path →
  spawns (the_world st) (fzf_args path) = true →
  Forall (λ r, ∃ line, address_line repr_other r = Ok line) good →
  address_line repr_other bad = Raise e →
  let out := choose_instances repr_other (good ++ bad :: rest) st in
  out.1 = Raise e
  ∧ (e = KeyError ∨ e = TypeError ∨ e = UnicodeEncodeError)
  ∧ trace out.2 = trace st ++ [Exec (fzf_args path)]
  ∧ stdin_of (trace out.2) = stdin_of (trace st).
Proof.
  intros Hres Hspawn Hgood Hbad out.
  destruct (choose_instances_run repr_other (good ++ bad :: rest) path st Hres)
    as (st1 & (_ & Ht & _) & Hrun).
  unfold out. rewrite Hrun. cbv zeta. rewrite Hspawn.
  rewrite (mapM_result_first_failure _ good rest bad e Hgood Hbad). simpl.
  rewrite Ht. split_and!; [done| |done|].
  - destruct (address_line_raises _ _ _ Hbad)
      as [(_ & [->| ->])|(_ & _ & _ & ->)]; auto.
  - rewrite stdin_of_app /=. by rewrite app_nil_r.
Qed.

End Records.

(** ** From the picker's answer to the record *)

Lemma lstrip_keeps (s : str) :
  (∀ c, head s = Some c → isspace c = false) → lstrip s = s.
Proof.
  destruct s as [|c s]; [done|]. intros Hhead. simpl.
  by rewrite (Hhead c eq_refl).
Qed.

Lemma strip_line (a : str) : trimmed a → strip (a ++ [Ch.lf]) = a.
Proof.
  intros [Hhead Hlast]. unfold strip, rstrip.
  rewrite reverse_app /=.
  change (isspace Ch.lf) with true. cbv iota.
  rewrite (lstrip_keeps (reverse a)).
  - rewrite reverse_involutive. by apply lstrip_keeps.
  - intros c Hc. apply Hlast. by rewrite -head_reverse.
Qed.

Section Answer.

Variable repr_other : json → list N.

(** X11.  Selection and lookup fit together.  When every record could be
    offered, and the picker, whatever its exit status, prints the
    address of one of the records followed by a newline, the address
    having no white space at its ends, then the selection step returns
    that address and the lookup finds a record, the first one in
    discovery order that has it; it does not raise. *)
Theorem an_offered_address_is_found (instances : list json) (path a : str)
    (lines : list bytes) (record : json) (status : Z) (output : bytes)
    (st : state) :
  resolved st (py "fzf") path →
  spawns (the_world st) (fzf_args path) = true →
  mapM (address_line repr_other) instances = Ok lines →
  record ∈ instances → has_address a record → trimmed a →
  child (the_world st) (fzf_args path) (mjoin lines) = (status, output) →
  utf8_decode output = Some (a ++ [Ch.lf]) →
  (choose_instances repr_other instances st).1 = Ok a
  ∧ ∃ found, lookup_instance instances a = Ok found
             ∧ first_match a instances found.
Proof.
  intros Hres Hspawn Hlines Hin Haddr Htrim Hchild Htext.
  destruct (choose_instances_run repr_other instances path st Hres)
    as (st1 & _ & Hrun).
  cbv zeta in Hrun.
  rewrite Hspawn Hlines Hchild /= /decode Htext (strip_line a Htrim) in Hrun.
  rewrite Hrun. split; [done|].
  pose proof (choose_instances_ok_addresses _ _ _ _ _ Hrun) as Hall.
  destruct (matching_run instances a Hall) as (values & Hm & Hnil & Hcons).
  destruct values as [|found values].
  - specialize (Hnil eq_refl). rewrite Forall_forall in Hnil.
    by destruct (Hnil record Hin).
  - exists found. split; [|by eapply Hcons].
    unfold lookup_instance. by rewrite Hm.
Qed.

End Answer.

(** ** Special names and special directories in [which] *)

Lemma search_absolute (w : world) (dirs : list str) (command : str) :
  startswith_sep command = true → dirs ≠ [] →
  search w dirs command = if path_exists w command then Some command else None.
Proof.
  intros Habs. induction dirs as [|dir dirs IH]; [done|]. intros _.
  simpl. unfold path_join at 1 2. rewrite Habs.
  destruct (path_exists w command) eqn:Hex; [done|].
  destruct dirs as [|dir' dirs]; [done|]. by rewrite IH.
Qed.

(** X12.  An empty entry of [PATH] stands for the current directory:
    when no directory before it has an entry for the command and the
    bare command name exists, [which] answers the bare name, a relative
    path, and this is what the command line is then built from. *)
Theorem which_empty_PATH_entry (command value : str)
    (before after : list str) (st : state) :
  cache_get command (which_cache st) = None →
  environ (the_world st) !! py "PATH" = Some value →
  split Ch.colon value = before ++ [] :: after →
  nowhere (the_world st) before command →
  is_Some (stat (the_world st) command) →
  (which command st).1 = Ok (Some command)
  ∧ cached (which command st).2 command = Some command.
Proof.
  intros Hmiss Hpath Hsplit Hbefore Hexists.
  assert (Hjoin : path_join [] command = command).
  { unfold path_join. by destruct (startswith_sep command). }
  rewrite (which_miss command st value Hmiss Hpath). cbv zeta.
  rewrite Hsplit search_first; [|done|by rewrite Hjoin].
  rewrite Hjoin. split; [done|].
  unfold cached. simpl. by rewrite bool_decide_eq_true_2.
Qed.

(** X13.  A command name that starts with a slash is not searched for
    along [PATH]: whatever directories [PATH] lists, [which] answers the
    name itself when it exists and [None] when it does not. *)
Theorem which_of_an_absolute_name (command value : str) (st : state) :
  startswith_sep command = true →
  cache_get command (which_cache st) = None →
  environ (the_world st) !! py "PATH" = Some value →
  (which command st).1
  = Ok (if path_exists (the_world st) command then Some command else None).
Proof.
  intros Habs Hmiss Hpath.
  rewrite (which_miss command st value Hmiss Hpath). cbv zeta. simpl.
  rewrite search_absolute; [done..|]. apply split_not_nil.
Qed.

(** ** After the preflight check *)

Lemma resolved_set_world (w' : world) (st : state) (command path : str) :
  resolved st command path → resolved (set_world w' st) command path.
Proof. done. Qed.

Section Later.

Variable json_loads : list N → option json.
Variable repr_other : json → list N.





End Later.

(** ** The whole run *)

Lemma quiet_step_add (st st1 : state) (events : list event) (ok : bool) :
  same_lookups st st1 →
  stdout_of events = [] → stderr_of events = [] →
  (length (execs_of events) ≤ 1)%nat →
  (ok = true → length (execs_of events) = 1%nat) →
  quiet_step st (add_trace st1 events) ok.
Proof.
  intros Hsame Hout Herr Hle Hok.
  pose proof Hsame as (_ & Ht & _). unfold quiet_step. simpl.
  rewrite Ht stdout_of_app stderr_of_app execs_of_app Hout Herr !app_nil_r.
  rewrite length_app. split_and!; [done|done|lia| |].
  - intros H. rewrite (Hok H). lia.
  - intros command path Hres. by eapply resolved_add_trace.
Qed.

Lemma quiet_step_same (st st1 : state) :
  same_lookups st st1 → quiet_step st st1 false.
Proof.
  intros Hsame. pose proof Hsame as (_ & Ht & _). unfold quiet_step.
  rewrite Ht. split_and!; [done|done|lia|done|].
  intros command path Hres. by eapply resolved_same.
Qed.

Lemma picker_events_tally (args : list str) (lines : list bytes) :
  stdout_of (picker_events args lines) = []
  ∧ stderr_of (picker_events args lines) = []
  ∧ execs_of (picker_events args lines) = [args].
Proof.
  destruct (silent_input lines) as (He & Ho & Hr).
  unfold picker_events. split_and!.
  - exact Ho.
  - exact Hr.
  - change (execs_of (Exec args :: ?t)) with (args :: execs_of t).
    by rewrite He.
Qed.

Section Run.

Variable json_loads : list N → option json.
Variable repr_other : json → list N.

Lemma get_instances_quiet (aws jq : str) (st : state) :
  resolved st (py "aws") aws → resolved st (py "jq") jq →
  quiet_step st (get_instances json_loads st).2
    (is_ok (get_instances json_loads st).1).
Proof.
  intros Haws Hjq.
  destruct (get_instances_run json_loads aws jq st Haws Hjq)
    as (st1 & Hsame & ->).
  destruct (shlex_split _) as [args|e]; [|by apply quiet_step_same].
  cbv zeta.
  destruct (spawns _ _); [|by apply quiet_step_add; simpl; auto].
  destruct (_ =? _)%Z; [|by apply quiet_step_add; simpl; auto].
  by destruct (_ ≫= _); apply quiet_step_add; simpl; auto.
Qed.

Lemma choose_instances_quiet (fzf : str) (instances : list json) (st : state) :
  resolved st (py "fzf") fzf →
  quiet_step st (choose_instances repr_other instances st).2
    (is_ok (choose_instances repr_other instances st).1).
Proof.
  intros Hfzf.
  destruct (choose_instances_run repr_other instances fzf st Hfzf)
    as (st1 & Hsame & ->).
  cbv zeta.
  destruct (spawns _ _); [|by apply quiet_step_add; simpl; auto].
  destruct (mapM _ _) as [lines|e]; [|by apply quiet_step_add; simpl; auto].
  destruct (picker_events_tally (fzf_args fzf) lines) as (Ho & Hr & He).
  by destruct (decode _); apply quiet_step_add; rewrite ?He; simpl; auto.
Qed.

(** What the token step adds to the trace. *)
Lemma print_credentials_tally (aws username : str) (instance : json)
    (st : state) :
  resolved st (py "aws") aws →
  let out := print_credentials repr_other instance username st in
  stderr_of (trace out.2) = stderr_of (trace st)
  ∧ (length (execs_of (trace out.2)) ≤ S (length (execs_of (trace st))))%nat
  ∧ (out.1 = Ok () →
     length (execs_of (trace out.2)) = S (length (execs_of (trace st)))
     ∧ ∃ text, stdout_of (trace out.2)
               = stdout_of (trace st) ++ text ++ [Ch.lf])
  ∧ (out.1 ≠ Ok () → stdout_of (trace out.2) = stdout_of (trace st)).
Proof.
  intros Haws out. unfold out.
  destruct (getitem instance (py "Address")) as [hostname|e] eqn:Hhost.
  2:{ unfold print_credentials. rewrite !bind_lift Hhost /=.
      split_and!; [done|lia|done|done]. }
  destruct (getitem instance (py "Port")) as [port|e] eqn:Hport.
  2:{ unfold print_credentials. rewrite !bind_lift Hhost !bind_lift Hport /=.
      split_and!; [done|lia|done|done]. }
  destruct (print_credentials_run repr_other instance hostname port username
              aws st Haws Hhost Hport) as (st1 & Hsame & ->).
  assert (Hfail : ∀ (e : exn) events,
            stdout_of events = [] → stderr_of events = [] →
            (length (execs_of events) ≤ 1)%nat →
            let out : result () * state := (Raise e, add_trace st1 events) in
            stderr_of (trace out.2) = stderr_of (trace st)
            ∧ (length (execs_of (trace out.2))
               ≤ S (length (execs_of (trace st))))%nat
            ∧ (out.1 = Ok () →
               length (execs_of (trace out.2)) = S (length (execs_of (trace st)))
               ∧ ∃ text, stdout_of (trace out.2)
                         = stdout_of (trace st) ++ text ++ [Ch.lf])
            ∧ (out.1 ≠ Ok () → stdout_of (trace out.2) = stdout_of (trace st))).
  { intros e events Ho Hr He.
    destruct (quiet_step_add st st1 events false Hsame Ho Hr He)
      as (Hout & Herr & Hle & _); [done|].
    by split_and!. }
  destruct (shlex_split _) as [args|e].
  2:{ pose proof (Hfail e [] eq_refl eq_refl (Nat.le_0_l 1)) as Hnil.
      cbv zeta in Hnil. destruct st1. unfold add_trace in Hnil. simpl in Hnil.
      rewrite app_nil_r in Hnil. exact Hnil. }
  cbv zeta.
  destruct (spawns _ _); [|by apply Hfail; simpl; auto].
  destruct (_ =? _)%Z; [|by apply Hfail; simpl; auto].
  destruct (decode _) as [text|e]; [|by apply Hfail; simpl; auto].
  pose proof Hsame as (_ & Ht & _). simpl.
  rewrite Ht stdout_of_app stderr_of_app execs_of_app length_app /=.
  rewrite !app_nil_r. split_and!; [done|lia| |done].
  intros _. split; [lia|]. exists text.
  change (stdout_of [Exec args; Stdout (text ++ [Ch.lf])])
    with ((text ++ [Ch.lf]) ++ []).
  by rewrite app_nil_r.
Qed.

(** X15.  What a run of [main] on a fresh process can leave behind, for
    every world and every username.  The script writes to standard
    output exactly when the run ends normally, and then three children
    were started and the script wrote nothing to the error stream.  The
    script writes to the error stream only when the preflight check ends
    the run with [SystemExit(1)], and then no child was started.  No run
    starts more than three children.  (A traceback that the interpreter
    prints for an unhandled exception is not written by the script.) *)
Theorem main_prints_only_on_success (w : world) (username : str) :
  let out := main json_loads repr_other username (initial w) in
  (out.1 = Ok () ↔ stdout_of (trace out.2) ≠ [])
  ∧ (out.1 = Ok () →
     length (execs_of (trace out.2)) = 3%nat ∧ stderr_of (trace out.2) = [])
  ∧ (stderr_of (trace out.2) ≠ [] →
     out.1 = Raise (SystemExit 1) ∧ execs_of (trace out.2) = [])
  ∧ (length (execs_of (trace out.2)) ≤ 3)%nat.
Proof.
  intros out. unfold out. clear out.
  destruct (environ w !! py "PATH") as [value|] eqn:Hpath.
  2:{ rewrite (main_stops_at_preflight _ _ _ _ _ _ (ensure_commands_unset w Hpath)).
      simpl. split_and!; [split; done|done|done|lia]. }
  pose proof (ensure_commands_initial w value Hpath) as Hpre.
  destruct (missing_descriptions w value) as [|d ds].
  2:{ rewrite (main_stops_at_preflight _ _ _ _ _ _ Hpre). simpl.
      split_and!; [split; done|done|done|lia]. }
  destruct (preflight_resolved w _ (py "aws") Hpre) as [aws Haws];
    [apply (bool_decide_unpack _); by vm_compute|].
  destruct (preflight_resolved w _ (py "jq") Hpre) as [jq Hjq];
    [apply (bool_decide_unpack _); by vm_compute|].
  destruct (preflight_resolved w _ (py "fzf") Hpre) as [fzf Hfzf];
    [apply (bool_decide_unpack _); by vm_compute|].
  unfold main. rewrite (bind_ok _ _ _ _ _ Hpre). clear Hpre.
  set (st0 := preflight_state w value) in *.
  assert (Hout0 : stdout_of (trace st0) = []) by done.
  assert (Herr0 : stderr_of (trace st0) = []) by done.
  assert (Hexe0 : length (execs_of (trace st0)) = 0%nat) by done.
  clearbody st0.
  pose proof (get_instances_quiet aws jq st0 Haws Hjq) as Hq1.
  rewrite bind_run.
  destruct (get_instances json_loads st0) as [[instances|e] s1].
  2:{ destruct Hq1 as (Ho & Hr & Hle & _). simpl in *.
      rewrite Ho Hr Hout0 Herr0.
      split_and!; [split; done|done|done|lia]. }
  destruct Hq1 as (Ho1 & Hr1 & _ & He1 & Hres1). simpl in *.
  specialize (He1 eq_refl).
  pose proof (choose_instances_quiet fzf instances s1 (Hres1 _ _ Hfzf)) as Hq2.
  rewrite bind_run.
  destruct (choose_instances repr_other instances s1) as [[name|e] s2].
  2:{ destruct Hq2 as (Ho & Hr & Hle & _). simpl in *.
      rewrite Ho Hr Ho1 Hr1 Hout0 Herr0.
      split_and!; [split; done|done|done|lia]. }
  destruct Hq2 as (Ho2 & Hr2 & _ & He2 & Hres2). simpl in *.
  specialize (He2 eq_refl).
  rewrite bind_lift.
  destruct (lookup_instance instances name) as [instance|e].
  2:{ simpl. rewrite Ho2 Hr2 Ho1 Hr1 Hout0 Herr0.
      split_and!; [split; done|done|done|lia]. }
  destruct (print_credentials_tally aws username instance s2
              (Hres2 _ _ (Hres1 _ _ Haws))) as (Hr3 & Hle3 & Hok3 & Hbad3).
  destruct (print_credentials repr_other instance username s2) as [r s3].
  simpl in *. rewrite Hr3 Hr2 Hr1 Herr0.
  split_and!; [split| |done|lia].
  - intros Hok. destruct (Hok3 Hok) as (_ & text & ->).
    rewrite Ho2 Ho1 Hout0. simpl. by destruct text.
  - intros Hne. destruct r as [[]|e]; [done|].
    rewrite Hbad3 in Hne; [|done]. by rewrite Ho2 Ho1 Hout0 in Hne.
  - intros Hok. destruct (Hok3 Hok) as (-> & _). split; [lia|done].
Qed.

End Run.

(** ** Addresses that are not strings *)

Lemma matching_not_text (instances : list json) (name : str) :
  Forall address_not_text instances → matching instances name = Ok [].
Proof.
  induction 1 as [|r instances (v & Hget & Hv) _ IH]; [done|].
  cbn [matching]. rewrite Hget /= IH /=.
  destruct (eq_str v name) eqn:Heq; [|done].
  apply eq_str_true in Heq. by destruct (Hv name).
Qed.

Section NotText.

Variable repr_other : json → list N.

(** X16.  The picker is offered the text of each [Address], but the
    lookup compares the [Address] itself with the selected string, and
    only a string is equal to a string.  So when no record has a string
    as its [Address] (numbers, [null], ...), the records are offered all
    the same, and whatever the picker answers the lookup finds nothing
    and raises [ValueError]. *)
Theorem an_address_that_is_not_a_string_is_never_found
    (instances : list json) (path : str) (lines : list bytes) (text : str)
    (st : state) :
  resolved st (py "fzf") path →
  spawns (the_world st) (fzf_args path) = true →
  Forall address_not_text instances →
  mapM (address_line repr_other) instances = Ok lines →
  utf8_decode (child (the_world st) (fzf_args path) (mjoin lines)).2
  = Some text →
  (choose_instances repr_other instances st).1 = Ok (strip text)
  ∧ stdin_of (trace (choose_instances repr_other instances st).2)
    = stdin_of (trace st) ++ mjoin lines
  ∧ ∀ name, lookup_instance instances name = Raise ValueError.
Proof.
  intros Hres Hspawn Hall Hlines Htext.
  destruct (choose_instances_run repr_other instances path st Hres)
    as (st1 & (_ & Ht & _) & Hrun).
  cbv zeta in Hrun. rewrite Hspawn Hlines /decode Htext in Hrun.
  rewrite Hrun /= Ht. split_and!; [done| |].
  - by rewrite stdin_of_app stdin_of_picker_events.
  - intros name. unfold lookup_instance.
    by rewrite (matching_not_text instances name Hall).
Qed.

End NotText.

(** * The properties at work on the sample world *)

Ltac run := vm_compute; reflexivity.
Ltac decided := apply (bool_decide_unpack _); vm_compute; exact I.


Lemma which_is_memoized_witness :
  which (py "jq") (initial demo)
  = (Ok (Some demo_jq), (which (py "jq") (initial demo)).2)
  ∧ (length demo_between < maxsize)%nat
  ∧ (which (py "jq")
       (set_world demo_no_path
          (add_trace (lookups demo_between (which (py "jq") (initial demo)).2)
             [StdinClose]))).1
    = Ok (Some demo_jq)
  ∧ cache_get (py "jq")
      (which_cache
         (which (py "jq")
            (set_world demo_no_path
               (add_trace
                  (lookups demo_between (which (py "jq") (initial demo)).2)
                  [StdinClose]))).2)
    = Some (Some demo_jq).
Proof.
  split; [run|]. split; [unfold maxsize; simpl; lia|].
  exact (which_is_memoized (py "jq") (initial demo)
           (which (py "jq") (initial demo)).2 (Some demo_jq)
           demo_between [StdinClose] demo_no_path
           ltac:(run) ltac:(unfold maxsize; simpl; lia)).
Defined.

Lemma preflight_none_or_all_witness :
  (environ demo_empty !! py "PATH" = Some demo_path
   ∧ (∀ dir command, dir ∈ split Ch.colon demo_path → command ∈ required_names →
        stat demo_empty (path_join dir command) = None)
   ∧ ∃ st',
       main demo_loads demo_repr (py "alice") (initial demo_empty)
       = (Raise (SystemExit 1), st')
       ∧ exit_status (main demo_loads demo_repr (py "alice") (initial demo_empty)).1
         = 1%Z
       ∧ trace st'
         = [Stderr (py "You must install a set of commands for this script to work."
                    ++ Ch.lf :: py "awscli is missing"
                    ++ Ch.lf :: py "fzf is missing"
                    ++ Ch.lf :: py "jq is missing" ++ [Ch.lf])]
       ∧ splitlines (stderr_of (trace st'))
         = [py "You must install a set of commands for this script to work.";
            py "awscli is missing"; py "fzf is missing"; py "jq is missing"]
       ∧ execs_of (trace st') = [])
  ∧ (environ demo !! py "PATH" = Some demo_path
     ∧ (∀ command, command ∈ required_names →
          ∃ dir, dir ∈ split Ch.colon demo_path
                 ∧ is_Some (stat demo (path_join dir command)))
     ∧ ∃ st', ensure_commands (initial demo) = (Ok (), st') ∧ trace st' = []).
Proof.
  assert (Hnone : ∀ dir command : list N,
            dir ∈ split Ch.colon demo_path → command ∈ required_names →
            stat demo_empty (path_join dir command) = None) by done.
  assert (Hall : ∀ command, command ∈ required_names →
            ∃ dir, dir ∈ split Ch.colon demo_path
                   ∧ is_Some (stat demo (path_join dir command))).
  { intros command Hreq. exists (demo_entry command).
    destruct (required_names_cases _ Hreq) as [->|[->| ->]];
      (split; decided). }
  split.
  - split; [run|]. split; [exact Hnone|].
    apply (proj1 (preflight_none_or_all demo_loads demo_repr demo_empty demo_path
                    (py "alice") ltac:(run)) Hnone).
  - split; [run|]. split; [exact Hall|].
    apply (proj2 (preflight_none_or_all demo_loads demo_repr demo demo_path
                    (py "alice") ltac:(run)) Hall).
Defined.

Lemma existence_is_all_that_counts_witness :
  environ demo_directories !! py "PATH" = Some demo_path
  ∧ (py "aws", py "awscli is missing") ∈ REQUIRED_COMMANDS
  ∧ first_entry demo_directories (split Ch.colon demo_path) (py "aws")
      (py "/usr/bin") Directory
  ∧ (which (py "aws") (initial demo_directories)).1
    = Ok (Some (path_join (py "/usr/bin") (py "aws")))
  ∧ py "awscli is missing" ∉ missing_descriptions demo_directories demo_path
  ∧ (∀ command, command ∈ required_names →
       ∃ dir kind,
         first_entry demo_directories (split Ch.colon demo_path) command dir kind)
  ∧ ∃ st', ensure_commands (initial demo_directories) = (Ok (), st') ∧ trace st' = [].
Proof.
  assert (Haws : first_entry demo_directories (split Ch.colon demo_path) (py "aws")
                   (py "/usr/bin") Directory).
  { exists [py "/usr/local/bin"], []. split; [run|].
    split; [by repeat constructor | run]. }
  assert (Hall : ∀ command, command ∈ required_names →
            ∃ dir kind,
              first_entry demo_directories (split Ch.colon demo_path) command dir kind).
  { intros command Hreq. exists (demo_entry command), Directory.
    destruct (required_names_cases _ Hreq) as [->|[->| ->]].
    - exact Haws.
    - exists [], [py "/usr/bin"]. split; [run|].
      split; [by repeat constructor | run].
    - exists [py "/usr/local/bin"], []. split; [run|].
      split; [by repeat constructor | run]. }
  assert (Hin : (py "aws", py "awscli is missing") ∈ REQUIRED_COMMANDS)
    by (unfold REQUIRED_COMMANDS; apply elem_of_cons; by left).
  split; [run|]. split; [exact Hin|]. split; [exact Haws|].
  pose proof (existence_is_all_that_counts demo_directories demo_path ltac:(run))
    as (Htool & _ & Hpass).
  split; [exact (proj1 (Htool _ _ _ _ Hin Haws))|].
  split; [exact (proj2 (Htool _ _ _ _ Hin Haws))|].
  split; [exact Hall | exact (Hpass Hall)].
Defined.

Lemma unset_PATH_is_a_KeyError_witness :
  environ demo_no_path !! py "PATH" = None
  ∧ which (py "aws") (initial demo_no_path) = (Raise KeyError, initial demo_no_path)
  ∧ main demo_loads demo_repr (py "alice") (initial demo_no_path)
    = (Raise KeyError, initial demo_no_path)
  ∧ stderr_of (trace (main demo_loads demo_repr (py "alice") (initial demo_no_path)).2)
    = []
  ∧ execs_of (trace (main demo_loads demo_repr (py "alice") (initial demo_no_path)).2)
    = [].
Proof.
  split; [run|].
  apply (unset_PATH_is_a_KeyError demo_loads demo_repr demo_no_path). run.
Defined.

Lemma lookup_iff_first_match_witness :
  ensure_commands (initial demo) = (Ok (), demo_ready demo)
  ∧ get_instances demo_loads (demo_ready demo) = (Ok demo_instances, demo_discovered)
  ∧ choose_instances demo_repr demo_instances demo_discovered
    = (Ok (py "db2.example.com"), demo_selected)
  ∧ (lookup_instance demo_instances (py "db2.example.com") = Ok demo_db2
     ↔ first_match (py "db2.example.com") demo_instances demo_db2)
  ∧ lookup_instance demo_instances (py "db2.example.com") = Ok demo_db2.
Proof.
  split; [run|]. split; [run|]. split; [run|]. split; [|run].
  apply (lookup_iff_first_match demo_loads demo_repr (py "alice") (initial demo)
           (demo_ready demo) demo_discovered demo_selected demo_instances
           (py "db2.example.com")); run.
Defined.


Lemma selection_trims_both_ends_witness :
  resolved (demo_ready demo_leading_space) (py "fzf") demo_fzf
  ∧ spawns demo_leading_space (fzf_args demo_fzf) = true
  ∧ mapM (address_line demo_repr) demo_instances = Ok demo_sent
  ∧ (∀ text,
       utf8_decode (child demo_leading_space (fzf_args demo_fzf) (mjoin demo_sent)).2
       = Some text →
       ∃ name leading trailing,
         (choose_instances demo_repr demo_instances
            (demo_ready demo_leading_space)).1 = Ok name
         ∧ text = leading ++ name ++ trailing
         ∧ all_space leading ∧ all_space trailing ∧ trimmed name
         ∧ (all_space text → name = []))
  ∧ (utf8_decode (child demo_leading_space (fzf_args demo_fzf) (mjoin demo_sent)).2
     = None →
     (choose_instances demo_repr demo_instances (demo_ready demo_leading_space)).1
     = Raise UnicodeDecodeError).
Proof.
  assert (Hres : resolved (demo_ready demo_leading_space) (py "fzf") demo_fzf).
  { split; [run | by py_neq]. }
  split; [exact Hres|]. split; [run|]. split; [run|].
  apply (selection_trims_both_ends demo_repr demo_instances demo_fzf
           (demo_ready demo_leading_space) demo_sent Hres); run.
Defined.


(** C2 as the specification words it fails: the picker prints [" db1\n"], trimming
    at the end only would give [" db1"], the selection step returns
    ["db1"]. *)
Lemma selection_keeps_leading_space_refuted :
  utf8_decode (child demo_leading_space (fzf_args demo_fzf) (mjoin demo_sent)).2
  = Some (py " db1" ++ [Ch.lf])
  ∧ rstrip (py " db1" ++ [Ch.lf]) = py " db1"
  ∧ (choose_instances demo_repr demo_instances (demo_ready demo_leading_space)).1
    = Ok (py "db1")
  ∧ (choose_instances demo_repr demo_instances (demo_ready demo_leading_space)).1
    ≠ Ok (rstrip (py " db1" ++ [Ch.lf])).
Proof.
  split; [run|]. split; [run|]. split; [run|].
  intros H. vm_compute in H. discriminate H.
Qed.


Lemma token_output_is_printed_witness :
  ensure_commands (initial demo) = (Ok (), demo_ready demo)
  ∧ get_instances demo_loads (demo_ready demo) = (Ok demo_instances, demo_discovered)
  ∧ choose_instances demo_repr demo_instances demo_discovered
    = (Ok (py "db2.example.com"), demo_selected)
  ∧ lookup_instance demo_instances (py "db2.example.com") = Ok demo_db2
  ∧ resolved (demo_ready demo) (py "aws") demo_aws
  ∧ getitem demo_db2 (py "Port") = Ok (JInt 5432)
  ∧ shlex_split (credentials_line demo_aws (py "db2.example.com")
                   (py_str demo_repr (JInt 5432)) (py "alice"))
    = Ok (demo_token_args [py "alice"])
  ∧ spawns demo (demo_token_args [py "alice"]) = true
  ∧ child demo (demo_token_args [py "alice"]) [] = (0%Z, utf8 (py "TOKEN"))
  ∧ utf8_decode (utf8 (py "TOKEN")) = Some (py "TOKEN")
  ∧ ∃ st',
      main demo_loads demo_repr (py "alice") (initial demo) = (Ok (), st')
      ∧ exit_status (main demo_loads demo_repr (py "alice") (initial demo)).1 = 0%Z
      ∧ trace st'
        = trace demo_selected
          ++ [Exec (demo_token_args [py "alice"]); Stdout (py "TOKEN" ++ [Ch.lf])]
      ∧ stdout_of (trace st') = py "TOKEN" ++ [Ch.lf]
      ∧ utf8_encode (stdout_of (trace st'))
        = Some (utf8 (py "TOKEN") ++ [newline_byte]).
Proof.
  assert (Hres : resolved (demo_ready demo) (py "aws") demo_aws).
  { split; [run | by py_neq]. }
  do 4 (split; [run|]). split; [exact Hres|]. do 5 (split; [run|]).
  exact (token_output_is_printed demo_loads demo_repr demo (py "alice") demo_aws
           (py "db2.example.com") (demo_ready demo) demo_discovered demo_selected
           demo_instances demo_db2 (JInt 5432) (demo_token_args [py "alice"])
           (utf8 (py "TOKEN")) (py "TOKEN")
           ltac:(run) ltac:(run) ltac:(run) ltac:(run) Hres ltac:(run) ltac:(run)
           ltac:(run) ltac:(run) ltac:(run)).
Defined.

(** C3 as the specification words it fails: the token command ends with status zero
    having printed the one byte [0xff]; the script raises
    [UnicodeDecodeError] and its standard output stays empty. *)
Lemma token_output_not_utf8_refuted :
  spawns demo_bad_token (demo_token_args [py "alice"]) = true
  ∧ child demo_bad_token (demo_token_args [py "alice"]) [] = (0%Z, [Byte.xff])
  ∧ execs_of (trace (print_credentials demo_repr demo_db2 (py "alice")
                       (demo_ready demo_bad_token)).2)
    = [demo_token_args [py "alice"]]
  ∧ (print_credentials demo_repr demo_db2 (py "alice") (demo_ready demo_bad_token)).1
    = Raise UnicodeDecodeError
  ∧ stdout_of (trace (print_credentials demo_repr demo_db2 (py "alice")
                        (demo_ready demo_bad_token)).2)
    = [].
Proof. repeat split; run. Qed.


Lemma discovery_order_reaches_the_picker_witness :
  resolved (demo_ready demo) (py "aws") demo_aws
  ∧ resolved (demo_ready demo) (py "jq") demo_jq
  ∧ resolved (demo_ready demo) (py "fzf") demo_fzf
  ∧ shlex_split (instances_line demo_aws demo_jq) = Ok demo_discovery_args
  ∧ spawns demo demo_discovery_args = true
  ∧ child demo demo_discovery_args []
    = (0%Z, utf8 (demo_line1 ++ Ch.lf :: demo_line2 ++ [Ch.lf]))
  ∧ utf8_decode (utf8 (demo_line1 ++ Ch.lf :: demo_line2 ++ [Ch.lf]))
    = Some (mjoin ((λ line, line ++ [Ch.lf]) <$> [demo_line1; demo_line2]))
  ∧ Forall no_linebreak [demo_line1; demo_line2]
  ∧ Forall (λ line, is_Some (demo_loads line)) [demo_line1; demo_line2]
  ∧ ∃ records st1,
      get_instances demo_loads (demo_ready demo) = (Ok records, st1)
      ∧ Forall2 (λ line record, demo_loads line = Some record)
          [demo_line1; demo_line2] records
      ∧ trace st1 = trace (demo_ready demo) ++ [Exec demo_discovery_args]
      ∧ ∀ encoded,
          Forall2 (address_encodes demo_repr) records encoded →
          spawns demo (fzf_args demo_fzf) = true →
          trace (choose_instances demo_repr records st1).2
          = trace st1
            ++ picker_events (fzf_args demo_fzf) ((λ b, b ++ [newline_byte]) <$> encoded)
          ∧ stdin_of (trace (choose_instances demo_repr records st1).2)
            = stdin_of (trace (demo_ready demo))
              ++ mjoin ((λ b, b ++ [newline_byte]) <$> encoded).
Proof.
  assert (Haws : resolved (demo_ready demo) (py "aws") demo_aws).
  { split; [run | by py_neq]. }
  assert (Hjq : resolved (demo_ready demo) (py "jq") demo_jq).
  { split; [run | by py_neq]. }
  assert (Hfzf : resolved (demo_ready demo) (py "fzf") demo_fzf).
  { split; [run | by py_neq]. }
  assert (Hlines : Forall no_linebreak [demo_line1; demo_line2]).
  { repeat constructor; decided. }
  assert (Hjson : Forall (λ line, is_Some (demo_loads line)) [demo_line1; demo_line2]).
  { repeat constructor; decided. }
  split; [exact Haws|]. split; [exact Hjq|]. split; [exact Hfzf|].
  do 4 (split; [run|]). split; [exact Hlines|]. split; [exact Hjson|].
  apply (discovery_order_reaches_the_picker demo_loads demo_repr demo_aws demo_jq
           demo_fzf (demo_ready demo) demo_discovery_args
           (utf8 (demo_line1 ++ Ch.lf :: demo_line2 ++ [Ch.lf]))
           [demo_line1; demo_line2] Haws Hjq Hfzf); try run; done.
Defined.


(** C5 as the specification words it fails twice.  The discovery output is one
    line, a JSON object with a carriage return between its members:
    [splitlines] cuts it in two and [json.loads] raises on the first
    piece, so no record is yielded.  And for the one line [{}], a JSON
    object, discovery yields its record and the selection step raises
    [KeyError] with nothing sent to the picker. *)
Lemma discovery_order_refuted :
  (child demo_cr demo_discovery_args [] = (0%Z, utf8 (demo_line_cr ++ [Ch.lf]))
   ∧ (Ch.lf ∉ demo_line_cr)
   ∧ demo_loads demo_line_cr = Some (endpoint (py "a") 1)
   ∧ length (splitlines (demo_line_cr ++ [Ch.lf])) = 2%nat
   ∧ (get_instances demo_loads (demo_ready demo_cr)).1 = Raise JSONDecodeError)
  ∧ (child demo_no_address demo_discovery_args [] = (0%Z, utf8 (py "{}" ++ [Ch.lf]))
     ∧ demo_loads (py "{}") = Some (JObj ∅)
     ∧ (get_instances demo_loads (demo_ready demo_no_address)).1 = Ok [JObj ∅]
     ∧ (choose_instances demo_repr [JObj ∅] (demo_ready demo_no_address)).1
       = Raise KeyError
     ∧ stdin_of (trace (choose_instances demo_repr [JObj ∅]
                          (demo_ready demo_no_address)).2)
       = []).
Proof.
  split.
  - split; [run|]. split; [decided|]. repeat split; run.
  - repeat split; run.
Qed.


Lemma username_is_split_into_words_witness :
  resolved (demo_ready demo) (py "aws") demo_aws
  ∧ getitem demo_db2 (py "Address") = Ok (JStr (py "db2.example.com"))
  ∧ getitem demo_db2 (py "Port") = Ok (JInt 5432)
  ∧ plain (py "db2.example.com") = true
  ∧ plain (py "alice") = true
  ∧ execs_of (trace (print_credentials demo_repr demo_db2 (py "alice")
                       (demo_ready demo)).2)
    = execs_of (trace (demo_ready demo))
      ++ [credentials_args demo_aws (py "db2.example.com") (str_of_int 5432)
            [py "alice"]].
Proof.
  assert (Hres : resolved (demo_ready demo) (py "aws") demo_aws).
  { split; [run | by py_neq]. }
  split; [exact Hres|]. do 4 (split; [run|]).
  exact (proj1 (proj2 (username_is_split_into_words demo_repr demo_db2
                         (py "db2.example.com") 5432 demo_aws (demo_ready demo)
                         Hres ltac:(run) ltac:(run) ltac:(run)))
           (py "alice") ltac:(run)).
Defined.

(** C10 as the specification words it fails three times: a user name with a
    backslash (no white space, no quote) reaches the command without the
    backslash; the empty user name leaves no argument, and [--region]
    follows [--username]; a user name with a leading space, which has
    white space, is still one argument. *)
Lemma username_single_argument_refuted :
  (execs_of (trace (print_credentials demo_repr demo_db2 (py "a\b")
                      (demo_ready demo)).2)
   = [demo_token_args [py "ab"]]
   ∧ py "ab" ≠ py "a\b")
  ∧ execs_of (trace (print_credentials demo_repr demo_db2 [] (demo_ready demo)).2)
    = [demo_token_args []]
  ∧ execs_of (trace (print_credentials demo_repr demo_db2 (py " a")
                       (demo_ready demo)).2)
    = [demo_token_args [py "a"]].
Proof.
  split; [split; [run | by py_neq]|]. split; run.
Qed.

(** * The further properties at work on the sample worlds *)

Lemma preflight_reports_the_missing_tools_witness :
  environ demo_no_jq !! py "PATH" = Some demo_path
  ∧ ∃ missing,
      (∀ command description,
         (command, description) ∈ REQUIRED_COMMANDS →
         description ∈ missing
         ↔ nowhere demo_no_jq (split Ch.colon demo_path) command)
      ∧ sublist missing (snd <$> REQUIRED_COMMANDS)
      ∧ (ensure_commands (initial demo_no_jq)).1
        = (if bool_decide (missing = []) then Ok () else Raise (SystemExit 1))
      ∧ trace (ensure_commands (initial demo_no_jq)).2
        = (if bool_decide (missing = []) then []
           else [Stderr (missing_message missing)]).
Proof.
  split; [run|].
  exact (preflight_reports_the_missing_tools demo_no_jq demo_path ltac:(run)).
Defined.

Lemma get_commands_paths_quotes_each_path_witness :
  Forall2 (resolved demo_spaced_ready)
    [py "aws"; py "jq"] [py "/opt/my tools/aws"; py "/usr/bin/jq"]
  ∧ ∃ m st',
      get_commands_paths [py "aws"; py "jq"] demo_spaced_ready = (Ok m, st')
      ∧ same_lookups demo_spaced_ready st'
      ∧ (∀ command, is_Some (m !! command) ↔ command ∈ [py "aws"; py "jq"])
      ∧ Forall2 (λ command path,
                   m !! command = Some (quote (Some path))
                   ∧ shlex_split (quote (Some path)) = Ok [path])
          [py "aws"; py "jq"] [py "/opt/my tools/aws"; py "/usr/bin/jq"].
Proof.
  assert (Hall : Forall2 (resolved demo_spaced_ready)
                   [py "aws"; py "jq"] [py "/opt/my tools/aws"; py "/usr/bin/jq"]).
  { repeat constructor; first [run | by py_neq]. }
  split; [exact Hall|].
  exact (get_commands_paths_quotes_each_path _ _ demo_spaced_ready Hall).
Defined.

Lemma get_commands_paths_of_a_missing_command_witness :
  cache_get (py "aws") (which_cache (initial demo_empty)) = None
  ∧ environ (the_world (initial demo_empty)) !! py "PATH" = Some demo_path
  ∧ nowhere (the_world (initial demo_empty)) (split Ch.colon demo_path) (py "aws")
  ∧ (get_commands_paths [py "aws"] (initial demo_empty)).1
    = Ok {[ py "aws" := [Ch.squote; Ch.squote] ]}
  ∧ trace (get_commands_paths [py "aws"] (initial demo_empty)).2
    = trace (initial demo_empty)
  ∧ shlex_split [Ch.squote; Ch.squote] = Ok [[]].
Proof.
  assert (Hnone : nowhere (the_world (initial demo_empty))
                    (split Ch.colon demo_path) (py "aws")).
  { apply Forall_forall. by intros dir _. }
  split; [run|]. split; [run|]. split; [exact Hnone|].
  exact (get_commands_paths_of_a_missing_command (py "aws") demo_path
           (initial demo_empty) ltac:(run) ltac:(run) Hnone).
Defined.

Lemma picker_is_started_with_the_resolved_path_witness :
  resolved (demo_ready demo) (py "fzf") demo_fzf
  ∧ ∃ events,
      trace (choose_instances demo_repr demo_instances (demo_ready demo)).2
      = trace (demo_ready demo) ++ Exec (fzf_args demo_fzf) :: events
      ∧ silent events
      ∧ execs_of (trace (choose_instances demo_repr demo_instances
                           (demo_ready demo)).2)
        = execs_of (trace (demo_ready demo)) ++ [fzf_args demo_fzf].
Proof.
  assert (Hres : resolved (demo_ready demo) (py "fzf") demo_fzf).
  { split; [run | by py_neq]. }
  split; [exact Hres|].
  exact (picker_is_started_with_the_resolved_path demo_repr demo_instances
           demo_fzf (demo_ready demo) Hres).
Defined.

Lemma discovery_runs_one_shell_pipeline_witness :
  resolved (demo_ready demo) (py "aws") demo_aws
  ∧ resolved (demo_ready demo) (py "jq") demo_jq
  ∧ forallb is_safe demo_aws = true
  ∧ forallb is_safe demo_jq = true
  ∧ trace (get_instances demo_loads (demo_ready demo)).2
    = trace (demo_ready demo)
      ++ [Exec [py "sh"; py "-c"; discovery_script demo_aws demo_jq]].
Proof.
  assert (Haws : resolved (demo_ready demo) (py "aws") demo_aws).
  { split; [run | by py_neq]. }
  assert (Hjq : resolved (demo_ready demo) (py "jq") demo_jq).
  { split; [run | by py_neq]. }
  split; [exact Haws|]. split; [exact Hjq|]. split; [run|]. split; [run|].
  exact (discovery_runs_one_shell_pipeline demo_loads demo_aws demo_jq
           (demo_ready demo) Haws Hjq ltac:(run) ltac:(run)).
Defined.

Lemma discovery_with_a_space_in_the_aws_path_witness :
  resolved demo_spaced_ready (py "aws") (py "/opt/my" ++ Ch.space :: py "tools/aws")
  ∧ resolved demo_spaced_ready (py "jq") demo_jq
  ∧ py "/opt/my" ≠ [] ∧ py "tools/aws" ≠ []
  ∧ forallb is_safe (py "/opt/my") = true
  ∧ forallb is_safe (py "tools/aws") = true
  ∧ forallb is_safe demo_jq = true
  ∧ trace (get_instances demo_loads demo_spaced_ready).2
    = trace demo_spaced_ready
      ++ [Exec [py "sh"; py "-c"; py "/opt/my";
                discovery_script (py "tools/aws") demo_jq]].
Proof.
  assert (Haws : resolved demo_spaced_ready (py "aws")
                   (py "/opt/my" ++ Ch.space :: py "tools/aws")).
  { split; [run | by py_neq]. }
  assert (Hjq : resolved demo_spaced_ready (py "jq") demo_jq).
  { split; [run | by py_neq]. }
  assert (H1 : py "/opt/my" ≠ []) by by py_neq.
  assert (H2 : py "tools/aws" ≠ []) by by py_neq.
  split; [exact Haws|]. split; [exact Hjq|]. split; [exact H1|].
  split; [exact H2|]. do 3 (split; [run|]).
  exact (discovery_with_a_space_in_the_aws_path demo_loads (py "/opt/my")
           (py "tools/aws") demo_jq demo_spaced_ready Haws Hjq H1 H2
           ltac:(run) ltac:(run) ltac:(run)).
Defined.

Lemma discovery_fails_as_a_whole_witness :
  resolved (demo_ready demo_cr) (py "aws") demo_aws
  ∧ resolved (demo_ready demo_cr) (py "jq") demo_jq
  ∧ shlex_split (instances_line demo_aws demo_jq) = Ok demo_discovery_args
  ∧ spawns (the_world (demo_ready demo_cr)) demo_discovery_args = true
  ∧ (child demo_cr demo_discovery_args []).1 = 0%Z
  ∧ utf8_decode (child demo_cr demo_discovery_args []).2
    = Some (demo_line_cr ++ [Ch.lf])
  ∧ Exists (λ line, demo_loads line = None) (splitlines (demo_line_cr ++ [Ch.lf]))
  ∧ (get_instances demo_loads (demo_ready demo_cr)).1 = Raise JSONDecodeError
  ∧ trace (get_instances demo_loads (demo_ready demo_cr)).2
    = trace (demo_ready demo_cr) ++ [Exec demo_discovery_args].
Proof.
  assert (Haws : resolved (demo_ready demo_cr) (py "aws") demo_aws).
  { split; [run | by py_neq]. }
  assert (Hjq : resolved (demo_ready demo_cr) (py "jq") demo_jq).
  { split; [run | by py_neq]. }
  assert (Hbad : Exists (λ line, demo_loads line = None)
                   (splitlines (demo_line_cr ++ [Ch.lf]))).
  { apply Exists_exists.
    exists (default [] (head (splitlines (demo_line_cr ++ [Ch.lf])))).
    split; [decided | run]. }
  split; [exact Haws|]. split; [exact Hjq|]. do 4 (split; [run|]).
  split; [exact Hbad|].
  pose proof (discovery_fails_as_a_whole demo_loads demo_aws demo_jq
                demo_discovery_args (demo_ready demo_cr) Haws Hjq
                ltac:(run) ltac:(run)) as (_ & _ & Hjson & _ & Htrace).
  split; [|exact Htrace].
  exact (Hjson (demo_line_cr ++ [Ch.lf]) ltac:(run) ltac:(run) Hbad).
Defined.

Lemma token_failure_prints_nothing_witness :
  resolved (demo_ready demo_bad_token) (py "aws") demo_aws
  ∧ getitem demo_db2 (py "Address") = Ok (JStr (py "db2.example.com"))
  ∧ getitem demo_db2 (py "Port") = Ok (JInt 5432)
  ∧ shlex_split (credentials_line demo_aws
                   (py_str demo_repr (JStr (py "db2.example.com")))
                   (py_str demo_repr (JInt 5432)) (py "alice"))
    = Ok (demo_token_args [py "alice"])
  ∧ spawns (the_world (demo_ready demo_bad_token)) (demo_token_args [py "alice"])
    = true
  ∧ (child demo_bad_token (demo_token_args [py "alice"]) []).1 = 0%Z
  ∧ utf8_decode (child demo_bad_token (demo_token_args [py "alice"]) []).2 = None
  ∧ (print_credentials demo_repr demo_db2 (py "alice")
       (demo_ready demo_bad_token)).1
    = Raise UnicodeDecodeError
  ∧ stdout_of (trace (print_credentials demo_repr demo_db2 (py "alice")
                        (demo_ready demo_bad_token)).2)
    = stdout_of (trace (demo_ready demo_bad_token)).
Proof.
  assert (Hres : resolved (demo_ready demo_bad_token) (py "aws") demo_aws).
  { split; [run | by py_neq]. }
  split; [exact Hres|]. do 6 (split; [run|]).
  pose proof (token_failure_prints_nothing demo_repr demo_db2
                (JStr (py "db2.example.com")) (JInt 5432) (py "alice") demo_aws
                (demo_token_args [py "alice"]) (demo_ready demo_bad_token)
                Hres ltac:(run) ltac:(run) ltac:(run) ltac:(run))
    as (_ & Hdecode & Hquiet).
  assert (Hraise : (print_credentials demo_repr demo_db2 (py "alice")
                      (demo_ready demo_bad_token)).1 = Raise UnicodeDecodeError)
    by exact (Hdecode ltac:(run) ltac:(run)).
  split; [exact Hraise|].
  apply Hquiet. rewrite Hraise. discriminate.
Defined.

Lemma a_bad_record_leaves_the_picker_waiting_witness :
  resolved (demo_ready demo) (py "fzf") demo_fzf
  ∧ spawns (the_world (demo_ready demo)) (fzf_args demo_fzf) = true
  ∧ Forall (λ r, ∃ line, address_line demo_repr r = Ok line) [demo_db1]
  ∧ address_line demo_repr (JObj ∅) = Raise KeyError
  ∧ (choose_instances demo_repr ([demo_db1] ++ JObj ∅ :: [demo_db2])
       (demo_ready demo)).1 = Raise KeyError
  ∧ (KeyError = KeyError ∨ KeyError = TypeError ∨ KeyError = UnicodeEncodeError)
  ∧ trace (choose_instances demo_repr ([demo_db1] ++ JObj ∅ :: [demo_db2])
             (demo_ready demo)).2
    = trace (demo_ready demo) ++ [Exec (fzf_args demo_fzf)]
  ∧ stdin_of (trace (choose_instances demo_repr ([demo_db1] ++ JObj ∅ :: [demo_db2])
                       (demo_ready demo)).2)
    = stdin_of (trace (demo_ready demo)).
Proof.
  assert (Hres : resolved (demo_ready demo) (py "fzf") demo_fzf).
  { split; [run | by py_neq]. }
  assert (Hgood : Forall (λ r, ∃ line, address_line demo_repr r = Ok line)
                    [demo_db1]).
  { repeat constructor. eexists. run. }
  split; [exact Hres|]. split; [run|]. split; [exact Hgood|]. split; [run|].
  exact (a_bad_record_leaves_the_picker_waiting demo_repr [demo_db1] [demo_db2]
           (JObj ∅) demo_fzf KeyError (demo_ready demo) Hres ltac:(run) Hgood
           ltac:(run)).
Defined.

Lemma an_offered_address_is_found_witness :
  resolved (demo_ready demo) (py "fzf") demo_fzf
  ∧ spawns (the_world (demo_ready demo)) (fzf_args demo_fzf) = true
  ∧ mapM (address_line demo_repr) demo_instances = Ok demo_sent
  ∧ demo_db2 ∈ demo_instances
  ∧ has_address (py "db2.example.com") demo_db2
  ∧ trimmed (py "db2.example.com")
  ∧ child (the_world (demo_ready demo)) (fzf_args demo_fzf) (mjoin demo_sent)
    = (0%Z, utf8 (py "db2.example.com" ++ [Ch.lf]))
  ∧ utf8_decode (utf8 (py "db2.example.com" ++ [Ch.lf]))
    = Some (py "db2.example.com" ++ [Ch.lf])
  ∧ (choose_instances demo_repr demo_instances (demo_ready demo)).1
    = Ok (py "db2.example.com")
  ∧ ∃ found, lookup_instance demo_instances (py "db2.example.com") = Ok found
             ∧ first_match (py "db2.example.com") demo_instances found.
Proof.
  assert (Hres : resolved (demo_ready demo) (py "fzf") demo_fzf).
  { split; [run | by py_neq]. }
  assert (Hin : demo_db2 ∈ demo_instances).
  { apply elem_of_cons. right. apply elem_of_cons. by left. }
  assert (Htrim : trimmed (py "db2.example.com")).
  { split; intros c Hc; vm_compute in Hc; injection Hc as <-; run. }
  split; [exact Hres|]. split; [run|]. split; [run|]. split; [exact Hin|].
  split; [run|]. split; [exact Htrim|]. split; [run|]. split; [run|].
  exact (an_offered_address_is_found demo_repr demo_instances demo_fzf
           (py "db2.example.com") demo_sent demo_db2 0%Z
           (utf8 (py "db2.example.com" ++ [Ch.lf])) (demo_ready demo)
           Hres ltac:(run) ltac:(run) Hin ltac:(run) Htrim ltac:(run) ltac:(run)).
Defined.

Lemma which_empty_PATH_entry_witness :
  cache_get (py "aws") (which_cache (initial demo_cwd)) = None
  ∧ environ (the_world (initial demo_cwd)) !! py "PATH" = Some (py ":/usr/bin")
  ∧ split Ch.colon (py ":/usr/bin") = [] ++ [] :: [py "/usr/bin"]
  ∧ nowhere (the_world (initial demo_cwd)) [] (py "aws")
  ∧ is_Some (stat (the_world (initial demo_cwd)) (py "aws"))
  ∧ (which (py "aws") (initial demo_cwd)).1 = Ok (Some (py "aws"))
  ∧ cached (which (py "aws") (initial demo_cwd)).2 (py "aws") = Some (py "aws").
Proof.
  assert (Hnone : nowhere (the_world (initial demo_cwd)) [] (py "aws"))
    by apply Forall_nil_2.
  assert (Hex : is_Some (stat (the_world (initial demo_cwd)) (py "aws")))
    by decided.
  split; [run|]. split; [run|]. split; [run|]. split; [exact Hnone|].
  split; [exact Hex|].
  exact (which_empty_PATH_entry (py "aws") (py ":/usr/bin") [] [py "/usr/bin"]
           (initial demo_cwd) ltac:(run) ltac:(run) ltac:(run) Hnone Hex).
Defined.

Lemma which_of_an_absolute_name_witness :
  startswith_sep (py "/usr/bin/aws") = true
  ∧ cache_get (py "/usr/bin/aws") (which_cache (initial demo)) = None
  ∧ environ (the_world (initial demo)) !! py "PATH" = Some demo_path
  ∧ (which (py "/usr/bin/aws") (initial demo)).1
    = Ok (if path_exists (the_world (initial demo)) (py "/usr/bin/aws")
          then Some (py "/usr/bin/aws") else None).
Proof.
  do 3 (split; [run|]).
  exact (which_of_an_absolute_name (py "/usr/bin/aws") demo_path (initial demo)
           ltac:(run) ltac:(run) ltac:(run)).
Defined.


Lemma an_address_that_is_not_a_string_is_never_found_witness :
  resolved (demo_ready demo_five) (py "fzf") demo_fzf
  ∧ spawns (the_world (demo_ready demo_five)) (fzf_args demo_fzf) = true
  ∧ Forall address_not_text [demo_numbered]
  ∧ mapM (address_line demo_repr) [demo_numbered] = Ok [utf8 (py "5" ++ [Ch.lf])]
  ∧ utf8_decode (child (the_world (demo_ready demo_five)) (fzf_args demo_fzf)
                   (mjoin [utf8 (py "5" ++ [Ch.lf])])).2
    = Some (py "5" ++ [Ch.lf])
  ∧ (choose_instances demo_repr [demo_numbered] (demo_ready demo_five)).1
    = Ok (strip (py "5" ++ [Ch.lf]))
  ∧ stdin_of (trace (choose_instances demo_repr [demo_numbered]
                       (demo_ready demo_five)).2)
    = stdin_of (trace (demo_ready demo_five)) ++ mjoin [utf8 (py "5" ++ [Ch.lf])]
  ∧ ∀ name, lookup_instance [demo_numbered] name = Raise ValueError.
Proof.
  assert (Hres : resolved (demo_ready demo_five) (py "fzf") demo_fzf).
  { split; [run | by py_neq]. }
  assert (Hall : Forall address_not_text [demo_numbered]).
  { repeat constructor. exists (JInt 5). split; [run | done]. }
  split; [exact Hres|]. split; [run|]. split; [exact Hall|]. do 2 (split; [run|]).
  exact (an_address_that_is_not_a_string_is_never_found demo_repr [demo_numbered]
           demo_fzf [utf8 (py "5" ++ [Ch.lf])] (py "5" ++ [Ch.lf])
           (demo_ready demo_five) Hres ltac:(run) Hall ltac:(run) ltac:(run)).
Defined.
